(** * Virtual File System simulator: the engine of [vfs.py]

    A shallow embedding of the class [VirtualFileSystem] (the in-memory
    namespace store, its two cache tables, the operation journal and the
    statistics), followed by the properties of its command surface.

    Modelling conventions.
    - Python [str] is [string]; [int] is [Z]; [len] is [String.length]
      read as a [Z].
    - [FSItem] objects are mutable and shared: the dictionaries
      [filesystem], [dentry_cache] and [inode_cache] hold references to
      the same objects, and [read_file] returns such a reference.  The
      objects therefore live in an object heap ([heap], a list indexed by
      location); a dictionary maps its keys to locations.  An object is
      allocated by appending it to the heap and is never reclaimed, so
      the heap also remembers the nodes that [delete] took out of the
      store.
    - A method runs on a state and gives an [outcome] together with the
      state it leaves behind.  A Python exception ([KeyError] from a
      dictionary subscript, [ValueError] from [list.remove]) is the outcome
      [Raise]; the state next to it is the state at the point of the raise,
      with every assignment made before it.
    - [datetime.now()] is an input: every call receives the clock reading
      as a [Clock], already formatted the three ways the code formats it.

    Layout: the model; the predicates the statements use; lemmas on
    paths; single calls; the journal; the caches; the invariants of the
    reachable states; the engine on particular inputs; then more on the
    journal and the ids, the shape of the tree, the runs in which no call
    raised, the listing, the counters, the objects, and what failures and
    raises leave behind. *)

From Stdlib Require Import ZArith Ascii String List Lia.
From stdpp Require Import base decidable option list gmap strings sorting.

Local Open Scope Z_scope.

(** ** Python string helpers *)

Module Str.

(** ['/' in s] *)
Fixpoint contains_slash (s : string) : bool :=
  match s with
  | EmptyString => false
  | String c r => if Ascii.eqb c "/" then true else contains_slash r
  end.

(** [s.split('/')]: never empty, one more part than there are slashes. *)
Fixpoint split_slash (s : string) : list string :=
  match s with
  | EmptyString => [EmptyString]
  | String c r =>
      if Ascii.eqb c "/" then EmptyString :: split_slash r
      else match split_slash r with
           | [] => [String c EmptyString]
           | h :: t => String c h :: t
           end
  end.

(** ['/'.join(parts)] *)
Fixpoint join_slash (parts : list string) : string :=
  match parts with
  | [] => EmptyString
  | [x] => x
  | x :: r => x +:+ "/" +:+ join_slash r
  end.

(** [len(s)] *)
Definition len (s : string) : Z := Z.of_nat (String.length s).

(** [lst.remove(x)]: drops the first occurrence; [None] stands for the
    [ValueError] raised when there is none. *)
Fixpoint list_remove (x : string) (l : list string) : option (list string) :=
  match l with
  | [] => None
  | y :: r => if decide (y = x) then Some r
              else cons y <$> list_remove x r
  end.

(** [sorted(lst)] on strings: ascending in the lexicographic order of
    the characters. *)
Definition sorted (l : list string) : list string :=
  merge_sort (λ a b, Is_true (String.leb a b)) l.

End Str.

(** ** Data model *)

Inductive FileSystemType := EXT4 | NTFS | FAT32 | BTRFS | XFS | NFS.

Definition fs_value (t : FileSystemType) : string :=
  match t with
  | EXT4 => "ext4" | NTFS => "ntfs" | FAT32 => "fat32"
  | BTRFS => "btrfs" | XFS => "xfs" | NFS => "nfs"
  end.

Inductive ItemType := FILE | DIRECTORY.

Global Instance ItemType_eq_dec : EqDecision ItemType.
Proof. solve_decision. Defined.

Definition item_value (t : ItemType) : string :=
  match t with FILE => "file" | DIRECTORY => "dir" end.

Record FSItem := mkFSItem {
  name : string;
  item_type : ItemType;
  inode : Z;
  created : string;
  children : list string;
  content : string;
  size : Z
}.

Record Operation := mkOperation {
  timestamp : string;
  operation : string;
  path : string;
  op_filesystem : string;
  success : bool
}.

Record Statistics := mkStatistics {
  total_files : Z;
  total_dirs : Z;
  operations : Z;
  cache_hits : Z;
  cache_misses : Z
}.

(** A location of the object heap: the identity of an [FSItem] object. *)
Abbreviation loc := nat.

Record VFS := mkVFS {
  fs_type : FileSystemType;
  filesystem : gmap string loc;
  heap : list FSItem;
  current_path : string;
  inode_counter : Z;
  stats : Statistics;
  operation_log : list Operation;
  dentry_cache : gmap string loc;
  inode_cache : gmap Z loc
}.

(** One reading of the clock, in the formats the code asks for:
    [isoformat()], [strftime("%H:%M:%S.%f")[:-3]] and
    [strftime('%Y-%m-%d %H:%M:%S')]. *)
Record Clock := mkClock {
  now_isoformat : string;
  now_hms : string;
  now_ymd_hms : string
}.

Inductive exn := KeyError | ValueError.

(** [Stuck] has no Python counterpart: it is the outcome of following a
    location that is outside the heap, which no state built by the
    program contains (see [refs_in]). *)
Inductive outcome (A : Type) :=
  | Return (a : A)
  | Raise (e : exn)
  | Stuck.
Arguments Return {A} a.
Arguments Raise {A} e.
Arguments Stuck {A}.

(** ** Field updates *)

Definition set_children (c : list string) (it : FSItem) : FSItem :=
  mkFSItem (name it) (item_type it) (inode it) (created it) c (content it) (size it).

Definition set_content (c : string) (it : FSItem) : FSItem :=
  mkFSItem (name it) (item_type it) (inode it) (created it) (children it) c (size it).

Definition set_size (n : Z) (it : FSItem) : FSItem :=
  mkFSItem (name it) (item_type it) (inode it) (created it) (children it) (content it) n.

Definition set_filesystem (m : gmap string loc) (s : VFS) : VFS :=
  mkVFS (fs_type s) m (heap s) (current_path s) (inode_counter s) (stats s)
        (operation_log s) (dentry_cache s) (inode_cache s).

Definition set_heap (h : list FSItem) (s : VFS) : VFS :=
  mkVFS (fs_type s) (filesystem s) h (current_path s) (inode_counter s) (stats s)
        (operation_log s) (dentry_cache s) (inode_cache s).

Definition set_current_path (p : string) (s : VFS) : VFS :=
  mkVFS (fs_type s) (filesystem s) (heap s) p (inode_counter s) (stats s)
        (operation_log s) (dentry_cache s) (inode_cache s).

Definition set_inode_counter (n : Z) (s : VFS) : VFS :=
  mkVFS (fs_type s) (filesystem s) (heap s) (current_path s) n (stats s)
        (operation_log s) (dentry_cache s) (inode_cache s).

Definition set_stats (st : Statistics) (s : VFS) : VFS :=
  mkVFS (fs_type s) (filesystem s) (heap s) (current_path s) (inode_counter s) st
        (operation_log s) (dentry_cache s) (inode_cache s).

Definition set_operation_log (l : list Operation) (s : VFS) : VFS :=
  mkVFS (fs_type s) (filesystem s) (heap s) (current_path s) (inode_counter s) (stats s)
        l (dentry_cache s) (inode_cache s).

Definition set_dentry_cache (m : gmap string loc) (s : VFS) : VFS :=
  mkVFS (fs_type s) (filesystem s) (heap s) (current_path s) (inode_counter s) (stats s)
        (operation_log s) m (inode_cache s).

Definition set_inode_cache (m : gmap Z loc) (s : VFS) : VFS :=
  mkVFS (fs_type s) (filesystem s) (heap s) (current_path s) (inode_counter s) (stats s)
        (operation_log s) (dentry_cache s) m.

Definition hit (st : Statistics) : Statistics :=
  mkStatistics (total_files st) (total_dirs st) (operations st)
               (cache_hits st + 1) (cache_misses st).

Definition miss (st : Statistics) : Statistics :=
  mkStatistics (total_files st) (total_dirs st) (operations st)
               (cache_hits st) (cache_misses st + 1).

(** ** The engine *)

(** [f"{self.current_path}/{name}" if self.current_path != "/" else f"/{name}"] *)
Definition child_path (s : VFS) (nm : string) : string :=
  if decide (current_path s ≠ "/") then current_path s +:+ "/" +:+ nm
  else "/" +:+ nm.

(** The number of entries of [filesystem] whose object has the given
    kind: [sum(1 for item in self.filesystem.values() if ...)].  (A
    reference outside the heap, which no state of the program holds,
    counts for neither kind.) *)
Definition count_kind (k : ItemType) (s : VFS) : Z :=
  Z.of_nat (length (filter (λ pl, item_type <$> heap s !! pl.2 = Some k)
                           (map_to_list (filesystem s)))).

Definition _update_stats (s : VFS) : VFS :=
  set_stats (mkStatistics (count_kind FILE s) (count_kind DIRECTORY s)
                          (operations (stats s)) (cache_hits (stats s))
                          (cache_misses (stats s))) s.

Definition _log_operation (clk : Clock) (op pth : string) (ok : bool) (s : VFS) : VFS :=
  let rec := mkOperation (now_hms clk) op pth (fs_value (fs_type s)) ok in
  let s1 := set_operation_log (operation_log s ++ [rec]) s in
  set_stats (mkStatistics (total_files (stats s1)) (total_dirs (stats s1))
                          (operations (stats s1) + 1) (cache_hits (stats s1))
                          (cache_misses (stats s1))) s1.

(** [_create_item_internal]: used by the constructor only; returns the
    new object.  It cannot raise: the parent is looked up only when it is
    a key of the store. *)
Definition _create_item_internal (clk : Clock) (parent_path nm : string)
    (k : ItemType) (s : VFS) : loc * VFS :=
  let s1 := set_inode_counter (inode_counter s + 1) s in
  let item := mkFSItem nm k (inode_counter s1) (now_isoformat clk) [] "" 0 in
  let l := length (heap s1) in
  let s2 := set_heap (heap s1 ++ [item]) s1 in
  let full_path :=
    if decide (parent_path = "/")
    then (if decide (nm ≠ "root") then "/" +:+ nm else "/")
    else parent_path +:+ "/" +:+ nm in
  let s3 := set_filesystem (<[full_path := l]> (filesystem s2)) s2 in
  let s4 :=
    match filesystem s3 !! parent_path with
    | Some lp =>
        if decide (nm ≠ "root")
        then set_heap (alter (λ p, set_children (children p ++ [nm]) p) lp (heap s3)) s3
        else s3
    | None => s3
    end in
  (l, s4).

(** [obj.content = c; obj.size = len(c)] on the object at [l]. *)
Definition fill (l : loc) (c : string) (s : VFS) : VFS :=
  set_heap (alter (λ it, set_size (Str.len c) (set_content c it)) l (heap s)) s.

Definition readme_text : string :=
  "Welcome to VFS Simulator" +:+ String "010" "" +:+
  "This demonstrates Virtual File System operations with modern GUI." +:+
  String "010" (String "010" "") +:+
  "Features:" +:+ String "010" "" +:+
  "- Multi-file system support" +:+ String "010" "" +:+
  "- Dentry and Inode caching" +:+ String "010" "" +:+
  "- System call logging" +:+ String "010" "" +:+
  "- Performance statistics".

Definition config_text (t : FileSystemType) : string :=
  "filesystem=" +:+ fs_value t +:+ String "010" "" +:+
  "cache_enabled=true" +:+ String "010" "" +:+
  "version=2.0" +:+ String "010" "" +:+ "architecture=x64".

Definition log_text (clk : Clock) (t : FileSystemType) : string :=
  "[" +:+ now_ymd_hms clk +:+ "] System initialized" +:+ String "010" "" +:+
  "[" +:+ now_ymd_hms clk +:+ "] File system mounted: " +:+ fs_value t.

(** The object before [_initialize_filesystem] runs. *)
Definition blank (t : FileSystemType) : VFS :=
  mkVFS t ∅ [] "/" 0 (mkStatistics 0 0 0 0 0) [] ∅ ∅.

Definition _initialize_filesystem (clk : Clock) (s : VFS) : VFS :=
  let s := (_create_item_internal clk "/" "root" DIRECTORY s).2 in
  let s := (_create_item_internal clk "/" "home" DIRECTORY s).2 in
  let s := (_create_item_internal clk "/home" "user" DIRECTORY s).2 in
  let s := (_create_item_internal clk "/home/user" "documents" DIRECTORY s).2 in
  let s := (_create_item_internal clk "/home/user" "downloads" DIRECTORY s).2 in
  let '(readme, s) := _create_item_internal clk "/home/user" "readme.txt" FILE s in
  let s := fill readme readme_text s in
  let s := (_create_item_internal clk "/" "etc" DIRECTORY s).2 in
  let '(config, s) := _create_item_internal clk "/etc" "config.txt" FILE s in
  let s := fill config (config_text (fs_type s)) s in
  let s := (_create_item_internal clk "/" "var" DIRECTORY s).2 in
  let s := (_create_item_internal clk "/var" "log" DIRECTORY s).2 in
  let '(log, s) := _create_item_internal clk "/var/log" "system.log" FILE s in
  let s := fill log (log_text clk (fs_type s)) s in
  _update_stats s.

(** [VirtualFileSystem(fs_type)] *)
Definition init (t : FileSystemType) (clk : Clock) : VFS :=
  _initialize_filesystem clk (blank t).

(** *** The command surface *)

Definition create (clk : Clock) (nm : string) (k : ItemType) (s : VFS)
    : outcome (bool * string) * VFS :=
  if bool_decide (nm = "") || Str.contains_slash nm
  then (Return (false, "Invalid name!"), s)
  else
    let new_path := child_path s nm in
    match filesystem s !! new_path with
    | Some _ =>
        (Return (false, "Item already exists!"),
         _log_operation clk "CREATE" new_path false s)
    | None =>
        let s1 := set_inode_counter (inode_counter s + 1) s in
        let item := mkFSItem nm k (inode_counter s1) (now_isoformat clk) [] "" 0 in
        let l := length (heap s1) in
        let s2 := set_heap (heap s1 ++ [item]) s1 in
        let s3 := set_filesystem (<[new_path := l]> (filesystem s2)) s2 in
        match filesystem s3 !! current_path s3 with
        | None => (Raise KeyError, s3)
        | Some lp =>
            match heap s3 !! lp with
            | None => (Stuck, s3)
            | Some parent =>
                let s4 := set_heap (<[lp := set_children (children parent ++ [nm]) parent]>
                                      (heap s3)) s3 in
                let s5 := _update_stats s4 in
                let s6 := _log_operation clk "CREATE" new_path true s5 in
                (Return (true, "Created " +:+ item_value k +:+ ": " +:+ nm), s6)
            end
        end
    end.

Definition delete (clk : Clock) (nm : string) (s : VFS)
    : outcome (bool * string) * VFS :=
  let item_path := child_path s nm in
  match filesystem s !! item_path with
  | None =>
      (Return (false, "Item not found!"),
       _log_operation clk "DELETE" item_path false s)
  | Some l =>
      match heap s !! l with
      | None => (Stuck, s)
      | Some item =>
          if bool_decide (item_type item = DIRECTORY) && bool_decide (children item ≠ [])
          then (Return (false, "Cannot delete non-empty directory!"),
                _log_operation clk "DELETE" item_path false s)
          else
            let s1 := set_filesystem (base.delete item_path (filesystem s)) s in
            match filesystem s1 !! current_path s1 with
            | None => (Raise KeyError, s1)
            | Some lp =>
                match heap s1 !! lp with
                | None => (Stuck, s1)
                | Some parent =>
                    match Str.list_remove nm (children parent) with
                    | None => (Raise ValueError, s1)
                    | Some rest =>
                        let s2 := set_heap (<[lp := set_children rest parent]> (heap s1)) s1 in
                        let s3 :=
                          if bool_decide (is_Some (dentry_cache s2 !! item_path))
                          then set_dentry_cache (base.delete item_path (dentry_cache s2)) s2
                          else s2 in
                        let s4 :=
                          if bool_decide (is_Some (inode_cache s3 !! inode item))
                          then set_inode_cache (base.delete (inode item) (inode_cache s3)) s3
                          else s3 in
                        let s5 := _update_stats s4 in
                        let s6 := _log_operation clk "DELETE" item_path true s5 in
                        (Return (true, "Deleted: " +:+ nm), s6)
                    end
                end
            end
      end
  end.

(** [x or '/'] on strings *)
Definition or_slash (x : string) : string :=
  if bool_decide (x = "") then "/" else x.

Definition change_directory (clk : Clock) (nm : string) (s : VFS)
    : outcome (bool * string) * VFS :=
  if bool_decide (nm = "..") then
    if bool_decide (current_path s ≠ "/") then
      let parts := Str.split_slash (current_path s) in
      let s1 := set_current_path (or_slash (Str.join_slash (removelast parts))) s in
      let s2 := _log_operation clk "CHDIR" (current_path s1) true s1 in
      (Return (true, "Changed to " +:+ current_path s2), s2)
    else (Return (false, "Already at root"), s)
  else
    let new_path := child_path s nm in
    match filesystem s !! new_path with
    | None => (Return (false, "Directory not found!"), s)
    | Some l =>
        match heap s !! l with
        | None => (Stuck, s)
        | Some item =>
            if bool_decide (item_type item ≠ DIRECTORY)
            then (Return (false, "Not a directory!"), s)
            else
              let s1 :=
                if bool_decide (is_Some (dentry_cache s !! new_path))
                then set_stats (hit (stats s)) s
                else set_stats (miss (stats s))
                       (set_dentry_cache (<[new_path := l]> (dentry_cache s)) s) in
              let s2 := set_current_path new_path s1 in
              let s3 := _log_operation clk "CHDIR" new_path true s2 in
              (Return (true, "Changed to " +:+ new_path), s3)
        end
    end.

(** Returns the object itself (its location), or [None]. *)
Definition read_file (clk : Clock) (nm : string) (s : VFS)
    : outcome (option loc) * VFS :=
  let file_path := child_path s nm in
  match filesystem s !! file_path with
  | None => (Return None, s)
  | Some l =>
      match heap s !! l with
      | None => (Stuck, s)
      | Some item =>
          if bool_decide (item_type item ≠ FILE) then (Return None, s)
          else
            let s1 :=
              if bool_decide (is_Some (inode_cache s !! inode item))
              then set_stats (hit (stats s)) s
              else set_stats (miss (stats s))
                     (set_inode_cache (<[inode item := l]> (inode_cache s)) s) in
            let s2 := _log_operation clk "READ" file_path true s1 in
            (Return (Some l), s2)
      end
  end.

Definition write_file (clk : Clock) (nm c : string) (s : VFS)
    : outcome (bool * string) * VFS :=
  let file_path := child_path s nm in
  match filesystem s !! file_path with
  | None =>
      (Return (false, "File not found!"),
       _log_operation clk "WRITE" file_path false s)
  | Some l =>
      match heap s !! l with
      | None => (Stuck, s)
      | Some item =>
          if bool_decide (item_type item ≠ FILE)
          then (Return (false, "Not a file!"),
                _log_operation clk "WRITE" file_path false s)
          else
            let s1 := set_heap (<[l := set_size (Str.len c) (set_content c item)]> (heap s)) s in
            let s2 := _log_operation clk "WRITE" file_path true s1 in
            (Return (true, "File saved: " +:+ nm), s2)
      end
  end.

(** The loop of [get_current_items]: the objects of the children that
    [filesystem.get] finds, in the order given. *)
Fixpoint collect_children (s : VFS) (names : list string) : list loc :=
  match names with
  | [] => []
  | child_name :: rest =>
      match filesystem s !! child_path s child_name with
      | Some l => l :: collect_children s rest
      | None => collect_children s rest
      end
  end.

Definition get_current_items (clk : Clock) (s : VFS) : outcome (list loc) * VFS :=
  match filesystem s !! current_path s with
  | None => (Return [], s)
  | Some l =>
      match heap s !! l with
      | None => (Stuck, s)
      | Some current =>
          if bool_decide (item_type current ≠ DIRECTORY) then (Return [], s)
          else
            let items := collect_children s (Str.sorted (children current)) in
            (Return items, _log_operation clk "READDIR" (current_path s) true s)
      end
  end.

Definition clear_cache (clk : Clock) (s : VFS) : outcome unit * VFS :=
  let s1 := set_dentry_cache ∅ s in
  let s2 := set_inode_cache ∅ s1 in
  (Return tt, _log_operation clk "CACHE_CLEAR" "system" true s2).

(** *** Sequences of calls *)

Inductive command :=
  | Create (nm : string) (k : ItemType)
  | Delete (nm : string)
  | ChangeDirectory (nm : string)
  | ReadFile (nm : string)
  | WriteFile (nm c : string)
  | ListCurrentDirectory
  | ClearCache.

(** What a call hands back to its caller. *)
Inductive retval :=
  | RStatus (ok : bool) (msg : string)
  | RItem (o : option loc)
  | RItems (ls : list loc)
  | RNone.

Definition lift {A} (f : A → retval) (r : outcome A * VFS) : outcome retval * VFS :=
  match r.1 with
  | Return a => (Return (f a), r.2)
  | Raise e => (Raise e, r.2)
  | Stuck => (Stuck, r.2)
  end.

Definition exec (clk : Clock) (c : command) (s : VFS) : outcome retval * VFS :=
  match c with
  | Create nm k => lift (λ r, RStatus r.1 r.2) (create clk nm k s)
  | Delete nm => lift (λ r, RStatus r.1 r.2) (delete clk nm s)
  | ChangeDirectory nm => lift (λ r, RStatus r.1 r.2) (change_directory clk nm s)
  | ReadFile nm => lift RItem (read_file clk nm s)
  | WriteFile nm c => lift (λ r, RStatus r.1 r.2) (write_file clk nm c s)
  | ListCurrentDirectory => lift RItems (get_current_items clk s)
  | ClearCache => lift (λ _, RNone) (clear_cache clk s)
  end.

(** A caller that survives an exception (the event loop of the window
    does) goes on with the object as the raise left it. *)
Fixpoint run (cmds : list (Clock * command)) (s : VFS)
    : list (command * outcome retval) * VFS :=
  match cmds with
  | [] => ([], s)
  | (clk, c) :: rest =>
      let r := exec clk c s in
      let rs := run rest r.2 in
      ((c, r.1) :: rs.1, rs.2)
  end.

(** The states of a [VirtualFileSystem] object: those a sequence of
    calls leads to from a freshly constructed one. *)
Definition reachable (s : VFS) : Prop :=
  ∃ t clk0 cmds, s = (run cmds (init t clk0)).2.

(** ** Paths *)

(** A name that [create] accepts. *)
Definition valid_name (nm : string) : Prop :=
  nm ≠ "" ∧ Str.contains_slash nm = false.

(** The absolute path of a list of segments; the root has none. *)
Definition abs_path (segs : list string) : string :=
  match segs with
  | [] => "/"
  | _ => Str.join_slash ("" :: segs)
  end.

Definition valid_path (p : string) : Prop :=
  ∃ segs, Forall valid_name segs ∧ p = abs_path segs.

(** A name that [create] accepts, as a test. *)
Definition accepts (nm : string) : bool :=
  negb (bool_decide (nm = "") || Str.contains_slash nm).

(** [valid_path] for a list of segments, as a test. *)
Definition valid_segments (segs : list string) : bool := forallb accepts segs.

(** The last part of [p.split('/')]. *)
Definition leaf_name (p : string) : string :=
  List.last (Str.split_slash p) "".

(** ** Observations on states and results *)

(** The node stored under a path. *)
Definition node_at (s : VFS) (p : string) : option FSItem :=
  l ← filesystem s !! p; heap s !! l.

(** A call succeeded.  [get_current_items] returns a list either way;
    it has succeeded when the cursor is a directory of the store. *)
Definition call_succeeded (c : command) (s : VFS) (r : outcome retval) : Prop :=
  match c, r with
  | (Create _ _ | Delete _ | ChangeDirectory _ | WriteFile _ _), Return (RStatus true _) => True
  | ReadFile _, Return (RItem (Some _)) => True
  | ListCurrentDirectory, Return (RItems _) =>
      ∃ d, node_at s (current_path s) = Some d ∧ item_type d = DIRECTORY
  | ClearCache, Return RNone => True
  | _, _ => False
  end.

(** The journal got exactly one more record and the operation counter
    went up by one. *)
Definition journaled (s s' : VFS) : Prop :=
  (∃ rec, operation_log s' = operation_log s ++ [rec]) ∧
  operations (stats s') = operations (stats s) + 1.

(** The journal and the operation counter did not move. *)
Definition unrecorded (s s' : VFS) : Prop :=
  operation_log s' = operation_log s ∧
  operations (stats s') = operations (stats s).

(** Two states that agree on everything but the two cache tables and the
    hit and miss counters. *)
Definition cache_equiv (s1 s2 : VFS) : Prop :=
  fs_type s1 = fs_type s2 ∧
  filesystem s1 = filesystem s2 ∧
  heap s1 = heap s2 ∧
  current_path s1 = current_path s2 ∧
  inode_counter s1 = inode_counter s2 ∧
  operation_log s1 = operation_log s2 ∧
  total_files (stats s1) = total_files (stats s2) ∧
  total_dirs (stats s1) = total_dirs (stats s2) ∧
  operations (stats s1) = operations (stats s2).

(** The files that the calls of a run have handed out: the objects
    returned by its [read_file] calls. *)
Fixpoint reads_of (evs : list (command * outcome retval)) : list loc :=
  match evs with
  | [] => []
  | (ReadFile _, Return (RItem (Some l))) :: rest => l :: reads_of rest
  | _ :: rest => reads_of rest
  end.

(** ** Invariants *)

(** Every reference held by the store is an object of the heap. *)
Definition refs_in (m : gmap string loc) (n : nat) : Prop :=
  ∀ p l, m !! p = Some l → (l < n)%nat.

(** No object is stored under two paths. *)
Definition refs_inj (m : gmap string loc) : Prop :=
  ∀ p1 p2 l, m !! p1 = Some l → m !! p2 = Some l → p1 = p2.

(** The keys of the store are absolute paths. *)
Definition keys_valid (m : gmap string loc) : Prop :=
  ∀ p l, m !! p = Some l → valid_path p.

(** No object, stored or deleted, has an id above the counter. *)
Definition ids_bounded (h : list FSItem) (n : Z) : Prop :=
  ∀ l it, h !! l = Some it → inode it ≤ n.

(** No two objects, stored or deleted, have the same id. *)
Definition ids_distinct (h : list FSItem) : Prop :=
  ∀ l1 l2 it1 it2,
    h !! l1 = Some it1 → h !! l2 = Some it2 → inode it1 = inode it2 → l1 = l2.

Definition consistent (s : VFS) : Prop :=
  refs_in (filesystem s) (length (heap s)) ∧
  refs_inj (filesystem s) ∧
  ids_bounded (heap s) (inode_counter s) ∧
  ids_distinct (heap s) ∧
  valid_path (current_path s) ∧
  keys_valid (filesystem s).

(** Objects are never dropped from the heap and keep their id. *)
Definition heap_grows (h h' : list FSItem) : Prop :=
  ∀ l it, h !! l = Some it → ∃ it', h' !! l = Some it' ∧ inode it' = inode it.

(** An entry of the inode cache is keyed by the id of its object, and
    its object is one of [R]. *)
Definition cache_from (R : list loc) (ic : gmap Z loc) (h : list FSItem) : Prop :=
  ∀ i lc, ic !! i = Some lc →
    lc ∈ R ∧ ∃ it, h !! lc = Some it ∧ inode it = i.

Ltac unfold_setters :=
  cbn [_log_operation _update_stats set_filesystem set_heap set_current_path
       set_inode_counter set_stats set_operation_log set_dentry_cache
       set_inode_cache hit miss
       fs_type filesystem heap current_path inode_counter stats operation_log
       dentry_cache inode_cache total_files total_dirs operations cache_hits
       cache_misses fst snd].

(** ** Sample objects and runs *)

Definition noon : Clock :=
  mkClock "2024-01-01T12:00:00.000000" "12:00:00.000" "2024-01-01 12:00:00".

(** [VirtualFileSystem(FileSystemType.EXT4)] *)
Definition fresh : VFS := init EXT4 noon.

Definition at_noon (cs : list command) : list (Clock * command) :=
  (λ c, (noon, c)) <$> cs.

(** Deletes the seeded tree leaf by leaf, going into each directory and
    back; every call of it succeeds, and the root is left empty. *)
Definition empty_the_tree : list (Clock * command) :=
  at_noon [ChangeDirectory "home"; ChangeDirectory "user";
           Delete "documents"; Delete "downloads"; Delete "readme.txt";
           ChangeDirectory ".."; Delete "user";
           ChangeDirectory ".."; Delete "home";
           ChangeDirectory "etc"; Delete "config.txt";
           ChangeDirectory ".."; Delete "etc";
           ChangeDirectory "var"; ChangeDirectory "log"; Delete "system.log";
           ChangeDirectory ".."; Delete "log";
           ChangeDirectory ".."; Delete "var"].

(** Makes a directory named ".." inside [/home] and enters it from the
    root by a two-segment name. *)
Definition into_dotdot : list (Clock * command) :=
  at_noon [ChangeDirectory "home"; Create ".." DIRECTORY;
           ChangeDirectory ".."; ChangeDirectory "home/.."].

(** The object with a new empty file [a.txt] in the root. *)
Definition with_a_txt : list (Clock * command) := at_noon [Create "a.txt" FILE].

Definition a_txt : FSItem :=
  mkFSItem "a.txt" FILE 12 (now_isoformat noon) [] "" 0.

(** The seeded directory [/home]. *)
Definition home_dir : FSItem :=
  mkFSItem "home" DIRECTORY 2 (now_isoformat noon) ["user"] "" 0.

(** [fresh] with both cache tables filled by hand. *)
Definition fresh_warm : VFS :=
  set_inode_cache {[ 6 := 5%nat ]} (set_dentry_cache {[ "/home" := 1%nat ]} fresh).

(** The journal got exactly the record [rec] appended and the operation
    counter went up by one. *)
Definition recorded_once (rec : Operation) (s s' : VFS) : Prop :=
  operation_log s' = operation_log s ++ [rec] ∧
  operations (stats s') = operations (stats s) + 1.

(** The call returned, with the flag [True]. *)
Definition succeeded (r : outcome retval) : bool :=
  match r with
  | Return (RStatus true _) => true
  | _ => false
  end.

Ltac by_evaluation := vm_compute; reflexivity.

(** ** Further predicates *)

(** What [change_directory("..")] computes from a path:
    ['/'.join(p.split('/')[:-1]) or '/']. *)
Definition parent_path (p : string) : string :=
  or_slash (Str.join_slash (removelast (Str.split_slash p))).

(** The ids are handed out one after the other, from 1: the object at
    location [l] (the [l]-th one constructed, counting from 0) has id
    [l + 1], and the counter is the number of objects constructed. *)
Definition ids_consecutive (h : list FSItem) (n : Z) : Prop :=
  n = Z.of_nat (length h) ∧
  ∀ l it, h !! l = Some it → inode it = Z.of_nat l + 1.

(** A call whose name argument, if it is a [delete], is a name that
    [create] accepts. *)
Definition polite (c : command) : Prop :=
  match c with
  | Delete nm => valid_name nm
  | _ => True
  end.

(** The two totals of the statistics are the numbers of files and of
    directories of the store. *)
Definition in_sync (s : VFS) : Prop :=
  total_files (stats s) = count_kind FILE s ∧
  total_dirs (stats s) = count_kind DIRECTORY s.

(** [f"{p}/{nm}" if p != "/" else f"/{nm}"]: the path that [child_path]
    builds from the cursor. *)
Definition join_path (p nm : string) : string :=
  if decide (p ≠ "/") then p +:+ "/" +:+ nm else "/" +:+ nm.

(** The node that a store [m] over a heap [h] holds under a path. *)
Definition node_in (m : gmap string loc) (h : list FSItem) (p : string)
    : option FSItem :=
  l ← m !! p; h !! l.

(** The shape of the tree: the root is a directory; a node is named by
    the last segment of its path; children lists hold names that [create]
    accepts; a node below the first level has its parent in the store, a
    directory; a node whose parent is in the store is listed by it; and
    the cursor, when it is not "/", is a directory of the store. *)
Definition tree_ok (m : gmap string loc) (h : list FSItem) (cp : string) : Prop :=
  (∀ it, node_in m h "/" = Some it → item_type it = DIRECTORY) ∧
  (∀ K it, node_in m h K = Some it → K ≠ "/" → name it = leaf_name K) ∧
  (∀ l it, h !! l = Some it → Forall valid_name (children it)) ∧
  (∀ K l, m !! K = Some l → K ≠ "/" → parent_path K ≠ "/" →
     ∃ d, node_in m h (parent_path K) = Some d ∧ item_type d = DIRECTORY) ∧
  (∀ K l d, m !! K = Some l → K ≠ "/" →
     node_in m h (parent_path K) = Some d → leaf_name K ∈ children d) ∧
  (cp ≠ "/" → ∃ d, node_in m h cp = Some d ∧ item_type d = DIRECTORY).

Definition sound (s : VFS) : Prop :=
  consistent s ∧ tree_ok (filesystem s) (heap s) (current_path s).

(** [tree_ok] as a test on a state. *)
Definition tree_check (s : VFS) : bool :=
  let m := filesystem s in
  let h := heap s in
  forallb (λ it, valid_segments (children it)) h &&
  forallb (λ pl : string * loc,
    if bool_decide (pl.1 = "/")
    then match h !! pl.2 with
         | Some it => bool_decide (item_type it = DIRECTORY)
         | None => true
         end
    else match h !! pl.2 with
         | Some it => bool_decide (name it = leaf_name pl.1)
         | None => true
         end &&
         match node_in m h (parent_path pl.1) with
         | Some d =>
             (bool_decide (parent_path pl.1 = "/") || bool_decide (item_type d = DIRECTORY))
             && bool_decide (leaf_name pl.1 ∈ children d)
         | None => bool_decide (parent_path pl.1 = "/")
         end) (map_to_list m) &&
  (bool_decide (current_path s = "/") ||
   match node_in m h (current_path s) with
   | Some d => bool_decide (item_type d = DIRECTORY)
   | None => false
   end).

(** The seeded directory [/home/user]. *)
Definition user_dir : FSItem :=
  mkFSItem "user" DIRECTORY 3 (now_isoformat noon)
           ["documents"; "downloads"; "readme.txt"] "" 0.

(** ** Runs in which no call raised *)

(** Every call of the run returned. *)
Definition unraised (evs : list (command * outcome retval)) : bool :=
  forallb (λ e, match e.2 with Return _ => true | _ => false end) evs.

(** The children lists and the store agree: a stored node lists no name
    twice, and each name it lists is an entry of the store below it. *)
Definition listed (s : VFS) : Prop :=
  ∀ P d, node_at s P = Some d →
    NoDup (children d) ∧
    ∀ nm, nm ∈ children d → is_Some (filesystem s !! join_path P nm).

(** The cache tables hold nodes of the store only: a dentry-cache entry
    is the store's entry for the same path, a directory, and an
    inode-cache entry is a stored file, filed under its id. *)
Definition live_dir (s : VFS) (p : string) (l : loc) : Prop :=
  filesystem s !! p = Some l ∧
  ∃ d, heap s !! l = Some d ∧ item_type d = DIRECTORY.

Definition live_file (s : VFS) (i : Z) (l : loc) : Prop :=
  ∃ p it, filesystem s !! p = Some l ∧ heap s !! l = Some it ∧
          inode it = i ∧ item_type it = FILE.

Definition caches_live (s : VFS) : Prop :=
  (∀ p l, dentry_cache s !! p = Some l → live_dir s p l) ∧
  (∀ i l, inode_cache s !! i = Some l → live_file s i l).

Definition tidy (s : VFS) : Prop :=
  is_Some (filesystem s !! "/") ∧ in_sync s ∧ listed s ∧ caches_live s.

(** What an object is to the tree: everything but content and size. *)
Definition facet (it : FSItem) : string * ItemType * Z * list string :=
  (name it, item_type it, inode it, children it).

(** What a call that returned has done to the store, the objects, the
    cache tables and the two totals.  It has either left the store alone
    (then objects changed in content and size at most, and a cache table
    got at most entries for stored nodes), or added one entry below the
    cursor, or removed one. *)
Inductive effect (s s' : VFS) : Prop :=
  | eff_quiet :
      filesystem s' = filesystem s →
      (∀ l, facet <$> heap s' !! l = facet <$> heap s !! l) →
      total_files (stats s') = total_files (stats s) →
      total_dirs (stats s') = total_dirs (stats s) →
      (∀ p l, dentry_cache s' !! p = Some l →
         dentry_cache s !! p = Some l ∨ live_dir s p l) →
      (∀ i l, inode_cache s' !! i = Some l →
         inode_cache s !! i = Some l ∨ live_file s i l) →
      effect s s'
  | eff_create nm item lp parent :
      valid_name nm →
      filesystem s !! join_path (current_path s) nm = None →
      filesystem s !! current_path s = Some lp →
      heap s !! lp = Some parent →
      name item = nm → children item = [] →
      filesystem s' = <[join_path (current_path s) nm := length (heap s)]> (filesystem s) →
      heap s' = <[lp := set_children (children parent ++ [nm]) parent]> (heap s ++ [item]) →
      dentry_cache s' = dentry_cache s →
      inode_cache s' = inode_cache s →
      in_sync s' →
      effect s s'
  | eff_delete nm l item lp parent rest :
      valid_name nm →
      filesystem s !! join_path (current_path s) nm = Some l →
      heap s !! l = Some item →
      filesystem s !! current_path s = Some lp →
      heap s !! lp = Some parent →
      Str.list_remove nm (children parent) = Some rest →
      filesystem s' = base.delete (join_path (current_path s) nm) (filesystem s) →
      heap s' = <[lp := set_children rest parent]> (heap s) →
      dentry_cache s' = base.delete (join_path (current_path s) nm) (dentry_cache s) →
      inode_cache s' = base.delete (inode item) (inode_cache s) →
      in_sync s' →
      effect s s'.

(** [len(self.filesystem)] *)
Definition entries (s : VFS) : Z := Z.of_nat (base.size (filesystem s)).

(** A short run that creates, reads and removes entries. *)
Definition busy : list (Clock * command) :=
  at_noon [ChangeDirectory "home"; ChangeDirectory "user";
           ReadFile "readme.txt"; Create "a.txt" FILE; WriteFile "a.txt" "hello";
           Delete "a.txt"; Delete "documents"; ListCurrentDirectory].

(** ** Records and counters *)

(** The operation name a method writes into its journal records. *)
Definition op_name (c : command) : string :=
  match c with
  | Create _ _ => "CREATE"
  | Delete _ => "DELETE"
  | ChangeDirectory _ => "CHDIR"
  | ReadFile _ => "READ"
  | WriteFile _ _ => "WRITE"
  | ListCurrentDirectory => "READDIR"
  | ClearCache => "CACHE_CLEAR"
  end.

(** A record written by a call made at a given reading of the clock on
    an object for file system [t]: it carries the reading, the name of
    the operation and the file system; only [create], [delete] and
    [write_file] write records of failure. *)
Definition record_of (t : FileSystemType) (rec : Operation)
    (call : Clock * command) : Prop :=
  timestamp rec = now_hms call.1 ∧
  operation rec = op_name call.2 ∧
  op_filesystem rec = fs_value t ∧
  (success rec = false →
     match call.2 with
     | Create _ _ | Delete _ | WriteFile _ _ => True
     | _ => False
     end).

(** A call that has consulted a cache table: a [change_directory] into
    a directory (not to the parent) or a [read_file], when successful. *)
Definition lookup_call (e : command * outcome retval) : Z :=
  match e with
  | (ChangeDirectory nm, Return (RStatus true _)) =>
      if bool_decide (nm = "..") then 0 else 1
  | (ReadFile _, Return (RItem (Some _))) => 1
  | _ => 0
  end.

Fixpoint lookups (evs : list (command * outcome retval)) : Z :=
  match evs with
  | [] => 0
  | e :: rest => lookup_call e + lookups rest
  end.

(** ** Objects *)

(** The size is the length of the content, a file has no children and
    a directory has no content. *)
Definition well_kept (it : FSItem) : Prop :=
  size it = Str.len (content it) ∧
  (item_type it = FILE → children it = []) ∧
  (item_type it = DIRECTORY → content it = "").

(** What an object never changes. *)
Definition same_identity (it it' : FSItem) : Prop :=
  name it' = name it ∧ item_type it' = item_type it ∧
  inode it' = inode it ∧ created it' = created it.

(** Every object stays, with its identity and well kept if it was, and
    the objects that have come are well kept. *)
Definition heap_evolves (h h' : list FSItem) : Prop :=
  (∀ l it, h !! l = Some it →
     ∃ it', h' !! l = Some it' ∧ same_identity it it' ∧ (well_kept it → well_kept it')) ∧
  (∀ l it', h' !! l = Some it' → h !! l = None → well_kept it').

(** ** Single calls *)

(** Nothing but the journal and the operation counter has moved. *)
Definition untouched (s s' : VFS) : Prop :=
  fs_type s' = fs_type s ∧
  filesystem s' = filesystem s ∧
  heap s' = heap s ∧
  current_path s' = current_path s ∧
  inode_counter s' = inode_counter s ∧
  dentry_cache s' = dentry_cache s ∧
  inode_cache s' = inode_cache s ∧
  total_files (stats s') = total_files (stats s) ∧
  total_dirs (stats s') = total_dirs (stats s) ∧
  cache_hits (stats s') = cache_hits (stats s) ∧
  cache_misses (stats s') = cache_misses (stats s).

(** The tree that [_initialize_filesystem] builds: the nodes in the
    order of their construction, each with its path, name, kind, id and
    children. *)
Definition seeded : list (string * (string * ItemType * Z * list string)) :=
  [("/", ("root", DIRECTORY, 1, ["home"; "etc"; "var"]));
   ("/home", ("home", DIRECTORY, 2, ["user"]));
   ("/home/user", ("user", DIRECTORY, 3, ["documents"; "downloads"; "readme.txt"]));
   ("/home/user/documents", ("documents", DIRECTORY, 4, []));
   ("/home/user/downloads", ("downloads", DIRECTORY, 5, []));
   ("/home/user/readme.txt", ("readme.txt", FILE, 6, []));
   ("/etc", ("etc", DIRECTORY, 7, ["config.txt"]));
   ("/etc/config.txt", ("config.txt", FILE, 8, []));
   ("/var", ("var", DIRECTORY, 9, ["log"]));
   ("/var/log", ("log", DIRECTORY, 10, ["system.log"]));
   ("/var/log/system.log", ("system.log", FILE, 11, []))].

(** ** The window's shortcuts *)

(** [VFSGuiApp.go_home], as far as the engine goes: the window assigns
    the cursor itself and writes the journal record.  (The redisplay
    that follows is a [get_current_items] call.) *)
Definition go_home (clk : Clock) (s : VFS) : VFS :=
  _log_operation clk "CHDIR" "/" true (set_current_path "/" s).

(** [VFSGuiApp.go_back], once for every clock reading:
    [change_directory('..')] each time. *)
Definition go_back (clks : list Clock) : list (Clock * command) :=
  (λ clk, (clk, ChangeDirectory "..")) <$> clks.

(** [listed] as a test on a state. *)
Definition listed_check (s : VFS) : bool :=
  forallb (λ pl : string * loc,
    match heap s !! pl.2 with
    | Some d =>
        bool_decide (NoDup (children d)) &&
        forallb (λ nm, bool_decide (is_Some (filesystem s !! join_path pl.1 nm)))
                (children d)
    | None => true
    end) (map_to_list (filesystem s)).

(** * Paths *)

Section path_lemmas.

Lemma app_cons c (a b : string) : String c a +:+ b = String c (a +:+ b).
Proof. reflexivity. Qed.

Lemma app_empty_l (b : string) : "" +:+ b = b.
Proof. reflexivity. Qed.

Lemma app_assoc3 (a b c : string) : (a +:+ b) +:+ c = a +:+ b +:+ c.
Proof.
  induction a as [|x a IH]; [reflexivity|].
  rewrite !app_cons. by rewrite IH.
Qed.

Lemma app_eq_empty (a b : string) : a +:+ b = "" → a = "" ∧ b = "".
Proof. destruct a; [rewrite app_empty_l; auto | rewrite app_cons; discriminate]. Qed.

Lemma split_ne_nil s : Str.split_slash s ≠ [].
Proof.
  induction s as [|c r IH]; simpl; [discriminate|].
  destruct (Ascii.eqb c "/"); [discriminate|].
  destruct (Str.split_slash r); [congruence | discriminate].
Qed.

Lemma split_noslash x : Str.contains_slash x = false → Str.split_slash x = [x].
Proof.
  induction x as [|c r IH]; simpl; [reflexivity|].
  destruct (Ascii.eqb c "/"); [discriminate|].
  intros H. by rewrite (IH H).
Qed.

Lemma split_app_slash x r :
  Str.contains_slash x = false →
  Str.split_slash (x +:+ "/" +:+ r) = x :: Str.split_slash r.
Proof.
  induction x as [|c x IH]; [reflexivity|].
  rewrite app_cons. simpl.
  destruct (Ascii.eqb c "/"); [discriminate|].
  intros H. by rewrite (IH H).
Qed.

Lemma split_join parts :
  parts ≠ [] → Forall (λ x, Str.contains_slash x = false) parts →
  Str.split_slash (Str.join_slash parts) = parts.
Proof.
  induction parts as [|x [|y rest] IH]; intros Hne Hall; [done| |].
  - simpl. apply split_noslash. by inversion Hall.
  - inversion Hall as [|? ? Hx Hrest]; subst.
    change (Str.join_slash (x :: y :: rest))
      with (x +:+ "/" +:+ Str.join_slash (y :: rest)).
    rewrite split_app_slash by done. f_equal. by apply IH.
Qed.

Lemma join_snoc parts x :
  parts ≠ [] → Str.join_slash (parts ++ [x]) = Str.join_slash parts +:+ "/" +:+ x.
Proof.
  induction parts as [|y [|z rest] IH]; intros Hne; [done|reflexivity|].
  change (Str.join_slash ((y :: z :: rest) ++ [x]))
    with (y +:+ "/" +:+ Str.join_slash ((z :: rest) ++ [x])).
  rewrite IH by done.
  change (Str.join_slash (y :: z :: rest))
    with (y +:+ "/" +:+ Str.join_slash (z :: rest)).
  by rewrite !app_assoc3.
Qed.

Lemma valid_name_noslash segs :
  Forall valid_name segs → Forall (λ x, Str.contains_slash x = false) segs.
Proof. intros H. eapply Forall_impl; [exact H|]. by intros ? [_ ?]. Qed.

Lemma abs_path_cons x segs :
  abs_path (x :: segs) = "/" +:+ Str.join_slash (x :: segs).
Proof. reflexivity. Qed.

Lemma join_valid_ne_empty x segs :
  valid_name x → Str.join_slash (x :: segs) ≠ "".
Proof.
  intros [Hx _]. destruct segs as [|y r]; [done|].
  change (Str.join_slash (x :: y :: r)) with (x +:+ "/" +:+ Str.join_slash (y :: r)).
  intros [? _]%app_eq_empty. done.
Qed.

Lemma abs_path_ne_root segs :
  Forall valid_name segs → segs ≠ [] → abs_path segs ≠ "/".
Proof.
  destruct segs as [|x r]; [done|]. intros Hall _.
  rewrite abs_path_cons. intros H.
  assert (Str.join_slash (x :: r) = "") as Hj by (by injection H).
  revert Hj. apply join_valid_ne_empty. by inversion Hall.
Qed.

Lemma abs_path_root_inv segs :
  Forall valid_name segs → abs_path segs = "/" → segs = [].
Proof.
  intros Hall H. destruct segs as [|x r]; [done|].
  by destruct (abs_path_ne_root (x :: r) Hall).
Qed.

(** [p + "/" + nm], or ["/" + nm] at the root, appends a segment. *)
Lemma abs_path_snoc segs nm :
  Forall valid_name segs →
  (if decide (abs_path segs ≠ "/") then abs_path segs +:+ "/" +:+ nm else "/" +:+ nm)
  = abs_path (segs ++ [nm]).
Proof.
  intros Hall. destruct segs as [|x r].
  - destruct (decide (abs_path [] ≠ "/")) as [Hd|_]; [done|reflexivity].
  - destruct (decide (abs_path (x :: r) ≠ "/")) as [_|Hd];
      [|by destruct Hd; apply abs_path_ne_root].
    change ((x :: r) ++ [nm]) with (x :: (r ++ [nm])).
    rewrite !abs_path_cons.
    change (x :: (r ++ [nm])) with ((x :: r) ++ [nm]).
    rewrite join_snoc by done. by rewrite !app_assoc3.
Qed.

Lemma split_abs_path segs :
  Forall valid_name segs → segs ≠ [] →
  Str.split_slash (abs_path segs) = "" :: segs.
Proof.
  intros Hall Hne. destruct segs as [|x r]; [done|].
  unfold abs_path. apply split_join; [done|].
  constructor; [done|]. by apply valid_name_noslash.
Qed.

Lemma Forall_removelast {A} (P : A → Prop) (l : list A) :
  Forall P l → Forall P (removelast l).
Proof.
  induction 1 as [|x l Hx Hl IH]; [constructor|].
  destruct l; [constructor|]. by constructor.
Qed.

(** ['/'.join(p.split('/')[:-1]) or '/'] drops the last segment. *)
Lemma parent_abs_path segs :
  Forall valid_name segs → segs ≠ [] →
  or_slash (Str.join_slash (removelast (Str.split_slash (abs_path segs))))
  = abs_path (removelast segs).
Proof.
  intros Hall Hne. rewrite split_abs_path by done.
  destruct segs as [|x r]; [done|].
  change (removelast ("" :: x :: r)) with ("" :: removelast (x :: r)).
  destruct (removelast (x :: r)) as [|y r'] eqn:Hr.
  - reflexivity.
  - assert (valid_name y) as Hy.
    { pose proof (Forall_removelast _ _ Hall) as HF.
      rewrite Hr in HF. by inversion HF. }
    change (Str.join_slash ("" :: y :: r')) with ("/" +:+ Str.join_slash (y :: r')).
    unfold or_slash. rewrite abs_path_cons.
    by rewrite bool_decide_eq_false_2.
Qed.

Lemma leaf_abs_path segs :
  Forall valid_name segs → segs ≠ [] → leaf_name (abs_path segs) = List.last segs "".
Proof.
  intros Hall Hne. unfold leaf_name. rewrite split_abs_path by done.
  destruct segs; [done|]. reflexivity.
Qed.

Lemma valid_path_root : valid_path "/".
Proof. by exists []. Qed.

End path_lemmas.

(** * Single calls *)

Section single_calls.

Context (clk : Clock).

Lemma child_path_frame s s' nm :
  current_path s' = current_path s → child_path s' nm = child_path s nm.
Proof. unfold child_path. by intros ->. Qed.

(** What a successful [write_file] leaves behind. *)
Lemma write_file_ok nm c s l item :
  filesystem s !! child_path s nm = Some l →
  heap s !! l = Some item →
  item_type item = FILE →
  write_file clk nm c s =
    (Return (true, "File saved: " +:+ nm),
     _log_operation clk "WRITE" (child_path s nm) true
       (set_heap (<[l := set_size (Str.len c) (set_content c item)]> (heap s)) s)).
Proof.
  intros Hp Hl Hk. unfold write_file. rewrite Hp, Hl.
  rewrite bool_decide_eq_false_2; [done|]. rewrite Hk. by intros ?.
Qed.

(** What a successful [read_file] leaves behind. *)
Lemma read_file_ok nm s l item :
  filesystem s !! child_path s nm = Some l →
  heap s !! l = Some item →
  item_type item = FILE →
  read_file clk nm s =
    (Return (Some l),
     _log_operation clk "READ" (child_path s nm) true
       (if bool_decide (is_Some (inode_cache s !! inode item))
        then set_stats (hit (stats s)) s
        else set_stats (miss (stats s))
               (set_inode_cache (<[inode item := l]> (inode_cache s)) s))).
Proof.
  intros Hp Hl Hk. unfold read_file. rewrite Hp, Hl.
  rewrite bool_decide_eq_false_2; [done|]. rewrite Hk. by intros ?.
Qed.

End single_calls.

(** C4. For a file [f] of the current directory and any string [c],
    [write_file f c] succeeds and a following [read_file f] returns the
    file's node, whose content is [c] and whose size is the length of
    [c]. *)
Theorem write_then_read_roundtrip clk1 clk2 f c s l item :
  filesystem s !! child_path s f = Some l →
  heap s !! l = Some item →
  item_type item = FILE →
  ∃ msg s1 s2 item',
    write_file clk1 f c s = (Return (true, msg), s1) ∧
    read_file clk2 f s1 = (Return (Some l), s2) ∧
    heap s2 !! l = Some item' ∧
    content item' = c ∧
    size item' = Str.len c.
Proof.
  intros Hp Hl Hk.
  assert (l < length (heap s))%nat as Hlt by (by eapply lookup_lt_Some).
  pose (item' := set_size (Str.len c) (set_content c item)).
  pose (s1 := _log_operation clk1 "WRITE" (child_path s f) true
                (set_heap (<[l := item']> (heap s)) s)).
  assert (heap s1 !! l = Some item') as Hl1.
  { subst s1. unfold_setters. by apply list_lookup_insert_eq. }
  exists ("File saved: " +:+ f), s1, (read_file clk2 f s1).2, item'.
  split; [by apply write_file_ok|].
  rewrite (read_file_ok clk2 f s1 l item') by done.
  split; [done|]. split; [|done].
  destruct (bool_decide _); exact Hl1.
Qed.

(** C8. [delete] of a directory that has children returns the failure
    "Cannot delete non-empty directory!" and leaves the store (the keys,
    the nodes and their children lists) as it was, and the cursor and
    the caches with it. *)
Theorem delete_nonempty_directory_refused clk nm s l item :
  filesystem s !! child_path s nm = Some l →
  heap s !! l = Some item →
  item_type item = DIRECTORY →
  children item ≠ [] →
  ∃ s',
    delete clk nm s = (Return (false, "Cannot delete non-empty directory!"), s') ∧
    filesystem s' = filesystem s ∧
    heap s' = heap s ∧
    current_path s' = current_path s ∧
    dentry_cache s' = dentry_cache s ∧
    inode_cache s' = inode_cache s.
Proof.
  intros Hp Hl Hk Hc. unfold delete. rewrite Hp, Hl.
  rewrite !bool_decide_eq_true_2 by done.
  eexists. split; [reflexivity|]. by unfold_setters.
Qed.

(** The joined path is the root only for the empty name. *)
Lemma child_path_root s nm : child_path s nm = "/" → nm = "".
Proof.
  unfold child_path. destruct (decide (current_path s ≠ "/")) as [Hne|_].
  - destruct (current_path s) as [|c [|c' r]]; [by intros [=]| |].
    + rewrite app_cons, app_empty_l. destruct nm; by intros [=].
    + rewrite !app_cons. by intros [=].
  - rewrite app_cons, app_empty_l. by intros [=].
Qed.

(** [delete] with a name that is not empty leaves the root entry of the
    store alone, whatever the state and however the call ends. *)
Lemma delete_keeps_root clk nm s :
  nm ≠ "" → filesystem (delete clk nm s).2 !! "/" = filesystem s !! "/".
Proof.
  intros Hnm. unfold delete.
  assert (child_path s nm ≠ "/") as Hp by (by intros ?%child_path_root).
  destruct (filesystem s !! child_path s nm) as [l|]; [|done].
  destruct (heap s !! l) as [item|]; [|done].
  destruct (_ && _); [done|].
  unfold_setters.
  assert (base.delete (child_path s nm) (filesystem s) !! "/" = filesystem s !! "/")
    as Hkeep by (by apply lookup_delete_ne).
  destruct (_ !! current_path s) as [lp|]; [|done].
  destruct (heap s !! lp) as [parent|]; [|done].
  destruct (Str.list_remove nm (children parent)); [|done].
  cbn [fst snd]. by repeat case_match.
Qed.

(** C5. [change_directory] with a name other than ".." fails with
    "Directory not found!" when the joined path is not in the store and
    with "Not a directory!" when the node there is a file; ".." at the
    root fails with "Already at root"; and whenever the call does not
    succeed, the cursor, the store and both cache tables are what they
    were. *)
Theorem change_directory_failure_frame clk nm s r s' :
  change_directory clk nm s = (r, s') →
  (nm ≠ ".." → filesystem s !! child_path s nm = None →
     r = Return (false, "Directory not found!")) ∧
  (nm ≠ ".." → ∀ item, node_at s (child_path s nm) = Some item →
     item_type item = FILE → r = Return (false, "Not a directory!")) ∧
  (nm = ".." → current_path s = "/" → r = Return (false, "Already at root")) ∧
  ((∀ msg, r ≠ Return (true, msg)) →
     current_path s' = current_path s ∧
     filesystem s' = filesystem s ∧
     heap s' = heap s ∧
     dentry_cache s' = dentry_cache s ∧
     inode_cache s' = inode_cache s).
Proof.
  unfold change_directory, node_at. intros Hcd.
  assert (∀ P : Prop, (∀ m : string, r ≠ Return (true, m)) →
            (∃ m, r = Return (true, m)) → P) as Hyes.
  { intros P Hno [m Hm]. by destruct (Hno m). }
  destruct (bool_decide (nm = "..")) eqn:Hup.
  - apply bool_decide_eq_true in Hup.
    destruct (bool_decide (current_path s ≠ "/")) eqn:Hroot.
    + apply bool_decide_eq_true in Hroot. inversion Hcd; subst r s'.
      split; [done|]. split; [done|]. split; [done|].
      intros Hno. eapply Hyes; eauto.
    + apply bool_decide_eq_false in Hroot. inversion Hcd; subst r s'. done.
  - apply bool_decide_eq_false in Hup.
    destruct (filesystem s !! child_path s nm) as [l|] eqn:Hp.
    + destruct (heap s !! l) as [item|] eqn:Hl.
      * destruct (bool_decide (item_type item ≠ DIRECTORY)) eqn:Hk.
        -- inversion Hcd; subst r s'. done.
        -- apply bool_decide_eq_false in Hk. inversion Hcd; subst r s'.
           split; [done|]. split; [|split; [done|]].
           ++ intros _ it (l' & [= <-] & Hit)%bind_Some Hf.
              destruct Hk. rewrite Hl in Hit. injection Hit as <-. by rewrite Hf.
           ++ intros Hno. eapply Hyes; eauto.
      * inversion Hcd; subst r s'. split; [done|]. split; [|done].
        intros _ it (l' & [= <-] & Hit)%bind_Some. by rewrite Hl in Hit.
    + inversion Hcd; subst r s'. done.
Qed.

(** * The journal *)

Section journal.

Context (clk : Clock).

Lemma log_journaled op pth ok s s0 :
  operation_log s = operation_log s0 →
  operations (stats s) = operations (stats s0) →
  journaled s0 (_log_operation clk op pth ok s).
Proof.
  intros Hl Ho. split.
  - eexists. unfold_setters. by rewrite Hl.
  - unfold_setters. by rewrite Ho.
Qed.

Lemma create_journal nm k s :
  let r := create clk nm k s in
  ∀ b msg, r.1 = Return (b, msg) →
    (b = true → journaled s r.2) ∧
    (msg = "Item already exists!" → journaled s r.2) ∧
    (msg = "Invalid name!" → unrecorded s r.2).
Proof.
  cbv zeta. unfold create.
  destruct (bool_decide (nm = "") || Str.contains_slash nm).
  { intros b msg [= <- <-]. by repeat split. }
  destruct (filesystem s !! child_path s nm).
  { intros b msg [= <- <-]. cbn [fst snd].
    split; [done|]. split; [|done]. intros _. by apply log_journaled. }
  unfold_setters.
  destruct (_ !! current_path s) as [lp|]; [|by intros b msg [=]].
  destruct (_ !! lp) as [parent|]; [|by intros b msg [=]].
  intros b msg [= <- <-]. cbn [fst snd].
  split; [intros _; by apply log_journaled|].
  split; intros Hmsg; destruct k; by inversion Hmsg.
Qed.

Lemma delete_journal nm s :
  let r := delete clk nm s in
  ∀ b msg, r.1 = Return (b, msg) → journaled s r.2.
Proof.
  cbv zeta. unfold delete.
  destruct (filesystem s !! child_path s nm) as [l|].
  2:{ intros b msg _. by apply log_journaled. }
  destruct (heap s !! l) as [item|]; [|by intros b msg [=]].
  destruct (_ && _).
  { intros b msg _. by apply log_journaled. }
  unfold_setters.
  destruct (_ !! current_path s) as [lp|]; [|by intros b msg [=]].
  destruct (heap s !! lp) as [parent|]; [|by intros b msg [=]].
  destruct (Str.list_remove nm (children parent)) as [rest|]; [|by intros b msg [=]].
  intros b msg _. cbn [fst snd].
  apply log_journaled; by repeat case_match.
Qed.

Lemma change_directory_journal nm s :
  let r := change_directory clk nm s in
  ∀ msg, r.1 = Return (true, msg) → journaled s r.2.
Proof.
  cbv zeta. unfold change_directory.
  destruct (bool_decide (nm = "..")).
  { destruct (bool_decide (current_path s ≠ "/")); [|by intros msg [=]].
    intros msg _. by apply log_journaled. }
  destruct (filesystem s !! child_path s nm) as [l|]; [|by intros msg [=]].
  destruct (heap s !! l) as [item|]; [|by intros msg [=]].
  destruct (bool_decide (item_type item ≠ DIRECTORY)); [by intros msg [=]|].
  intros msg _. cbn [fst snd]. apply log_journaled; by case_match.
Qed.

Lemma read_file_journal nm s :
  let r := read_file clk nm s in
  ∀ l, r.1 = Return (Some l) → journaled s r.2.
Proof.
  cbv zeta. unfold read_file.
  destruct (filesystem s !! child_path s nm) as [l|]; [|by intros l' [=]].
  destruct (heap s !! l) as [item|]; [|by intros l' [=]].
  destruct (bool_decide (item_type item ≠ FILE)); [by intros l' [=]|].
  intros l' _. cbn [fst snd]. apply log_journaled; by case_match.
Qed.

Lemma write_file_journal nm c s :
  let r := write_file clk nm c s in
  ∀ b msg, r.1 = Return (b, msg) → journaled s r.2.
Proof.
  cbv zeta. unfold write_file.
  destruct (filesystem s !! child_path s nm) as [l|].
  2:{ intros b msg _. by apply log_journaled. }
  destruct (heap s !! l) as [item|]; [|by intros b msg [=]].
  destruct (bool_decide (item_type item ≠ FILE)); intros b msg _;
    by apply log_journaled.
Qed.

Lemma get_current_items_journal s d :
  node_at s (current_path s) = Some d →
  item_type d = DIRECTORY →
  journaled s (get_current_items clk s).2.
Proof.
  intros (l & Hp & Hl)%bind_Some Hk. unfold get_current_items.
  rewrite Hp, Hl. rewrite bool_decide_eq_false_2 by (rewrite Hk; by intros ?).
  by apply log_journaled.
Qed.

Lemma clear_cache_journal s : journaled s (clear_cache clk s).2.
Proof. unfold clear_cache. by apply log_journaled. Qed.

Lemma lift_snd {A} (f : A → retval) (r : outcome A * VFS) : (lift f r).2 = r.2.
Proof. unfold lift. by destruct (r.1). Qed.

Lemma lift_fst {A} (f : A → retval) (r : outcome A * VFS) rv :
  (lift f r).1 = Return rv → ∃ a, r.1 = Return a ∧ rv = f a.
Proof. unfold lift. destruct (r.1); intros [=]. eauto. Qed.

End journal.

(** C1, amended. A call that succeeds appends exactly one record to the
    journal and adds one to the operation counter; so does a [delete] or
    a [write_file] that returns a failure, and a [create] that returns
    "Item already exists!".  A [create] that returns "Invalid name!"
    appends nothing and leaves the counter as it was. *)
Theorem calls_are_journaled clk c s :
  let r := exec clk c s in
  (call_succeeded c s r.1 → journaled s r.2) ∧
  (∀ msg, r.1 = Return (RStatus false msg) →
     match c with
     | Delete _ | WriteFile _ _ => journaled s r.2
     | Create _ _ =>
         (msg = "Item already exists!" → journaled s r.2) ∧
         (msg = "Invalid name!" → unrecorded s r.2)
     | _ => True
     end).
Proof.
  cbv zeta. destruct c as [nm k|nm|nm|nm|nm cnt| |]; cbn [exec].
  - split.
    + destruct (lift _ _).1 as [[[] msg| | |]| |] eqn:E; try done. intros _.
      apply lift_fst in E as ([b m] & E & [= <- <-]). rewrite lift_snd.
      destruct (create_journal clk nm k s true msg E) as (H & _ & _). by apply H.
    + intros msg ([b m] & E & [= <- <-])%lift_fst. rewrite lift_snd.
      destruct (create_journal clk nm k s false msg E) as (_ & H1 & H2). by split.
  - split.
    + destruct (lift _ _).1 as [[[] msg| | |]| |] eqn:E; try done. intros _.
      apply lift_fst in E as ([b m] & E & [= <- <-]). rewrite lift_snd.
      by apply (delete_journal clk nm s true msg E).
    + intros msg ([b m] & E & [= <- <-])%lift_fst. rewrite lift_snd.
      by apply (delete_journal clk nm s false msg E).
  - split; [|done].
    destruct (lift _ _).1 as [[[] msg| | |]| |] eqn:E; try done. intros _.
    apply lift_fst in E as ([b m] & E & [= <- <-]). rewrite lift_snd.
    by apply (change_directory_journal clk nm s msg E).
  - split; [|done].
    destruct (lift _ _).1 as [[|[l|]| |]| |] eqn:E; try done. intros _.
    apply lift_fst in E as (o & E & [= <-]). rewrite lift_snd.
    by apply (read_file_journal clk nm s l E).
  - split.
    + destruct (lift _ _).1 as [[[] msg| | |]| |] eqn:E; try done. intros _.
      apply lift_fst in E as ([b m] & E & [= <- <-]). rewrite lift_snd.
      by apply (write_file_journal clk nm cnt s true msg E).
    + intros msg ([b m] & E & [= <- <-])%lift_fst. rewrite lift_snd.
      by apply (write_file_journal clk nm cnt s false msg E).
  - split; [|done].
    destruct (lift _ _).1 as [[| |items|]| |] eqn:E; try done.
    intros (d & Hd & Hk). rewrite lift_snd.
    by apply (get_current_items_journal clk s d).
  - split; [|done]. intros _. rewrite lift_snd. apply clear_cache_journal.
Qed.

(** * The caches are advisory *)

Section advisory.

Context (clk : Clock).

Lemma cache_equiv_refl s : cache_equiv s s.
Proof. by repeat split. Qed.

Lemma cache_equiv_via a a' b b' :
  cache_equiv a a' → cache_equiv b b' → cache_equiv a' b' → cache_equiv a b.
Proof.
  unfold cache_equiv. intros (?&?&?&?&?&?&?&?&?) (?&?&?&?&?&?&?&?&?) (?&?&?&?&?&?&?&?&?).
  repeat split; congruence.
Qed.

Lemma cache_equiv_child_path s1 s2 nm :
  cache_equiv s1 s2 → child_path s1 nm = child_path s2 nm.
Proof. intros (_ & _ & _ & Hc & _). unfold child_path. by rewrite Hc. Qed.

Lemma cache_equiv_count k s1 s2 :
  cache_equiv s1 s2 → count_kind k s1 = count_kind k s2.
Proof.
  intros (_ & Hf & Hh & _). unfold count_kind. by rewrite Hf, Hh.
Qed.

(** The state changes of the engine, one by one. *)

Lemma log_advisory op pth ok s1 s2 :
  cache_equiv s1 s2 →
  cache_equiv (_log_operation clk op pth ok s1) (_log_operation clk op pth ok s2).
Proof.
  intros (Ht & Hf & Hh & Hc & Hn & Hl & H1 & H2 & H3).
  unfold cache_equiv. unfold_setters. rewrite Ht, Hl, H3. by repeat split.
Qed.

Lemma update_stats_advisory s1 s2 :
  cache_equiv s1 s2 → cache_equiv (_update_stats s1) (_update_stats s2).
Proof.
  intros Heq. pose proof (cache_equiv_count FILE _ _ Heq).
  pose proof (cache_equiv_count DIRECTORY _ _ Heq).
  destruct Heq as (Ht & Hf & Hh & Hc & Hn & Hl & H1 & H2 & H3).
  unfold cache_equiv. unfold_setters. by repeat split.
Qed.

Lemma set_heap_advisory h s1 s2 :
  cache_equiv s1 s2 → cache_equiv (set_heap h s1) (set_heap h s2).
Proof. intros (?&?&?&?&?&?&?&?&?). unfold cache_equiv. by unfold_setters. Qed.

Lemma set_filesystem_advisory m s1 s2 :
  cache_equiv s1 s2 → cache_equiv (set_filesystem m s1) (set_filesystem m s2).
Proof. intros (?&?&?&?&?&?&?&?&?). unfold cache_equiv. by unfold_setters. Qed.

Lemma set_current_path_advisory p s1 s2 :
  cache_equiv s1 s2 → cache_equiv (set_current_path p s1) (set_current_path p s2).
Proof. intros (?&?&?&?&?&?&?&?&?). unfold cache_equiv. by unfold_setters. Qed.

Lemma set_inode_counter_advisory n s1 s2 :
  cache_equiv s1 s2 → cache_equiv (set_inode_counter n s1) (set_inode_counter n s2).
Proof. intros (?&?&?&?&?&?&?&?&?). unfold cache_equiv. by unfold_setters. Qed.

Lemma set_dentry_cache_advisory m1 m2 s1 s2 :
  cache_equiv s1 s2 → cache_equiv (set_dentry_cache m1 s1) (set_dentry_cache m2 s2).
Proof. intros (?&?&?&?&?&?&?&?&?). unfold cache_equiv. by unfold_setters. Qed.

Lemma set_inode_cache_advisory m1 m2 s1 s2 :
  cache_equiv s1 s2 → cache_equiv (set_inode_cache m1 s1) (set_inode_cache m2 s2).
Proof. intros (?&?&?&?&?&?&?&?&?). unfold cache_equiv. by unfold_setters. Qed.

(** A branch that only touches a cache table or a hit or miss counter. *)

Lemma if_dentry_cache_equiv (b : bool) m s :
  cache_equiv (if b then set_dentry_cache m s else s) s.
Proof. destruct b; unfold cache_equiv; by unfold_setters. Qed.

Lemma if_inode_cache_equiv (b : bool) m s :
  cache_equiv (if b then set_inode_cache m s else s) s.
Proof. destruct b; unfold cache_equiv; by unfold_setters. Qed.

Lemma dentry_lookup_equiv (b : bool) m s :
  cache_equiv (if b then set_stats (hit (stats s)) s
               else set_stats (miss (stats s)) (set_dentry_cache m s)) s.
Proof. destruct b; unfold cache_equiv; by unfold_setters. Qed.

Lemma inode_lookup_equiv (b : bool) m s :
  cache_equiv (if b then set_stats (hit (stats s)) s
               else set_stats (miss (stats s)) (set_inode_cache m s)) s.
Proof. destruct b; unfold cache_equiv; by unfold_setters. Qed.

Create HintDb advisory.

Local Hint Resolve log_advisory update_stats_advisory set_heap_advisory
  set_filesystem_advisory set_current_path_advisory set_inode_counter_advisory
  set_dentry_cache_advisory set_inode_cache_advisory cache_equiv_refl : advisory.

Lemma create_advisory nm k s1 s2 :
  cache_equiv s1 s2 →
  (create clk nm k s1).1 = (create clk nm k s2).1 ∧
  cache_equiv (create clk nm k s1).2 (create clk nm k s2).2.
Proof.
  intros Heq. pose proof Heq as (Ht & Hf & Hh & Hc & Hn & Hl & H1 & H2 & H3).
  unfold create. rewrite (cache_equiv_child_path s1 s2) by done.
  destruct (bool_decide (nm = "") || Str.contains_slash nm); [done|].
  rewrite Hf. destruct (filesystem s2 !! child_path s2 nm).
  { simpl. auto with advisory. }
  cbn [filesystem heap current_path inode_counter set_filesystem set_heap
       set_inode_counter]. rewrite ?Hf, ?Hh, ?Hc, ?Hn.
  destruct (_ !! current_path s2) as [lp|].
  2:{ simpl. auto 10 with advisory. }
  destruct (_ !! lp) as [parent|].
  2:{ simpl. auto 10 with advisory. }
  simpl. split; [done|]. auto 10 with advisory.
Qed.

Lemma delete_advisory nm s1 s2 :
  cache_equiv s1 s2 →
  (delete clk nm s1).1 = (delete clk nm s2).1 ∧
  cache_equiv (delete clk nm s1).2 (delete clk nm s2).2.
Proof.
  intros Heq. pose proof Heq as (Ht & Hf & Hh & Hc & Hn & Hl & H1 & H2 & H3).
  unfold delete. rewrite (cache_equiv_child_path s1 s2) by done.
  rewrite Hf. destruct (filesystem s2 !! child_path s2 nm) as [l|].
  2:{ simpl. auto with advisory. }
  rewrite Hh. destruct (heap s2 !! l) as [item|]; [|done].
  destruct (_ && _).
  { simpl. auto with advisory. }
  cbn [filesystem heap current_path set_filesystem]. rewrite ?Hf, ?Hh, ?Hc.
  destruct (_ !! current_path s2) as [lp|].
  2:{ simpl. auto with advisory. }
  destruct (heap s2 !! lp) as [parent|].
  2:{ simpl. auto with advisory. }
  destruct (Str.list_remove nm (children parent)) as [rest|].
  2:{ simpl. auto with advisory. }
  cbn [fst snd]. split; [done|].
  apply log_advisory, update_stats_advisory.
  eapply cache_equiv_via; [apply if_inode_cache_equiv..|].
  eapply cache_equiv_via; [apply if_dentry_cache_equiv..|].
  auto with advisory.
Qed.

Lemma change_directory_advisory nm s1 s2 :
  cache_equiv s1 s2 →
  (change_directory clk nm s1).1 = (change_directory clk nm s2).1 ∧
  cache_equiv (change_directory clk nm s1).2 (change_directory clk nm s2).2.
Proof.
  intros Heq. pose proof Heq as (Ht & Hf & Hh & Hc & Hn & Hl & H1 & H2 & H3).
  unfold change_directory. rewrite (cache_equiv_child_path s1 s2) by done.
  destruct (bool_decide (nm = "..")).
  { rewrite Hc. destruct (bool_decide (current_path s2 ≠ "/")); [|done].
    cbn [fst snd]. split; [done|]. auto with advisory. }
  rewrite Hf. destruct (filesystem s2 !! child_path s2 nm) as [l|]; [|done].
  rewrite Hh. destruct (heap s2 !! l) as [item|]; [|done].
  destruct (bool_decide (item_type item ≠ DIRECTORY)); [done|].
  cbn [fst snd]. split; [done|].
  apply log_advisory, set_current_path_advisory.
  eapply cache_equiv_via; [apply dentry_lookup_equiv..|]. done.
Qed.

Lemma read_file_advisory nm s1 s2 :
  cache_equiv s1 s2 →
  (read_file clk nm s1).1 = (read_file clk nm s2).1 ∧
  cache_equiv (read_file clk nm s1).2 (read_file clk nm s2).2.
Proof.
  intros Heq. pose proof Heq as (Ht & Hf & Hh & Hc & Hn & Hl & H1 & H2 & H3).
  unfold read_file. rewrite (cache_equiv_child_path s1 s2) by done.
  rewrite Hf. destruct (filesystem s2 !! child_path s2 nm) as [l|]; [|done].
  rewrite Hh. destruct (heap s2 !! l) as [item|]; [|done].
  destruct (bool_decide (item_type item ≠ FILE)); [done|].
  cbn [fst snd]. split; [done|].
  apply log_advisory.
  eapply cache_equiv_via; [apply inode_lookup_equiv..|]. done.
Qed.

Lemma write_file_advisory nm c s1 s2 :
  cache_equiv s1 s2 →
  (write_file clk nm c s1).1 = (write_file clk nm c s2).1 ∧
  cache_equiv (write_file clk nm c s1).2 (write_file clk nm c s2).2.
Proof.
  intros Heq. pose proof Heq as (Ht & Hf & Hh & Hc & Hn & Hl & H1 & H2 & H3).
  unfold write_file. rewrite (cache_equiv_child_path s1 s2) by done.
  rewrite Hf. destruct (filesystem s2 !! child_path s2 nm) as [l|].
  2:{ simpl. auto with advisory. }
  rewrite Hh. destruct (heap s2 !! l) as [item|]; [|done].
  destruct (bool_decide (item_type item ≠ FILE)).
  { simpl. auto with advisory. }
  simpl. auto with advisory.
Qed.

Lemma collect_children_advisory s1 s2 names :
  cache_equiv s1 s2 → collect_children s1 names = collect_children s2 names.
Proof.
  intros Heq. pose proof Heq as (_ & Hf & _).
  induction names as [|n r IH]; [done|].
  simpl. by rewrite (cache_equiv_child_path s1 s2), Hf, IH.
Qed.

Lemma get_current_items_advisory s1 s2 :
  cache_equiv s1 s2 →
  (get_current_items clk s1).1 = (get_current_items clk s2).1 ∧
  cache_equiv (get_current_items clk s1).2 (get_current_items clk s2).2.
Proof.
  intros Heq. pose proof Heq as (Ht & Hf & Hh & Hc & Hn & Hl & H1 & H2 & H3).
  unfold get_current_items. rewrite Hf, Hc.
  destruct (filesystem s2 !! current_path s2) as [l|]; [|done].
  rewrite Hh. destruct (heap s2 !! l) as [current|]; [|done].
  destruct (bool_decide (item_type current ≠ DIRECTORY)); [done|].
  cbn [fst snd]. rewrite (collect_children_advisory s1 s2) by done.
  auto with advisory.
Qed.

Lemma clear_cache_advisory s1 s2 :
  cache_equiv s1 s2 →
  (clear_cache clk s1).1 = (clear_cache clk s2).1 ∧
  cache_equiv (clear_cache clk s1).2 (clear_cache clk s2).2.
Proof.
  intros Heq. unfold clear_cache. cbn [fst snd]. auto 10 with advisory.
Qed.

Lemma lift_advisory {A} (f : A → retval) (r1 r2 : outcome A * VFS) :
  r1.1 = r2.1 ∧ cache_equiv r1.2 r2.2 →
  (lift f r1).1 = (lift f r2).1 ∧ cache_equiv (lift f r1).2 (lift f r2).2.
Proof.
  intros [Hr Hs]. unfold lift. rewrite <- Hr. by destruct (r1.1).
Qed.

Lemma exec_advisory c s1 s2 :
  cache_equiv s1 s2 →
  (exec clk c s1).1 = (exec clk c s2).1 ∧
  cache_equiv (exec clk c s1).2 (exec clk c s2).2.
Proof.
  intros Heq. destruct c; cbn [exec]; apply lift_advisory;
    auto using create_advisory, delete_advisory, change_directory_advisory,
      read_file_advisory, write_file_advisory, get_current_items_advisory,
      clear_cache_advisory.
Qed.

End advisory.

(** C9. Two runs of the same calls from states that differ in nothing
    but the contents of the cache tables (and the hit and miss counters)
    return the same values, call for call, and end in states that again
    differ in nothing else: same store, same nodes, same cursor, same
    journal. *)
Theorem caches_never_influence_results cmds s1 s2 :
  cache_equiv s1 s2 →
  (run cmds s1).1 = (run cmds s2).1 ∧
  cache_equiv (run cmds s1).2 (run cmds s2).2.
Proof.
  revert s1 s2. induction cmds as [|[clk c] rest IH]; intros s1 s2 Heq; [done|].
  simpl. destruct (exec_advisory clk c s1 s2 Heq) as [Hr Hs].
  destruct (IH _ _ Hs) as [Hrs Hss]. by rewrite Hr, Hrs.
Qed.

(** * Invariants of the engine *)

Section components.

Lemma refs_in_insert (m : gmap string loc) n (p : string) : refs_in m n → refs_in (<[p := n]> m) (S n).
Proof.
  intros H q l. rewrite lookup_insert_Some. intros [[_ <-]|[_ Hq]]; [lia|].
  apply H in Hq. lia.
Qed.

Lemma refs_in_delete (m : gmap string loc) n (p : string) : refs_in m n → refs_in (base.delete p m) n.
Proof. intros H q l [_ Hq]%lookup_delete_Some. by eapply H. Qed.

Lemma refs_inj_insert (m : gmap string loc) n (p : string) :
  refs_in m n → refs_inj m → refs_inj (<[p := n]> m).
Proof.
  intros Hin Hinj p1 p2 l. rewrite !lookup_insert_Some.
  intros [[<- <-]|[_ H1]] [[<- E]|[_ H2]]; try done.
  - apply Hin in H2. lia.
  - apply Hin in H1. lia.
  - by eapply Hinj.
Qed.

Lemma refs_inj_delete (m : gmap string loc) (p : string) :
  refs_inj m → refs_inj (base.delete p m).
Proof.
  intros Hinj p1 p2 l [_ H1]%lookup_delete_Some [_ H2]%lookup_delete_Some.
  by eapply Hinj.
Qed.

Lemma keys_valid_insert (m : gmap string loc) (p : string) (l : loc) :
  valid_path p → keys_valid m → keys_valid (<[p := l]> m).
Proof.
  intros Hp H q l'. rewrite lookup_insert_Some. intros [[<- _]|[_ Hq]]; [done|].
  by eapply H.
Qed.

Lemma keys_valid_delete (m : gmap string loc) (p : string) : keys_valid m → keys_valid (base.delete p m).
Proof. intros H q l [_ Hq]%lookup_delete_Some. by eapply H. Qed.

Lemma ids_bounded_alloc h n it :
  ids_bounded h n → inode it = n + 1 → ids_bounded (h ++ [it]) (n + 1).
Proof.
  intros H Hi l it'. rewrite lookup_app_Some. intros [Hl|[_ Hl]].
  - apply H in Hl. lia.
  - apply list_lookup_singleton_Some in Hl as [_ <-]. lia.
Qed.

Lemma ids_distinct_alloc h n it :
  ids_bounded h n → ids_distinct h → inode it = n + 1 → ids_distinct (h ++ [it]).
Proof.
  intros Hb Hd Hi l1 l2 it1 it2. rewrite !lookup_app_Some.
  intros [H1|[Hge1 H1]] [H2|[Hge2 H2]] Heq.
  - by eapply Hd.
  - apply list_lookup_singleton_Some in H2 as [_ <-]. apply Hb in H1. lia.
  - apply list_lookup_singleton_Some in H1 as [_ <-]. apply Hb in H2. lia.
  - apply list_lookup_singleton_Some in H1 as [? _].
    apply list_lookup_singleton_Some in H2 as [? _]. lia.
Qed.

Lemma lookup_update_inode (h : list FSItem) l it it' l0 it0 :
  h !! l = Some it → inode it' = inode it →
  <[l := it']> h !! l0 = Some it0 →
  ∃ it1, h !! l0 = Some it1 ∧ inode it1 = inode it0.
Proof.
  intros Hl Hi H0. destruct (decide (l = l0)) as [<-|Hne].
  - rewrite list_lookup_insert_eq in H0 by (by eapply lookup_lt_Some).
    injection H0 as <-. eauto.
  - rewrite list_lookup_insert_ne in H0 by done. eauto.
Qed.

Lemma ids_bounded_update h n l it it' :
  ids_bounded h n → h !! l = Some it → inode it' = inode it →
  ids_bounded (<[l := it']> h) n.
Proof.
  intros H Hl Hi l0 it0 H0.
  destruct (lookup_update_inode _ _ _ _ _ _ Hl Hi H0) as (it1 & H1 & <-).
  by eapply H.
Qed.

Lemma ids_distinct_update h l it it' :
  ids_distinct h → h !! l = Some it → inode it' = inode it →
  ids_distinct (<[l := it']> h).
Proof.
  intros H Hl Hi l1 l2 it1 it2 H1 H2 Heq.
  destruct (lookup_update_inode _ _ _ _ _ _ Hl Hi H1) as (j1 & Hj1 & E1).
  destruct (lookup_update_inode _ _ _ _ _ _ Hl Hi H2) as (j2 & Hj2 & E2).
  eapply H; eauto. congruence.
Qed.

Lemma heap_grows_refl h : heap_grows h h.
Proof. intros l it Hl. eauto. Qed.

Lemma heap_grows_trans h1 h2 h3 :
  heap_grows h1 h2 → heap_grows h2 h3 → heap_grows h1 h3.
Proof.
  intros H12 H23 l it Hl. destruct (H12 _ _ Hl) as (it2 & H2 & E2).
  destruct (H23 _ _ H2) as (it3 & H3 & E3). exists it3. split; [done|congruence].
Qed.

Lemma heap_grows_alloc h it : heap_grows h (h ++ [it]).
Proof. intros l it0 Hl. exists it0. split; [|done]. by apply lookup_app_l_Some. Qed.

Lemma heap_grows_update h l it it' :
  h !! l = Some it → inode it' = inode it → heap_grows h (<[l := it']> h).
Proof.
  intros Hl Hi l0 it0 H0. destruct (decide (l = l0)) as [<-|Hne].
  - exists it'. rewrite list_lookup_insert_eq by (by eapply lookup_lt_Some).
    split; [done|]. congruence.
  - exists it0. by rewrite list_lookup_insert_ne.
Qed.

Lemma cache_from_weaken R R' ic ic' h h' :
  cache_from R ic h → R ⊆ R' → ic' ⊆ ic → heap_grows h h' → cache_from R' ic' h'.
Proof.
  intros H HR Hic Hh i lc Hi.
  destruct (H i lc) as (Hin & it & Hl & E); [by eapply lookup_weaken|].
  split; [by apply HR|]. destruct (Hh _ _ Hl) as (it' & Hl' & E').
  exists it'. split; [done|congruence].
Qed.

Lemma cache_from_insert R ic h l it :
  cache_from R ic h → h !! l = Some it →
  cache_from (R ++ [l]) (<[inode it := l]> ic) h.
Proof.
  intros H Hl i lc. rewrite lookup_insert_Some. intros [[<- <-]|[_ Hi]].
  - split; [|eauto]. apply elem_of_app. right. by apply list_elem_of_singleton.
  - destruct (H _ _ Hi) as [Hin Hit]. split; [|done]. apply elem_of_app. by left.
Qed.

Lemma valid_child_path s nm :
  valid_path (current_path s) → valid_name nm → valid_path (child_path s nm).
Proof.
  intros (segs & Hall & Hcp) Hnm. exists (segs ++ [nm]). split.
  - apply Forall_app. split; [done|]. by constructor.
  - unfold child_path. rewrite Hcp. by apply abs_path_snoc.
Qed.

Lemma valid_parent_path p :
  valid_path p → p ≠ "/" →
  valid_path (or_slash (Str.join_slash (removelast (Str.split_slash p)))).
Proof.
  intros (segs & Hall & ->) Hne. exists (removelast segs). split.
  - by apply Forall_removelast.
  - apply parent_abs_path; [done|]. by intros ->.
Qed.

Lemma accepted_name nm :
  bool_decide (nm = "") || Str.contains_slash nm = false → valid_name nm.
Proof.
  intros [Hn Hs]%orb_false_elim. split; [|done].
  by apply bool_decide_eq_false in Hn.
Qed.

End components.

Section steps.

Context (clk : Clock).

Lemma length_alloc (h : list FSItem) it : length (h ++ [it]) = S (length h).
Proof. rewrite length_app. cbn [length]. lia. Qed.

Lemma create_step nm k s :
  consistent s →
  let r := create clk nm k s in
  consistent r.2 ∧ heap_grows (heap s) (heap r.2) ∧ inode_cache r.2 = inode_cache s.
Proof.
  intros (Hrefs & Hinj & Hb & Hd & Hcp & Hk). cbv zeta. unfold create.
  destruct (bool_decide (nm = "") || Str.contains_slash nm) eqn:Hname.
  { cbn [fst snd]. by repeat split; try apply heap_grows_refl. }
  apply accepted_name in Hname.
  pose proof (valid_child_path s nm Hcp Hname) as Hnew.
  destruct (filesystem s !! child_path s nm) as [l0|] eqn:Hex.
  { cbn [fst snd]. unfold consistent. unfold_setters.
    by repeat split; try apply heap_grows_refl. }
  set (item := mkFSItem nm k _ _ _ _ _).
  assert (inode item = inode_counter s + 1) as Hitem by reflexivity.
  unfold_setters.
  set (h1 := heap s ++ [item]).
  set (m1 := <[child_path s nm := length (heap s)]> (filesystem s)).
  assert (refs_in m1 (length h1)) as Hrefs1.
  { subst h1. rewrite length_alloc. by apply refs_in_insert. }
  assert (refs_inj m1) as Hinj1 by (by apply refs_inj_insert).
  assert (ids_bounded h1 (inode_counter s + 1)) as Hb1 by (by apply ids_bounded_alloc).
  assert (ids_distinct h1) as Hd1 by (by eapply ids_distinct_alloc).
  assert (keys_valid m1) as Hk1 by (by apply keys_valid_insert).
  assert (heap_grows (heap s) h1) as Hg1 by apply heap_grows_alloc.
  destruct (m1 !! current_path s) as [lp|] eqn:Hlp.
  2:{ cbn [fst snd]. unfold consistent. by unfold_setters. }
  destruct (h1 !! lp) as [parent|] eqn:Hparent.
  2:{ cbn [fst snd]. unfold consistent. by unfold_setters. }
  cbn [fst snd]. unfold consistent. unfold_setters.
  rewrite length_insert.
  repeat split; try done.
  - by eapply ids_bounded_update.
  - by eapply ids_distinct_update.
  - eapply heap_grows_trans; [exact Hg1|]. by eapply heap_grows_update.
Qed.

Lemma delete_step nm s :
  consistent s →
  let r := delete clk nm s in
  consistent r.2 ∧ heap_grows (heap s) (heap r.2) ∧ inode_cache r.2 ⊆ inode_cache s.
Proof.
  intros (Hrefs & Hinj & Hb & Hd & Hcp & Hk). cbv zeta. unfold delete.
  assert (∀ s', filesystem s' = filesystem s → heap s' = heap s →
            current_path s' = current_path s → inode_counter s' = inode_counter s →
            inode_cache s' = inode_cache s →
            consistent s' ∧ heap_grows (heap s) (heap s') ∧
            inode_cache s' ⊆ inode_cache s) as Hsame.
  { intros s' Hf Hh Hc Hn Hi. unfold consistent. rewrite Hf, Hh, Hc, Hn, Hi.
    by repeat split; try apply heap_grows_refl. }
  destruct (filesystem s !! child_path s nm) as [l|] eqn:Hp.
  2:{ cbn [fst snd]. by apply Hsame. }
  destruct (heap s !! l) as [item|] eqn:Hl.
  2:{ cbn [fst snd]. by apply Hsame. }
  destruct (bool_decide (item_type item = DIRECTORY) && bool_decide (children item ≠ [])).
  { cbn [fst snd]. by apply Hsame. }
  unfold_setters.
  set (m1 := base.delete (child_path s nm) (filesystem s)).
  assert (refs_in m1 (length (heap s))) as Hrefs1 by (by apply refs_in_delete).
  assert (refs_inj m1) as Hinj1 by (by apply refs_inj_delete).
  assert (keys_valid m1) as Hk1 by (by apply keys_valid_delete).
  destruct (m1 !! current_path s) as [lp|] eqn:Hlp.
  2:{ cbn [fst snd]. unfold consistent. unfold_setters.
      by repeat split; try apply heap_grows_refl. }
  destruct (heap s !! lp) as [parent|] eqn:Hparent.
  2:{ cbn [fst snd]. unfold consistent. unfold_setters.
      by repeat split; try apply heap_grows_refl. }
  destruct (Str.list_remove nm (children parent)) as [rest|].
  2:{ cbn [fst snd]. unfold consistent. unfold_setters.
      by repeat split; try apply heap_grows_refl. }
  repeat case_match; cbn [fst snd]; unfold consistent; unfold_setters;
    rewrite length_insert;
    (split;
     [ split; [done|]; split; [done|]; split; [by eapply ids_bounded_update|];
       split; [by eapply ids_distinct_update|done]
     | split; [by eapply heap_grows_update|];
       first [done | apply delete_subseteq] ]).
Qed.

Lemma unchanged_step s s' :
  filesystem s' = filesystem s → heap s' = heap s →
  current_path s' = current_path s → inode_counter s' = inode_counter s →
  consistent s → consistent s' ∧ heap_grows (heap s) (heap s').
Proof.
  intros Hf Hh Hc Hn. unfold consistent. rewrite Hf, Hh, Hc, Hn.
  intros H. split; [done|]. apply heap_grows_refl.
Qed.

Lemma change_directory_step nm s :
  consistent s →
  let r := change_directory clk nm s in
  consistent r.2 ∧ heap_grows (heap s) (heap r.2) ∧ inode_cache r.2 = inode_cache s.
Proof.
  intros Hs. pose proof Hs as (Hrefs & Hinj & Hb & Hd & Hcp & Hk).
  cbv zeta. unfold change_directory.
  assert (consistent s ∧ heap_grows (heap s) (heap s) ∧ inode_cache s = inode_cache s)
    as Hsame by (by repeat split; try apply heap_grows_refl).
  destruct (bool_decide (nm = "..")).
  { destruct (bool_decide (current_path s ≠ "/")) eqn:Hroot; [|done].
    apply bool_decide_eq_true in Hroot. cbn [fst snd]. unfold consistent.
    unfold_setters. repeat split; try done; try apply heap_grows_refl.
    by apply valid_parent_path. }
  destruct (filesystem s !! child_path s nm) as [l|] eqn:Hp; [|done].
  destruct (heap s !! l) as [item|]; [|done].
  destruct (bool_decide (item_type item ≠ DIRECTORY)); [done|].
  destruct (bool_decide (is_Some (dentry_cache s !! child_path s nm)));
    cbn [fst snd]; unfold consistent; unfold_setters;
    (repeat split; try done; try apply heap_grows_refl; by eapply Hk).
Qed.

Lemma read_file_step nm s R :
  cache_from R (inode_cache s) (heap s) →
  let r := read_file clk nm s in
  filesystem r.2 = filesystem s ∧ heap r.2 = heap s ∧
  current_path r.2 = current_path s ∧ inode_counter r.2 = inode_counter s ∧
  cache_from (R ++ reads_of [(ReadFile nm, (lift RItem r).1)]) (inode_cache r.2) (heap r.2).
Proof.
  intros Hc. cbv zeta. unfold read_file.
  assert (cache_from (R ++ []) (inode_cache s) (heap s)) as Hc0
    by (by rewrite app_nil_r).
  destruct (filesystem s !! child_path s nm) as [l|]; [|done].
  destruct (heap s !! l) as [item|] eqn:Hl; [|done].
  destruct (bool_decide (item_type item ≠ FILE)); [done|].
  destruct (bool_decide (is_Some (inode_cache s !! inode item)));
    unfold lift; cbn [fst snd reads_of]; unfold_setters;
    (do 4 (split; [done|])).
  - apply (cache_from_weaken R _ (inode_cache s) _ (heap s) _ Hc).
    + intros x Hx. apply elem_of_app. by left.
    + done.
    + apply heap_grows_refl.
  - by apply cache_from_insert.
Qed.

Lemma write_file_step nm c s :
  consistent s →
  let r := write_file clk nm c s in
  consistent r.2 ∧ heap_grows (heap s) (heap r.2) ∧ inode_cache r.2 = inode_cache s.
Proof.
  intros Hs. pose proof Hs as (Hrefs & Hinj & Hb & Hd & Hcp & Hk).
  cbv zeta. unfold write_file.
  assert (∀ op pth ok,
            consistent (_log_operation clk op pth ok s) ∧
            heap_grows (heap s) (heap (_log_operation clk op pth ok s)) ∧
            inode_cache (_log_operation clk op pth ok s) = inode_cache s) as Hlog.
  { intros. unfold consistent. unfold_setters.
    by repeat split; try apply heap_grows_refl. }
  destruct (filesystem s !! child_path s nm) as [l|]; [|apply Hlog].
  destruct (heap s !! l) as [item|] eqn:Hl.
  2:{ cbn [fst snd]. by repeat split; try apply heap_grows_refl. }
  destruct (bool_decide (item_type item ≠ FILE)); [apply Hlog|].
  cbn [fst snd]. unfold consistent. unfold_setters. rewrite length_insert.
  repeat split; try done.
  - by eapply ids_bounded_update.
  - by eapply ids_distinct_update.
  - by eapply heap_grows_update.
Qed.

Lemma get_current_items_step s :
  let r := get_current_items clk s in
  filesystem r.2 = filesystem s ∧ heap r.2 = heap s ∧
  current_path r.2 = current_path s ∧ inode_counter r.2 = inode_counter s ∧
  inode_cache r.2 = inode_cache s.
Proof.
  cbv zeta. unfold get_current_items.
  destruct (filesystem s !! current_path s) as [l|]; [|done].
  destruct (heap s !! l) as [current|]; [|done].
  by destruct (bool_decide (item_type current ≠ DIRECTORY)).
Qed.

Lemma reads_of_other c (r : outcome retval) :
  (∀ nm, c ≠ ReadFile nm) → reads_of [(c, r)] = [].
Proof. intros Hc. destruct c; try done. by destruct (Hc nm). Qed.

Lemma no_dangling (m : gmap string loc) (h : list FSItem) p l :
  refs_in m (length h) → m !! p = Some l → h !! l = None → False.
Proof.
  intros Hrefs Hp Hl. apply Hrefs in Hp. apply lookup_ge_None in Hl. lia.
Qed.

(** In a consistent state no call follows a reference out of the heap. *)
Lemma exec_not_stuck c s : consistent s → (exec clk c s).1 ≠ Stuck.
Proof.
  intros (Hrefs & _).
  assert (∀ A (f : A → retval) (r : outcome A * VFS),
            r.1 ≠ Stuck → (lift f r).1 ≠ Stuck) as Hlift.
  { intros A f r. unfold lift. by destruct (r.1). }
  destruct c as [nm k|nm|nm|nm|nm cnt| |]; cbn [exec]; apply Hlift.
  - unfold create.
    destruct (bool_decide (nm = "") || Str.contains_slash nm); [done|].
    destruct (filesystem s !! child_path s nm); [done|]. unfold_setters.
    destruct (_ !! current_path s) as [lp|] eqn:Hlp; [|done].
    destruct (_ !! lp) as [parent|] eqn:Hparent; [done|].
    exfalso. eapply no_dangling; [|exact Hlp|exact Hparent].
    rewrite length_alloc. by apply refs_in_insert.
  - unfold delete.
    destruct (filesystem s !! child_path s nm) as [l|] eqn:Hp; [|done].
    destruct (heap s !! l) as [item|] eqn:Hl; [|by destruct (no_dangling _ _ _ _ Hrefs Hp Hl)].
    destruct (_ && _); [done|]. unfold_setters.
    destruct (_ !! current_path s) as [lp|] eqn:Hlp; [|done].
    destruct (heap s !! lp) as [parent|] eqn:Hparent.
    + by repeat case_match.
    + exfalso. eapply no_dangling; [|exact Hlp|exact Hparent]. by apply refs_in_delete.
  - unfold change_directory. repeat case_match; try done.
    exfalso. by eapply no_dangling.
  - unfold read_file. repeat case_match; try done.
    exfalso. by eapply no_dangling.
  - unfold write_file. repeat case_match; try done.
    exfalso. by eapply no_dangling.
  - unfold get_current_items. repeat case_match; try done.
    exfalso. by eapply no_dangling.
  - done.
Qed.

Lemma read_file_frame nm s :
  let r := read_file clk nm s in
  filesystem r.2 = filesystem s ∧ heap r.2 = heap s ∧
  current_path r.2 = current_path s ∧ inode_counter r.2 = inode_counter s.
Proof.
  cbv zeta. unfold read_file.
  destruct (filesystem s !! child_path s nm) as [l|]; [|done].
  destruct (heap s !! l) as [item|]; [|done].
  destruct (bool_decide (item_type item ≠ FILE)); [done|].
  by destruct (bool_decide _).
Qed.

Lemma exec_consistent c s : consistent s → consistent (exec clk c s).2.
Proof.
  intros Hs. destruct c as [nm k|nm|nm|nm|nm cnt| |]; cbn [exec]; rewrite lift_snd.
  - by destruct (create_step nm k s Hs).
  - by destruct (delete_step nm s Hs).
  - by destruct (change_directory_step nm s Hs).
  - destruct (read_file_frame nm s) as (Hf & Hh & Hcp & Hn).
    by destruct (unchanged_step s _ Hf Hh Hcp Hn Hs).
  - by destruct (write_file_step nm cnt s Hs).
  - destruct (get_current_items_step s) as (Hf & Hh & Hcp & Hn & _).
    by destruct (unchanged_step s _ Hf Hh Hcp Hn Hs).
  - cbn [clear_cache fst snd]. unfold consistent. unfold_setters. apply Hs.
Qed.

(** One call keeps the invariants, keeps every object and its id, and
    grows the set of handed-out files by what it returns. *)
Lemma exec_step c s R :
  consistent s → cache_from R (inode_cache s) (heap s) →
  let r := exec clk c s in
  consistent r.2 ∧ heap_grows (heap s) (heap r.2) ∧
  cache_from (R ++ reads_of [(c, r.1)]) (inode_cache r.2) (heap r.2).
Proof.
  intros Hs Hc. cbv zeta.
  assert (∀ s', consistent s' ∧ heap_grows (heap s) (heap s') ∧
                inode_cache s' ⊆ inode_cache s →
                ∀ c' r', (∀ nm, c' ≠ ReadFile nm) →
                consistent s' ∧ heap_grows (heap s) (heap s') ∧
                cache_from (R ++ reads_of [(c', r')]) (inode_cache s') (heap s'))
    as Hother.
  { intros s' (H1 & H2 & H3) c' r' Hc'. split; [done|]. split; [done|].
    rewrite reads_of_other, app_nil_r by done. by eapply cache_from_weaken. }
  destruct c as [nm k|nm|nm|nm|nm cnt| |]; cbn [exec]; rewrite lift_snd.
  - apply Hother; [|done]. destruct (create_step nm k s Hs) as (?&?&->). done.
  - apply Hother; [|done]. apply (delete_step nm s Hs).
  - apply Hother; [|done].
    destruct (change_directory_step nm s Hs) as (?&?&->). done.
  - destruct (read_file_step nm s R Hc) as (Hf & Hh & Hcp & Hn & Hcf).
    destruct (unchanged_step s _ Hf Hh Hcp Hn Hs) as [? ?]. done.
  - apply Hother; [|done]. destruct (write_file_step nm cnt s Hs) as (?&?&->). done.
  - destruct (get_current_items_step s) as (Hf & Hh & Hcp & Hn & Hi).
    apply Hother; [|done].
    destruct (unchanged_step s _ Hf Hh Hcp Hn Hs) as [? ?]. by rewrite Hi.
  - apply Hother; [|done]. cbn [clear_cache fst snd]. unfold consistent.
    unfold_setters. repeat split; try apply Hs; try apply heap_grows_refl.
    apply map_empty_subseteq.
Qed.

End steps.

(** A run keeps the invariants and every object with its id; an entry of
    the inode cache at its end is a file the run, or what came before
    it, has handed out. *)
Lemma run_step cmds s R :
  consistent s → cache_from R (inode_cache s) (heap s) →
  let r := run cmds s in
  consistent r.2 ∧ heap_grows (heap s) (heap r.2) ∧
  cache_from (R ++ reads_of r.1) (inode_cache r.2) (heap r.2).
Proof.
  revert s R. induction cmds as [|[clk c] rest IH]; intros s R Hs Hc; cbv zeta.
  { cbn [run fst snd reads_of]. rewrite app_nil_r.
    split; [done|]. split; [apply heap_grows_refl|done]. }
  cbn [run fst snd].
  destruct (exec_step clk c s R Hs Hc) as (Hs1 & Hg1 & Hc1).
  destruct (IH _ _ Hs1 Hc1) as (Hs2 & Hg2 & Hc2).
  split; [done|]. split; [by eapply heap_grows_trans|].
  assert (reads_of ((c, (exec clk c s).1) :: (run rest (exec clk c s).2).1)
          = reads_of [(c, (exec clk c s).1)] ++ reads_of (run rest (exec clk c s).2).1)
    as ->.
  { cbn [reads_of]. by repeat case_match. }
  by rewrite app_assoc.
Qed.


(** No call of a run from a consistent state has the outcome [Stuck]:
    every outcome is a return value or a Python exception. *)
Lemma run_not_stuck cmds s :
  consistent s → Forall (λ e, e.2 ≠ Stuck) (run cmds s).1.
Proof.
  revert s. induction cmds as [|[clk c] rest IH]; intros s Hs; [constructor|].
  cbn [run fst snd]. constructor.
  - by apply exec_not_stuck.
  - by apply IH, exec_consistent.
Qed.

(** * The freshly constructed object *)

Section fresh.

Context (t : FileSystemType) (clk0 : Clock).

Lemma init_store :
  map_to_list (filesystem (init t clk0)) =
    [("/etc/config.txt", 7%nat); ("/etc", 6%nat); ("/var/log/system.log", 10%nat);
     ("/var/log", 9%nat); ("/var", 8%nat); ("/home/user/readme.txt", 5%nat);
     ("/home/user/downloads", 4%nat); ("/home/user/documents", 3%nat);
     ("/home/user", 2%nat); ("/home", 1%nat); ("/", 0%nat)].
Proof. vm_compute. reflexivity. Qed.

Lemma init_ids : inode <$> heap (init t clk0) = [1; 2; 3; 4; 5; 6; 7; 8; 9; 10; 11].
Proof. vm_compute. reflexivity. Qed.

Lemma init_counter : inode_counter (init t clk0) = 11.
Proof. vm_compute. reflexivity. Qed.

Lemma init_cursor : current_path (init t clk0) = "/".
Proof. vm_compute. reflexivity. Qed.

Lemma init_caches :
  dentry_cache (init t clk0) = ∅ ∧ inode_cache (init t clk0) = ∅.
Proof. split; vm_compute; reflexivity. Qed.

Lemma init_statistics :
  stats (init t clk0) = mkStatistics 3 8 0 0 0 ∧ operation_log (init t clk0) = [].
Proof. split; vm_compute; reflexivity. Qed.

Lemma valid_path_segments segs :
  valid_segments segs = true → valid_path (abs_path segs).
Proof.
  intros H. exists segs. split; [|done].
  apply Forall_forall. intros x Hx.
  unfold valid_segments in H. rewrite forallb_forall in H.
  apply list_elem_of_In in Hx. apply H in Hx.
  apply accepted_name. by apply negb_true_iff in Hx.
Qed.

Lemma store_forall (m : gmap string loc) (f : string * loc → bool) :
  forallb f (map_to_list m) = true → ∀ p l, m !! p = Some l → f (p, l) = true.
Proof.
  intros H p l Hl%elem_of_map_to_list. rewrite forallb_forall in H.
  apply H. by apply list_elem_of_In.
Qed.

Lemma store_inj (m : gmap string loc) :
  NoDup (map_to_list m).*2 → refs_inj m.
Proof.
  intros Hnd p1 p2 l H1%elem_of_map_to_list H2%elem_of_map_to_list.
  apply list_elem_of_lookup in H1 as [i1 H1]. apply list_elem_of_lookup in H2 as [i2 H2].
  assert (i1 = i2) as ->.
  { eapply NoDup_lookup; [exact Hnd| |]; rewrite list_lookup_fmap.
    - by rewrite H1.
    - by rewrite H2. }
  congruence.
Qed.

Lemma init_consistent : consistent (init t clk0).
Proof.
  assert (length (heap (init t clk0)) = 11%nat) as Hlen.
  { rewrite <- (length_fmap inode), init_ids. reflexivity. }
  assert (∀ l it, heap (init t clk0) !! l = Some it →
            (inode <$> heap (init t clk0)) !! l = Some (inode it)) as Hid.
  { intros l it Hl. by rewrite list_lookup_fmap, Hl. }
  split; [|split; [|split; [|split; [|split]]]].
  - intros p l Hl. rewrite Hlen.
    apply (store_forall _ (λ pl, Nat.ltb pl.2 11)) in Hl.
    + by apply Nat.ltb_lt in Hl.
    + rewrite init_store. reflexivity.
  - apply store_inj. rewrite init_store.
    apply (bool_decide_unpack _). vm_compute. exact I.
  - rewrite init_counter. intros l it Hl%Hid. rewrite init_ids in Hl.
    apply list_elem_of_lookup_2 in Hl. revert Hl. generalize (inode it).
    apply Forall_forall. repeat constructor; lia.
  - intros l1 l2 it1 it2 H1%Hid H2%Hid Heq. rewrite Heq in H1.
    eapply NoDup_lookup; [|exact H1|exact H2].
    rewrite init_ids. apply (bool_decide_unpack _). vm_compute. exact I.
  - rewrite init_cursor. apply valid_path_root.
  - intros p l Hl.
    apply (store_forall _ (λ pl, bool_decide (pl.1 ∈
             abs_path <$> [["etc"; "config.txt"]; ["etc"]; ["var"; "log"; "system.log"];
                           ["var"; "log"]; ["var"]; ["home"; "user"; "readme.txt"];
                           ["home"; "user"; "downloads"]; ["home"; "user"; "documents"];
                           ["home"; "user"]; ["home"]; []]))) in Hl.
    + apply bool_decide_eq_true in Hl. cbn [fst] in Hl.
      apply list_elem_of_fmap in Hl as (segs & -> & Hsegs).
      apply valid_path_segments.
      revert segs Hsegs. apply Forall_forall. repeat constructor.
    + rewrite init_store. vm_compute. reflexivity.
Qed.

Lemma init_cache_from : cache_from [] (inode_cache (init t clk0)) (heap (init t clk0)).
Proof. intros i lc. by rewrite (proj2 init_caches). Qed.

(** Every state of the object satisfies the invariants, and an entry of
    its inode cache is a file some call has handed out. *)
Lemma reachable_consistent cmds :
  let r := run cmds (init t clk0) in
  consistent r.2 ∧ cache_from (reads_of r.1) (inode_cache r.2) (heap r.2).
Proof.
  destruct (run_step cmds _ [] init_consistent init_cache_from) as (H1 & _ & H2).
  done.
Qed.

End fresh.

Lemma reachable_is_consistent s : reachable s → consistent s.
Proof. intros (t & clk0 & cmds & ->). apply reachable_consistent. Qed.

Lemma run_app cmds1 cmds2 s :
  (run (cmds1 ++ cmds2) s).2 = (run cmds2 (run cmds1 s).2).2.
Proof.
  revert s. induction cmds1 as [|[clk c] rest IH]; intros s; [done|].
  cbn [app run fst snd]. apply IH.
Qed.

(** * Properties of the states of the object *)

Lemma node_at_Some s p item :
  node_at s p = Some item ↔ ∃ l, filesystem s !! p = Some l ∧ heap s !! l = Some item.
Proof. unfold node_at. apply bind_Some. Qed.

(** What [read_file] does to the counters and to the inode cache. *)
Lemma read_file_counts clk nm s l item :
  filesystem s !! child_path s nm = Some l →
  heap s !! l = Some item →
  item_type item = FILE →
  let r := read_file clk nm s in
  r.1 = Return (Some l) ∧
  filesystem r.2 = filesystem s ∧ heap r.2 = heap s ∧
  current_path r.2 = current_path s ∧
  (inode_cache s !! inode item = None →
     cache_misses (stats r.2) = cache_misses (stats s) + 1 ∧
     cache_hits (stats r.2) = cache_hits (stats s)) ∧
  (is_Some (inode_cache s !! inode item) →
     cache_hits (stats r.2) = cache_hits (stats s) + 1 ∧
     cache_misses (stats r.2) = cache_misses (stats s)) ∧
  is_Some (inode_cache r.2 !! inode item).
Proof.
  intros Hp Hl Hk. cbv zeta. rewrite (read_file_ok clk nm s l item) by done.
  cbn [fst snd]. split; [done|].
  destruct (bool_decide (is_Some (inode_cache s !! inode item))) eqn:Hc.
  - apply bool_decide_eq_true in Hc. unfold_setters.
    do 3 (split; [done|]). split; [|done].
    intros Hn. rewrite Hn in Hc. by destruct Hc.
  - apply bool_decide_eq_false in Hc. unfold_setters.
    do 4 (split; [done|]). split; [by intros Hs; destruct Hc|].
    rewrite lookup_insert_eq. eauto.
Qed.

(** After [clear_cache] the inode cache is empty and the rest of the
    state, counters included, is as before. *)
Lemma clear_cache_state clk s :
  let r := clear_cache clk s in
  r.1 = Return tt ∧
  filesystem r.2 = filesystem s ∧ heap r.2 = heap s ∧
  current_path r.2 = current_path s ∧
  dentry_cache r.2 = ∅ ∧ inode_cache r.2 = ∅ ∧
  cache_hits (stats r.2) = cache_hits (stats s) ∧
  cache_misses (stats r.2) = cache_misses (stats s).
Proof. cbv zeta. unfold clear_cache. by unfold_setters. Qed.

(** C3. In a state of the object, let [f] name a file of the current
    directory that no [read_file] call has returned so far.  Then a first
    [read_file f] adds one miss and no hit; a second one right after it
    adds one hit and no miss; and after a [clear_cache] the next
    [read_file f] adds one miss again (and no hit).  Every one of the
    three reads returns the file's node. *)
Theorem read_file_miss_hit_miss t clk0 cmds clk1 clk2 clk3 clk4 f l item :
  let r := run cmds (init t clk0) in
  let s := r.2 in
  filesystem s !! child_path s f = Some l →
  heap s !! l = Some item →
  item_type item = FILE →
  l ∉ reads_of r.1 →
  let r1 := read_file clk1 f s in
  let r2 := read_file clk2 f r1.2 in
  let r3 := clear_cache clk3 r2.2 in
  let r4 := read_file clk4 f r3.2 in
  (r1.1 = Return (Some l) ∧
   cache_misses (stats r1.2) = cache_misses (stats s) + 1 ∧
   cache_hits (stats r1.2) = cache_hits (stats s)) ∧
  (r2.1 = Return (Some l) ∧
   cache_hits (stats r2.2) = cache_hits (stats r1.2) + 1 ∧
   cache_misses (stats r2.2) = cache_misses (stats r1.2)) ∧
  (r4.1 = Return (Some l) ∧
   cache_misses (stats r4.2) = cache_misses (stats r3.2) + 1 ∧
   cache_hits (stats r4.2) = cache_hits (stats r3.2)).
Proof.
  intros r s Hp Hl Hk Hfirst r1 r2 r3 r4.
  destruct (reachable_consistent t clk0 cmds) as [Hs Hc]. fold r in Hs, Hc. fold s in Hs, Hc.
  assert (inode_cache s !! inode item = None) as Hcold.
  { destruct (inode_cache s !! inode item) as [lc|] eqn:Hlc; [|done].
    destruct (Hc _ _ Hlc) as (Hin & it & Hit & Hid).
    destruct Hs as (_ & _ & _ & Hd & _).
    assert (lc = l) as -> by (by eapply Hd). done. }
  destruct (read_file_counts clk1 f s l item Hp Hl Hk)
    as (E1 & Hf1 & Hh1 & Hc1 & Hmiss1 & _ & Hin1).
  fold r1 in E1, Hf1, Hh1, Hc1, Hmiss1, Hin1.
  assert (filesystem r1.2 !! child_path r1.2 f = Some l) as Hp1.
  { by rewrite (child_path_frame s r1.2), Hf1. }
  assert (heap r1.2 !! l = Some item) as Hl1 by (by rewrite Hh1).
  destruct (read_file_counts clk2 f r1.2 l item Hp1 Hl1 Hk)
    as (E2 & Hf2 & Hh2 & Hc2 & _ & Hhit2 & _).
  fold r2 in E2, Hf2, Hh2, Hc2, Hhit2.
  destruct (clear_cache_state clk3 r2.2) as (_ & Hf3 & Hh3 & Hc3 & _ & Hi3 & _).
  fold r3 in Hf3, Hh3, Hc3, Hi3.
  assert (filesystem r3.2 !! child_path r3.2 f = Some l) as Hp3.
  { rewrite (child_path_frame r1.2 r3.2) by congruence. by rewrite Hf3, Hf2. }
  assert (heap r3.2 !! l = Some item) as Hl3 by (by rewrite Hh3, Hh2).
  destruct (read_file_counts clk4 f r3.2 l item Hp3 Hl3 Hk)
    as (E4 & _ & _ & _ & Hmiss4 & _).
  fold r4 in E4, Hmiss4.
  split; [|split].
  - split; [done|]. by apply Hmiss1.
  - split; [done|]. by apply Hhit2.
  - split; [done|]. apply Hmiss4. by rewrite Hi3.
Qed.

(** What a successful [create] leaves behind. *)
Lemma create_ok clk nm k s msg s' :
  create clk nm k s = (Return (true, msg), s') →
  filesystem s' = <[child_path s nm := length (heap s)]> (filesystem s) ∧
  current_path s' = current_path s ∧
  inode_counter s' = inode_counter s + 1 ∧
  ∃ item, heap s' !! length (heap s) = Some item ∧
          name item = nm ∧ item_type item = k ∧ inode item = inode_counter s + 1.
Proof.
  unfold create.
  destruct (bool_decide (nm = "") || Str.contains_slash nm); [by intros [=]|].
  destruct (filesystem s !! child_path s nm); [by intros [=]|].
  unfold_setters.
  destruct (_ !! current_path s) as [lp|]; [|by intros [=]].
  destruct (_ !! lp) as [parent|] eqn:Hparent; [|by intros [=]].
  intros [= _ <-]. unfold_setters. do 3 (split; [done|]).
  assert (length (heap s) < length (heap s ++ [mkFSItem nm k (inode_counter s + 1)
            (now_isoformat clk) [] "" 0]))%nat as Hlt.
  { rewrite length_app. cbn [length]. lia. }
  destruct (decide (lp = length (heap s))) as [->|Hne].
  - rewrite list_lookup_insert_eq by done.
    rewrite lookup_app_r, Nat.sub_diag in Hparent by done.
    injection Hparent as <-. eexists. by split.
  - rewrite list_lookup_insert_ne by done.
    rewrite lookup_app_r, Nat.sub_diag by done. eexists. by split.
Qed.

(** Along a run, an object stays in the heap and keeps its id. *)
Lemma run_keeps_objects t clk0 pre post l it :
  heap (run pre (init t clk0)).2 !! l = Some it →
  ∃ it', heap (run (pre ++ post) (init t clk0)).2 !! l = Some it' ∧
         inode it' = inode it.
Proof.
  intros Hl. rewrite run_app.
  destruct (reachable_consistent t clk0 pre) as [Hs Hc].
  destruct (run_step post _ _ Hs Hc) as (_ & Hg & _). by apply Hg.
Qed.

(** C6. In every state of the object, no two paths of the store hold
    nodes with the same id, and a node of an earlier state of the run,
    deleted since or not, that has the id of a node of the store is that
    very node.  A successful [create] stores under the joined path a node
    with the requested name and kind whose id is above the id of every
    node that any earlier state of the run held. *)
Theorem ids_are_fresh_and_unique t clk0 cmds :
  let s := (run cmds (init t clk0)).2 in
  (∀ p1 p2 it1 it2,
     node_at s p1 = Some it1 → node_at s p2 = Some it2 →
     inode it1 = inode it2 → p1 = p2) ∧
  (∀ pre post p1 p2 l1 l2 it1 it2,
     cmds = pre ++ post →
     filesystem (run pre (init t clk0)).2 !! p1 = Some l1 →
     heap (run pre (init t clk0)).2 !! l1 = Some it1 →
     filesystem s !! p2 = Some l2 → heap s !! l2 = Some it2 →
     inode it1 = inode it2 → l1 = l2) ∧
  (∀ clk nm k msg s',
     create clk nm k s = (Return (true, msg), s') →
     ∃ item,
       node_at s' (child_path s' nm) = Some item ∧
       name item = nm ∧ item_type item = k ∧
       ∀ pre post p it0,
         cmds = pre ++ post →
         node_at (run pre (init t clk0)).2 p = Some it0 →
         inode it0 < inode item).
Proof.
  intros s. destruct (reachable_consistent t clk0 cmds) as [Hs _]. fold s in Hs.
  destruct Hs as (Hrefs & Hinj & Hb & Hd & _).
  split; [|split].
  - intros p1 p2 it1 it2 (l1 & Hp1 & Hl1)%node_at_Some (l2 & Hp2 & Hl2)%node_at_Some Heq.
    assert (l1 = l2) as -> by (by eapply Hd). by eapply Hinj.
  - intros pre post p1 p2 l1 l2 it1 it2 -> Hp1 Hl1 Hp2 Hl2 Heq.
    destruct (run_keeps_objects t clk0 pre post l1 it1 Hl1) as (it1' & Hl1' & E).
    eapply Hd; [exact Hl1'|exact Hl2|congruence].
  - intros clk nm k msg s' Hcreate.
    destruct (create_ok _ _ _ _ _ _ Hcreate) as (Hf & Hcp & Hn & item & Hl & Hname & Hkind & Hid).
    exists item. split; [|split; [done|split; [done|]]].
    + apply node_at_Some. exists (length (heap s)). split; [|done].
      rewrite (child_path_frame s s') by done. rewrite Hf. apply lookup_insert_eq.
    + intros pre post p it0 -> (l0 & Hp0 & Hl0)%node_at_Some.
      destruct (run_keeps_objects t clk0 pre post l0 it0 Hl0) as (it0' & Hl0' & E).
      apply Hb in Hl0'. fold s. lia.
Qed.

(** [change_directory("..")] away from the root. *)
Lemma change_directory_up clk s :
  current_path s ≠ "/" →
  let parent := or_slash (Str.join_slash (removelast (Str.split_slash (current_path s)))) in
  change_directory clk ".." s =
    (Return (true, "Changed to " +:+ parent),
     _log_operation clk "CHDIR" parent true (set_current_path parent s)).
Proof.
  intros Hne. cbv zeta. unfold change_directory.
  rewrite (bool_decide_eq_true_2 (".." = "..")) by done.
  by rewrite bool_decide_eq_true_2.
Qed.

(** [change_directory] into a directory. *)
Lemma change_directory_down clk nm s l item :
  nm ≠ ".." →
  filesystem s !! child_path s nm = Some l →
  heap s !! l = Some item →
  item_type item = DIRECTORY →
  ∃ s', change_directory clk nm s = (Return (true, "Changed to " +:+ child_path s nm), s') ∧
        current_path s' = child_path s nm.
Proof.
  intros Hnm Hp Hl Hk. unfold change_directory.
  rewrite bool_decide_eq_false_2 by done. rewrite Hp, Hl.
  rewrite bool_decide_eq_false_2 by (rewrite Hk; by intros ?).
  eexists. split; [reflexivity|].
  by destruct (bool_decide _).
Qed.

(** C7, amended. In a state of the object whose cursor is a directory
    other than the root and whose leaf name is not "..",
    [change_directory("..")] followed by [change_directory] with the
    leaf name succeeds twice and puts the cursor back. *)
Theorem change_directory_up_then_back t clk0 cmds clk1 clk2 item :
  let s := (run cmds (init t clk0)).2 in
  current_path s ≠ "/" →
  node_at s (current_path s) = Some item →
  item_type item = DIRECTORY →
  leaf_name (current_path s) ≠ ".." →
  ∃ msg1 s1 msg2 s2,
    change_directory clk1 ".." s = (Return (true, msg1), s1) ∧
    change_directory clk2 (leaf_name (current_path s)) s1 = (Return (true, msg2), s2) ∧
    current_path s2 = current_path s.
Proof.
  intros s Hroot (l & Hp & Hl)%node_at_Some Hk Hleaf.
  destruct (reachable_consistent t clk0 cmds) as [Hs _]. fold s in Hs.
  destruct Hs as (_ & _ & _ & _ & (segs & Hall & Hcp) & _).
  assert (segs ≠ []) as Hne by (intros ->; by rewrite Hcp in Hroot).
  pose proof (change_directory_up clk1 s Hroot) as Hup. cbv zeta in Hup.
  rewrite Hcp, parent_abs_path in Hup by done.
  rewrite Hcp, leaf_abs_path in Hleaf |- * by done.
  set (s1 := _log_operation clk1 "CHDIR" (abs_path (removelast segs)) true
               (set_current_path (abs_path (removelast segs)) s)) in *.
  assert (child_path s1 (List.last segs "") = abs_path segs) as Hback.
  { unfold child_path. subst s1. unfold_setters.
    rewrite abs_path_snoc by (by apply Forall_removelast).
    by rewrite <- app_removelast_last. }
  destruct (change_directory_down clk2 (List.last segs "") s1 l item)
    as (s2 & Hdown & Hcp2); try done.
  { rewrite Hback, <- Hcp. by subst s1. }
  eexists _, s1, _, s2.
  split; [exact Hup|]. split; [exact Hdown|]. by rewrite Hcp2.
Qed.

(** * The engine on particular inputs *)

(** C1 as stated does not hold.  [create] returns "Invalid name!", and
    [change_directory] and [read_file] return their failures, without a
    call of [_log_operation]: the journal and the operation counter stay
    as they were.  [delete], [write_file] and the "Item already exists!"
    branch of [create] do record their failures. *)
Lemma failures_not_journaled :
  (let r := change_directory noon "no-such-dir" fresh in
   r.1 = Return (false, "Directory not found!") ∧ unrecorded fresh r.2) ∧
  (let r := change_directory noon "etc/config.txt" fresh in
   r.1 = Return (false, "Not a directory!") ∧ unrecorded fresh r.2) ∧
  (let r := change_directory noon ".." fresh in
   r.1 = Return (false, "Already at root") ∧ unrecorded fresh r.2) ∧
  (let r := read_file noon "no-such-file" fresh in
   r.1 = Return None ∧ unrecorded fresh r.2) ∧
  (let r := read_file noon "home" fresh in
   r.1 = Return None ∧ unrecorded fresh r.2) ∧
  (let r := create noon "" FILE fresh in
   r.1 = Return (false, "Invalid name!") ∧ unrecorded fresh r.2) ∧
  (let r := create noon "a/b" FILE fresh in
   r.1 = Return (false, "Invalid name!") ∧ unrecorded fresh r.2) ∧
  (let r := create noon "home" DIRECTORY fresh in
   r.1 = Return (false, "Item already exists!") ∧
   recorded_once (mkOperation "12:00:00.000" "CREATE" "/home" "ext4" false) fresh r.2) ∧
  (let r := delete noon "no-such-file" fresh in
   r.1 = Return (false, "Item not found!") ∧
   recorded_once (mkOperation "12:00:00.000" "DELETE" "/no-such-file" "ext4" false) fresh r.2) ∧
  (let r := write_file noon "no-such-file" "x" fresh in
   r.1 = Return (false, "File not found!") ∧
   recorded_once (mkOperation "12:00:00.000" "WRITE" "/no-such-file" "ext4" false) fresh r.2).
Proof.
  unfold unrecorded, recorded_once. cbv zeta.
  do 9 (split; [split; [by_evaluation|split; by_evaluation]|]).
  split; [by_evaluation|split; by_evaluation].
Qed.

(** C2 does not hold of the code.  Once the root has no children,
    [delete("")] at the root resolves the path "/", removes the root from
    the store and then raises [KeyError] on [self.filesystem["/"]]. *)
Theorem root_is_deleted :
  let before := run empty_the_tree fresh in
  let r := delete noon "" before.2 in
  forallb (λ e, succeeded e.2) before.1 = true ∧
  current_path before.2 = "/" ∧
  (children <$> node_at before.2 "/") = Some [] ∧
  r.1 = Raise KeyError ∧
  filesystem r.2 !! "/" = None ∧
  node_at r.2 "/" = None.
Proof.
  cbv zeta. do 5 (split; [by_evaluation|]). by_evaluation.
Qed.

(** C10. [create] rejects an empty name and a name with a slash, and
    the other calls do not: they join whatever name they get to the
    cursor.  From the seeded tree, at the root, a name with slashes
    reaches a node further down ([change_directory] enters it,
    [read_file] returns it, [write_file] writes it, [delete] finds it),
    and the empty name joins to "/" and reaches the root itself. *)
Theorem names_are_not_validated :
  (∀ clk k s nm,
     nm = "" ∨ Str.contains_slash nm = true →
     create clk nm k s = (Return (false, "Invalid name!"), s)) ∧
  (∀ s, current_path s = "/" → child_path s "" = "/") ∧
  (let r := change_directory noon "home/user" fresh in
   r.1 = Return (true, "Changed to /home/user") ∧ current_path r.2 = "/home/user") ∧
  (let r := change_directory noon "" fresh in
   r.1 = Return (true, "Changed to /") ∧ current_path r.2 = "/") ∧
  (let r := read_file noon "home/user/readme.txt" fresh in
   r.1 = Return (Some 5%nat) ∧
   (name <$> node_at fresh "/home/user/readme.txt") = Some "readme.txt" ∧
   filesystem fresh !! "/home/user/readme.txt" = Some 5%nat) ∧
  (let r := write_file noon "etc/config.txt" "x" fresh in
   r.1 = Return (true, "File saved: etc/config.txt") ∧
   (content <$> node_at r.2 "/etc/config.txt") = Some "x") ∧
  (let r := write_file noon "" "x" fresh in
   r.1 = Return (false, "Not a file!")) ∧
  (let r := delete noon "home/user" fresh in
   r.1 = Return (false, "Cannot delete non-empty directory!")) ∧
  (let r := delete noon "home/user/documents" fresh in
   r.1 = Raise ValueError ∧
   filesystem fresh !! "/home/user/documents" = Some 3%nat ∧
   filesystem r.2 !! "/home/user/documents" = None) ∧
  (let r := delete noon "" fresh in
   r.1 = Return (false, "Cannot delete non-empty directory!")).
Proof.
  cbv zeta. split; [|split].
  - intros clk k s nm Hnm. unfold create.
    destruct Hnm as [Hnm|Hnm]; [by rewrite Hnm|]. by rewrite Hnm, orb_true_r.
  - intros s Hs. unfold child_path. rewrite Hs. reflexivity.
  - split; [split; by_evaluation|].
    split; [split; by_evaluation|].
    split; [split; [by_evaluation|split; by_evaluation]|].
    split; [split; by_evaluation|].
    split; [by_evaluation|].
    split; [by_evaluation|].
    split; [split; [by_evaluation|split; by_evaluation]|].
    by_evaluation.
Qed.

(** C7 as stated does not hold: a directory may be named "..".  With
    the cursor on [/home/..], [change_directory("..")] goes to [/home]
    and [change_directory] with the leaf name, which is ".." again, goes
    on to the root. *)
Lemma dotdot_leaf_is_not_restored :
  let s := (run into_dotdot fresh).2 in
  let r1 := change_directory noon ".." s in
  let r2 := change_directory noon (leaf_name (current_path s)) r1.2 in
  current_path s = "/home/.." ∧
  (item_type <$> node_at s (current_path s)) = Some DIRECTORY ∧
  leaf_name (current_path s) = ".." ∧
  r1.1 = Return (true, "Changed to /home") ∧
  r2.1 = Return (true, "Changed to /") ∧
  current_path r2.2 ≠ current_path s.
Proof.
  cbv zeta. do 5 (split; [by_evaluation|]).
  vm_compute. discriminate.
Qed.

(** ** The theorems at work on the seeded tree *)

Lemma calls_are_journaled_witness :
  journaled fresh (exec noon (Delete "no-such-file") fresh).2 ∧
  journaled fresh (exec noon (ReadFile "etc/config.txt") fresh).2 ∧
  unrecorded fresh (exec noon (Create "a/b" FILE) fresh).2.
Proof.
  split; [|split].
  - apply (proj2 (calls_are_journaled noon (Delete "no-such-file") fresh)
             "Item not found!").
    vm_compute. reflexivity.
  - apply (proj1 (calls_are_journaled noon (ReadFile "etc/config.txt") fresh)).
    vm_compute. exact I.
  - apply (proj2 (calls_are_journaled noon (Create "a/b" FILE) fresh)
             "Invalid name!"); reflexivity.
Defined.

Lemma read_file_miss_hit_miss_witness :
  let s := (run with_a_txt fresh).2 in
  let r1 := read_file noon "a.txt" s in
  let r2 := read_file noon "a.txt" r1.2 in
  let r3 := clear_cache noon r2.2 in
  let r4 := read_file noon "a.txt" r3.2 in
  (r1.1 = Return (Some 11%nat) ∧
   cache_misses (stats r1.2) = cache_misses (stats s) + 1 ∧
   cache_hits (stats r1.2) = cache_hits (stats s)) ∧
  (r2.1 = Return (Some 11%nat) ∧
   cache_hits (stats r2.2) = cache_hits (stats r1.2) + 1 ∧
   cache_misses (stats r2.2) = cache_misses (stats r1.2)) ∧
  (r4.1 = Return (Some 11%nat) ∧
   cache_misses (stats r4.2) = cache_misses (stats r3.2) + 1 ∧
   cache_hits (stats r4.2) = cache_hits (stats r3.2)).
Proof.
  apply (read_file_miss_hit_miss EXT4 noon with_a_txt noon noon noon noon
           "a.txt" 11%nat a_txt).
  - vm_compute. reflexivity.
  - vm_compute. reflexivity.
  - reflexivity.
  - vm_compute. apply not_elem_of_nil.
Defined.

Lemma write_then_read_roundtrip_witness :
  ∃ msg s1 s2 item',
    write_file noon "a.txt" "hello" (run with_a_txt fresh).2 = (Return (true, msg), s1) ∧
    read_file noon "a.txt" s1 = (Return (Some 11%nat), s2) ∧
    heap s2 !! 11%nat = Some item' ∧
    content item' = "hello" ∧
    size item' = Str.len "hello".
Proof.
  apply (write_then_read_roundtrip noon noon "a.txt" "hello" (run with_a_txt fresh).2
           11%nat a_txt).
  - vm_compute. reflexivity.
  - vm_compute. reflexivity.
  - reflexivity.
Defined.

Lemma change_directory_failure_frame_witness :
  Return (false, "Directory not found!") = Return (false, "Directory not found!") ∧
  current_path fresh = current_path fresh ∧
  filesystem fresh = filesystem fresh ∧
  heap fresh = heap fresh ∧
  dentry_cache fresh = dentry_cache fresh ∧
  inode_cache fresh = inode_cache fresh.
Proof.
  destruct (change_directory_failure_frame noon "no-such-dir" fresh
              (Return (false, "Directory not found!")) fresh)
    as (Hnotfound & _ & _ & Hframe).
  - vm_compute. reflexivity.
  - split.
    + apply Hnotfound.
      * discriminate.
      * vm_compute. reflexivity.
    + apply Hframe. discriminate.
Defined.

Lemma delete_nonempty_directory_refused_witness :
  ∃ s',
    delete noon "home" fresh = (Return (false, "Cannot delete non-empty directory!"), s') ∧
    filesystem s' = filesystem fresh ∧
    heap s' = heap fresh ∧
    current_path s' = current_path fresh ∧
    dentry_cache s' = dentry_cache fresh ∧
    inode_cache s' = inode_cache fresh.
Proof.
  apply (delete_nonempty_directory_refused noon "home" fresh 1%nat home_dir).
  - vm_compute. reflexivity.
  - vm_compute. reflexivity.
  - reflexivity.
  - discriminate.
Defined.

Lemma caches_never_influence_results_witness :
  let cmds := at_noon [ChangeDirectory "home"; ChangeDirectory "user";
                       ReadFile "readme.txt"; ReadFile "readme.txt"] in
  (run cmds fresh).1 = (run cmds fresh_warm).1 ∧
  cache_equiv (run cmds fresh).2 (run cmds fresh_warm).2.
Proof.
  apply (caches_never_influence_results _ fresh fresh_warm).
  unfold cache_equiv, fresh_warm.
  cbn [set_inode_cache set_dentry_cache fs_type filesystem heap current_path
       inode_counter stats operation_log].
  repeat split; reflexivity.
Defined.

Lemma ids_are_fresh_and_unique_witness :
  let cmds := at_noon [ChangeDirectory "etc"; Delete "config.txt"] in
  let s := (run cmds fresh).2 in
  let r := create noon "new.txt" FILE s in
  ∃ item,
    node_at r.2 (child_path r.2 "new.txt") = Some item ∧
    name item = "new.txt" ∧ item_type item = FILE ∧
    ∀ pre post p it0,
      cmds = pre ++ post →
      node_at (run pre fresh).2 p = Some it0 →
      inode it0 < inode item.
Proof.
  cbv zeta.
  apply (proj2 (proj2 (ids_are_fresh_and_unique EXT4 noon
                         (at_noon [ChangeDirectory "etc"; Delete "config.txt"])))
           noon "new.txt" FILE "Created file: new.txt").
  vm_compute. reflexivity.
Defined.

Lemma change_directory_up_then_back_witness :
  let s := (run (at_noon [ChangeDirectory "home"]) fresh).2 in
  ∃ msg1 s1 msg2 s2,
    change_directory noon ".." s = (Return (true, msg1), s1) ∧
    change_directory noon (leaf_name (current_path s)) s1 = (Return (true, msg2), s2) ∧
    current_path s2 = current_path s.
Proof.
  apply (change_directory_up_then_back EXT4 noon (at_noon [ChangeDirectory "home"])
           noon noon home_dir).
  - vm_compute. discriminate.
  - vm_compute. reflexivity.
  - reflexivity.
  - vm_compute. discriminate.
Defined.

(** * More on the journal *)

Section journal_growth.

Context (clk : Clock).

Ltac journal_cases :=
  repeat case_match; cbn [fst snd];
  first [ left; split; reflexivity
        | right; apply log_journaled; unfold_setters; reflexivity ].

(** A call appends one record and counts one operation, or none. *)
Lemma exec_journal c s :
  unrecorded s (exec clk c s).2 ∨ journaled s (exec clk c s).2.
Proof.
  destruct c as [nm k|nm|nm|nm|nm cnt| |]; cbn [exec]; rewrite lift_snd.
  - unfold create. unfold_setters. journal_cases.
  - unfold delete. unfold_setters. journal_cases.
  - unfold change_directory. unfold_setters. journal_cases.
  - unfold read_file. unfold_setters. journal_cases.
  - unfold write_file. unfold_setters. journal_cases.
  - unfold get_current_items. unfold_setters. journal_cases.
  - unfold clear_cache. unfold_setters. journal_cases.
Qed.

End journal_growth.

Lemma run_journal cmds s :
  ∃ recs,
    operation_log (run cmds s).2 = operation_log s ++ recs ∧
    operations (stats (run cmds s).2) = operations (stats s) + Z.of_nat (length recs) ∧
    (length recs ≤ length cmds)%nat.
Proof.
  revert s. induction cmds as [|[clk c] rest IH]; intros s.
  { exists []. cbn [run snd length]. rewrite app_nil_r. split; [done|]. split; lia. }
  cbn [run fst snd]. destruct (IH (exec clk c s).2) as (recs & Hl & Ho & Hn).
  destruct (exec_journal clk c s) as [[Hl1 Ho1]|[[rec Hl1] Ho1]].
  - exists recs. rewrite Hl, Ho, Hl1, Ho1. split; [done|]. split; [done|].
    cbn [length]. lia.
  - exists (rec :: recs). rewrite Hl, Ho, Hl1, Ho1. split; [by rewrite <- app_assoc|].
    split; cbn [length]; lia.
Qed.

(** X1. In every state of the object the operation counter is the
    number of records of the journal; a run leaves the records it found
    in place, in order, and adds at most one record per call. *)
Theorem journal_is_counted_and_append_only t clk0 cmds :
  let s := (run cmds (init t clk0)).2 in
  operations (stats s) = Z.of_nat (length (operation_log s)) ∧
  (length (operation_log s) ≤ length cmds)%nat ∧
  ∀ pre post,
    cmds = pre ++ post →
    operation_log (run pre (init t clk0)).2 `prefix_of` operation_log s.
Proof.
  cbv zeta. split; [|split].
  - destruct (run_journal cmds (init t clk0)) as (recs & Hl & Ho & _).
    rewrite Hl, Ho, (proj2 (init_statistics t clk0)), (proj1 (init_statistics t clk0)).
    cbn [operations app]. lia.
  - destruct (run_journal cmds (init t clk0)) as (recs & Hl & _ & Hn).
    rewrite Hl, (proj2 (init_statistics t clk0)). by cbn [app].
  - intros pre post ->. rewrite run_app.
    destruct (run_journal post (run pre (init t clk0)).2) as (recs & Hl & _).
    rewrite Hl. by apply prefix_app_r.
Qed.

(** * The ids, one after the other *)

Section allocation.

Context (clk : Clock).

Lemma exec_heap_grows c s :
  consistent s → heap_grows (heap s) (heap (exec clk c s).2).
Proof.
  intros Hs. destruct c as [nm k|nm|nm|nm|nm cnt| |]; cbn [exec]; rewrite lift_snd.
  - by destruct (create_step clk nm k s Hs) as (_ & ? & _).
  - by destruct (delete_step clk nm s Hs) as (_ & ? & _).
  - by destruct (change_directory_step clk nm s Hs) as (_ & ? & _).
  - destruct (read_file_frame clk nm s) as (_ & -> & _). apply heap_grows_refl.
  - by destruct (write_file_step clk nm cnt s Hs) as (_ & ? & _).
  - destruct (get_current_items_step clk s) as (_ & -> & _). apply heap_grows_refl.
  - cbn [clear_cache snd]. unfold_setters. apply heap_grows_refl.
Qed.

(** A call constructs no object, or one: with the next id, put at the
    end of the heap. *)
Lemma exec_allocates c s :
  let s' := (exec clk c s).2 in
  (length (heap s') = length (heap s) ∧ inode_counter s' = inode_counter s) ∨
  (length (heap s') = S (length (heap s)) ∧
   inode_counter s' = inode_counter s + 1 ∧
   ∃ it, heap s' !! length (heap s) = Some it ∧ inode it = inode_counter s + 1).
Proof.
  cbv zeta.
  destruct c as [nm k|nm|nm|nm|nm cnt| |]; cbn [exec]; rewrite lift_snd.
  - unfold create.
    destruct (bool_decide (nm = "") || Str.contains_slash nm); [by left|].
    destruct (filesystem s !! child_path s nm); [by left|]. unfold_setters.
    set (item := mkFSItem nm k _ _ _ _ _).
    assert ((heap s ++ [item]) !! length (heap s) = Some item) as Hnew.
    { by rewrite lookup_app_r, Nat.sub_diag. }
    destruct (_ !! current_path s) as [lp|].
    2:{ right. cbn [fst snd]. unfold_setters. rewrite length_alloc. eauto. }
    destruct (_ !! lp) as [parent|] eqn:Hparent.
    2:{ right. cbn [fst snd]. unfold_setters. rewrite length_alloc. eauto. }
    right. cbn [fst snd]. unfold_setters. rewrite length_insert, length_alloc.
    split; [done|]. split; [done|].
    destruct (decide (lp = length (heap s))) as [->|Hne].
    + rewrite list_lookup_insert_eq by (rewrite length_alloc; lia).
      rewrite Hnew in Hparent. injection Hparent as <-. eauto.
    + rewrite list_lookup_insert_ne by done. eauto.
  - left. unfold delete. unfold_setters.
    repeat case_match; cbn [fst snd]; unfold_setters; rewrite ?length_insert; done.
  - left. unfold change_directory.
    repeat case_match; cbn [fst snd]; unfold_setters; done.
  - left. by destruct (read_file_frame clk nm s) as (_ & -> & _ & ->).
  - left. unfold write_file.
    repeat case_match; cbn [fst snd]; unfold_setters; rewrite ?length_insert; done.
  - left. by destruct (get_current_items_step clk s) as (_ & -> & _ & -> & _).
  - left. by cbn [clear_cache snd].
Qed.

Lemma exec_ids_consecutive c s :
  consistent s →
  ids_consecutive (heap s) (inode_counter s) →
  ids_consecutive (heap (exec clk c s).2) (inode_counter (exec clk c s).2).
Proof.
  intros Hs [Hn Hid].
  pose proof (exec_heap_grows c s Hs) as Hg.
  assert (∀ l it, (l < length (heap s))%nat →
            heap (exec clk c s).2 !! l = Some it → inode it = Z.of_nat l + 1) as Hold.
  { intros l it Hlt Hl. destruct (lookup_lt_is_Some_2 _ _ Hlt) as [it0 Hl0].
    destruct (Hg _ _ Hl0) as (it' & Hl' & E). rewrite Hl in Hl'.
    injection Hl' as <-. rewrite E. by apply Hid. }
  destruct (exec_allocates c s) as [[Hlen Hc]|(Hlen & Hc & it & Hnew & Hi)].
  - split; [by rewrite Hc, Hlen|]. intros l it Hl. apply Hold; [|done].
    rewrite <- Hlen. by eapply lookup_lt_Some.
  - split; [rewrite Hc, Hlen; lia|]. intros l it' Hl.
    destruct (decide (l < length (heap s))%nat) as [Hlt|Hge]; [by apply Hold|].
    assert (l = length (heap s)) as ->.
    { apply lookup_lt_Some in Hl. lia. }
    rewrite Hnew in Hl. injection Hl as <-. lia.
Qed.

End allocation.

Lemma init_ids_consecutive t clk0 :
  ids_consecutive (heap (init t clk0)) (inode_counter (init t clk0)).
Proof.
  assert (length (heap (init t clk0)) = 11%nat) as Hlen.
  { rewrite <- (length_fmap inode), init_ids. reflexivity. }
  split; [by rewrite init_counter, Hlen|].
  intros l it Hl.
  assert ((inode <$> heap (init t clk0)) !! l = Some (inode it)) as Hi.
  { by rewrite list_lookup_fmap, Hl. }
  rewrite init_ids in Hi.
  do 11 (destruct l as [|l]; [injection Hi as <-; reflexivity|]). done.
Qed.

Lemma run_ids_consecutive cmds s :
  consistent s →
  ids_consecutive (heap s) (inode_counter s) →
  ids_consecutive (heap (run cmds s).2) (inode_counter (run cmds s).2).
Proof.
  revert s. induction cmds as [|[clk c] rest IH]; intros s Hs Hid; [done|].
  cbn [run fst snd]. apply IH; [by apply exec_consistent|].
  by apply exec_ids_consecutive.
Qed.

(** X2. In every state of the object the counter [inode_counter] is the
    number of nodes constructed so far (the seeded ones and the deleted
    ones count), the node constructed as number [n] has id [n], and so
    every node of the store has an id from 1 to [inode_counter]. *)
Theorem ids_are_consecutive t clk0 cmds :
  let s := (run cmds (init t clk0)).2 in
  ids_consecutive (heap s) (inode_counter s) ∧
  ∀ p it, node_at s p = Some it → 1 ≤ inode it ≤ inode_counter s.
Proof.
  cbv zeta.
  assert (ids_consecutive (heap (run cmds (init t clk0)).2)
            (inode_counter (run cmds (init t clk0)).2)) as Hid.
  { apply run_ids_consecutive; [apply init_consistent|apply init_ids_consecutive]. }
  split; [done|]. intros p it (l & _ & Hl)%node_at_Some.
  destruct Hid as [Hn Hid]. rewrite (Hid _ _ Hl), Hn.
  apply lookup_lt_Some in Hl. lia.
Qed.

(** * The shape of the tree *)

Section more_paths.

Lemma child_path_join s nm : child_path s nm = join_path (current_path s) nm.
Proof. reflexivity. Qed.

Lemma node_at_node_in s p : node_at s p = node_in (filesystem s) (heap s) p.
Proof. reflexivity. Qed.

Lemma node_in_Some (m : gmap string loc) (h : list FSItem) p it :
  node_in m h p = Some it ↔ ∃ l, m !! p = Some l ∧ h !! l = Some it.
Proof. unfold node_in. apply bind_Some. Qed.

Lemma length_app_string (a b : string) :
  String.length (a +:+ b) = (String.length a + String.length b)%nat.
Proof.
  induction a as [|c a IH]; [reflexivity|].
  rewrite app_cons. cbn [String.length]. by rewrite IH.
Qed.

Lemma join_path_ne p nm : p ≠ "/" → join_path p nm ≠ p.
Proof.
  intros Hp. unfold join_path. destruct (decide (p ≠ "/")) as [_|Hn]; [|done].
  intros E. apply (f_equal String.length) in E.
  rewrite !length_app_string in E. cbn [String.length] in E. lia.
Qed.

Lemma removelast_snoc {A} (l : list A) x : removelast (l ++ [x]) = l.
Proof. induction l as [|y [|z l] IH]; [done|done|]. cbn. cbn in IH. by rewrite IH. Qed.

Lemma last_snoc_default {A} (l : list A) x d : List.last (l ++ [x]) d = x.
Proof. induction l as [|y [|z l] IH]; [done|done|]. cbn. cbn in IH. by rewrite IH. Qed.

Lemma parent_path_snoc ps x :
  Forall valid_name ps → valid_name x → parent_path (abs_path (ps ++ [x])) = abs_path ps.
Proof.
  intros Hps Hx. unfold parent_path.
  rewrite parent_abs_path, removelast_snoc; [done| |].
  - apply Forall_app. split; [done|]. by constructor.
  - by destruct ps.
Qed.

Lemma leaf_name_snoc ps x :
  Forall valid_name ps → valid_name x → leaf_name (abs_path (ps ++ [x])) = x.
Proof.
  intros Hps Hx. rewrite leaf_abs_path, last_snoc_default; [done| |].
  - apply Forall_app. split; [done|]. by constructor.
  - by destruct ps.
Qed.

Lemma join_path_abs ps x :
  Forall valid_name ps → join_path (abs_path ps) x = abs_path (ps ++ [x]).
Proof. intros Hps. unfold join_path. by apply abs_path_snoc. Qed.

(** A path other than "/" is a parent and a leaf. *)
Lemma valid_path_split K :
  valid_path K → K ≠ "/" →
  ∃ ps x, Forall valid_name ps ∧ valid_name x ∧ K = abs_path (ps ++ [x]).
Proof.
  intros (ks & Hks & ->) Hne.
  destruct (exists_last (l := ks)) as (ps & x & ->); [by intros ->|].
  apply Forall_app in Hks as [Hps Hx]. exists ps, x.
  split; [done|]. split; [by inversion Hx|done].
Qed.

(** The path is the join of its parent and its leaf name. *)
Lemma path_rebuild K :
  valid_path K → K ≠ "/" →
  K = join_path (parent_path K) (leaf_name K) ∧
  valid_path (parent_path K) ∧ valid_name (leaf_name K).
Proof.
  intros HK Hne. destruct (valid_path_split K HK Hne) as (ps & x & Hps & Hx & ->).
  rewrite parent_path_snoc, leaf_name_snoc by done.
  split; [by rewrite join_path_abs|]. split; [by exists ps|done].
Qed.

(** The parent of a joined path is the path joined to, and its leaf is
    the name joined. *)
Lemma parent_of_join p nm :
  valid_path p → valid_name nm →
  parent_path (join_path p nm) = p ∧
  leaf_name (join_path p nm) = nm ∧
  join_path p nm ≠ "/" ∧
  join_path p nm ≠ p ∧
  valid_path (join_path p nm).
Proof.
  intros (ps & Hps & ->) Hnm. rewrite join_path_abs by done.
  assert (Forall valid_name (ps ++ [nm])) as Hall.
  { apply Forall_app. split; [done|]. by constructor. }
  assert (abs_path (ps ++ [nm]) ≠ "/") as Hroot.
  { apply abs_path_ne_root; [done|]. by destruct ps. }
  rewrite parent_path_snoc, leaf_name_snoc by done.
  do 3 (split; [done|]). split; [|by exists (ps ++ [nm])].
  destruct ps as [|y ps]; [done|].
  rewrite <- join_path_abs by done. apply join_path_ne.
  by apply abs_path_ne_root.
Qed.

Lemma list_remove_spec x l r :
  Str.list_remove x l = Some r →
  x ∈ l ∧ (∀ y, y ∈ r → y ∈ l) ∧ (∀ y, y ∈ l → y ∈ r ∨ y = x) ∧ l ≡ₚ x :: r.
Proof.
  revert r. induction l as [|y l IH]; intros r; [done|].
  cbn [Str.list_remove]. destruct (decide (y = x)) as [->|Hne].
  - intros [= ->]. split; [by left|]. split; [by right|].
    split; [|done]. intros z [->|Hz]%elem_of_cons; auto.
  - destruct (Str.list_remove x l) as [r'|]; [|done]. intros [= <-].
    destruct (IH r' eq_refl) as (Hin & Hsub & Hsup & Hperm).
    split; [by right|]. split; [|split].
    + intros z [->|Hz]%elem_of_cons; [by left|]. right. by apply Hsub.
    + intros z [->|Hz]%elem_of_cons; [left; by left|].
      destruct (Hsup z Hz) as [?|?]; [left; by right|by right].
    + rewrite Hperm. apply Permutation_swap.
Qed.

Lemma list_remove_None x l : Str.list_remove x l = None → x ∉ l.
Proof.
  induction l as [|y l IH]; [intros _; apply not_elem_of_nil|].
  cbn [Str.list_remove]. destruct (decide (y = x)) as [->|Hne]; [done|].
  destruct (Str.list_remove x l); [done|]. intros _.
  apply not_elem_of_cons. split; [done|]. by apply IH.
Qed.

End more_paths.

Section tree_changes.

Context (m : gmap string loc) (h : list FSItem) (cp : string).
Context (Hrefs : refs_in m (length h)) (Hinj : refs_inj m) (Hkeys : keys_valid m).

Lemma tree_chdir cp' :
  tree_ok m h cp →
  (cp' ≠ "/" → ∃ d, node_in m h cp' = Some d ∧ item_type d = DIRECTORY) →
  tree_ok m h cp'.
Proof. intros (H1 & H2 & H3 & H4 & H5 & _) H6. by repeat split. Qed.

(** The heap after a call that replaced objects by objects of the same
    name, kind and children. *)
Lemma tree_keep h2 :
  tree_ok m h cp →
  (∀ l, (λ it, (name it, item_type it, children it)) <$> h2 !! l
        = (λ it, (name it, item_type it, children it)) <$> h !! l) →
  tree_ok m h2 cp.
Proof.
  intros (H1 & H2 & H3 & H4 & H5 & H6) Hsame.
  assert (∀ p it', node_in m h2 p = Some it' →
            ∃ it, node_in m h p = Some it ∧ name it' = name it ∧
                  item_type it' = item_type it ∧ children it' = children it) as Hold.
  { intros p it' (l & Hp & Hl)%node_in_Some. specialize (Hsame l).
    rewrite Hl in Hsame. destruct (h !! l) as [it|] eqn:Hl0; [|done].
    injection Hsame as ? ? ?. exists it. split; [|done].
    apply node_in_Some. eauto. }
  assert (∀ p it, node_in m h p = Some it →
            ∃ it', node_in m h2 p = Some it' ∧ item_type it' = item_type it) as Hnew.
  { intros p it (l & Hp & Hl)%node_in_Some. specialize (Hsame l).
    rewrite Hl in Hsame. destruct (h2 !! l) as [it'|] eqn:Hl2; [|done].
    injection Hsame as ? ? ?. exists it'. split; [|done].
    apply node_in_Some. eauto. }
  split; [|split; [|split; [|split; [|split]]]].
  - intros it' (it & Hit & _ & -> & _)%Hold. by eapply H1.
  - intros K it' (it & Hit & -> & _)%Hold HK. by eapply H2.
  - intros l it' Hl. specialize (Hsame l). rewrite Hl in Hsame.
    destruct (h !! l) as [it|] eqn:Hl0; [|done]. injection Hsame as _ _ ->.
    by eapply H3.
  - intros K l HK Hne Hp. destruct (H4 K l HK Hne Hp) as (d & Hd & Hk).
    destruct (Hnew _ _ Hd) as (d' & Hd' & E). exists d'. split; [done|]. congruence.
  - intros K l d' HK Hne (d & Hd & _ & _ & ->)%Hold. by eapply H5.
  - intros Hne. destruct (H6 Hne) as (d & Hd & Hk).
    destruct (Hnew _ _ Hd) as (d' & Hd' & E). exists d'. split; [done|]. congruence.
Qed.

(** The store after [create] has put a new node under the joined path. *)
Lemma tree_create nm item h2 :
  valid_path cp → valid_name nm →
  tree_ok m h cp →
  m !! join_path cp nm = None →
  name item = nm → children item = [] →
  length h2 = S (length h) →
  h2 !! length h = Some item →
  (∀ l it, h !! l = Some it →
     ∃ it', h2 !! l = Some it' ∧ name it' = name it ∧ item_type it' = item_type it ∧
            (∀ x, x ∈ children it → x ∈ children it') ∧
            Forall valid_name (children it')) →
  (∀ lp d', m !! cp = Some lp → h2 !! lp = Some d' → nm ∈ children d') →
  tree_ok (<[join_path cp nm := length h]> m) h2 cp.
Proof.
  intros Hcp Hnm (H1 & H2 & H3 & H4 & H5 & H6) Hfresh Hname Hchildren Hlen HN HU HL.
  destruct (parent_of_join cp nm Hcp Hnm) as (Hpar & Hleaf & Hroot & Hnecp & _).
  set (N := join_path cp nm) in *.
  assert (∀ p it', p ≠ N → node_in (<[N := length h]> m) h2 p = Some it' →
            ∃ it, node_in m h p = Some it ∧ name it' = name it ∧
                  item_type it' = item_type it ∧
                  ∀ x, x ∈ children it → x ∈ children it') as Hold.
  { intros p it' Hp (l & Hl & Hit')%node_in_Some.
    rewrite lookup_insert_ne in Hl by done.
    destruct (lookup_lt_is_Some_2 h l) as [it Hit]; [by eapply Hrefs|].
    destruct (HU _ _ Hit) as (it2 & Hit2 & ? & ? & ? & _).
    rewrite Hit' in Hit2. injection Hit2 as <-.
    exists it. split; [|done]. apply node_in_Some. eauto. }
  assert (∀ p it, node_in m h p = Some it →
            ∃ it', node_in (<[N := length h]> m) h2 p = Some it' ∧
                   item_type it' = item_type it) as Hnew.
  { intros p it (l & Hl & Hit)%node_in_Some.
    destruct (HU _ _ Hit) as (it' & Hit' & _ & ? & _).
    exists it'. split; [|done]. apply node_in_Some. exists l. split; [|done].
    rewrite lookup_insert_ne; [done|]. intros <-. by rewrite Hfresh in Hl. }
  assert (∀ K l, m !! K = Some l → K ≠ "/" → parent_path K ≠ N) as Hleafless.
  { intros K l HK Hne E. destruct (H4 K l HK Hne) as (d & Hd & _); [by rewrite E|].
    apply node_in_Some in Hd as (l' & Hl' & _). rewrite E in Hl'.
    by rewrite Hfresh in Hl'. }
  split; [|split; [|split; [|split; [|split]]]].
  - intros it' Hit'. destruct (Hold "/" it') as (it & Hit & _ & -> & _); [done..|].
    by eapply H1.
  - intros K it' Hit' HK. destruct (decide (K = N)) as [->|HKN].
    + apply node_in_Some in Hit' as (l & Hl & Hit').
      rewrite lookup_insert_eq in Hl. injection Hl as <-.
      rewrite HN in Hit'. injection Hit' as <-. by rewrite Hleaf.
    + destruct (Hold K it' HKN Hit') as (it & Hit & -> & _). by eapply H2.
  - intros l it' Hit'.
    destruct (decide (l < length h)%nat) as [Hlt|Hge].
    + destruct (lookup_lt_is_Some_2 h l Hlt) as [it Hit].
      destruct (HU _ _ Hit) as (it2 & Hit2 & _ & _ & _ & Hvalid).
      rewrite Hit' in Hit2. by injection Hit2 as <-.
    + assert (l = length h) as ->.
      { apply lookup_lt_Some in Hit'. lia. }
      rewrite HN in Hit'. injection Hit' as <-. rewrite Hchildren. constructor.
  - intros K l HK HKroot Hp. destruct (decide (K = N)) as [->|HKN].
    + rewrite Hpar in Hp |- *. destruct (H6 Hp) as (d & Hd & Hk).
      destruct (Hnew _ _ Hd) as (d' & Hd' & E). exists d'. split; [done|]. congruence.
    + rewrite lookup_insert_ne in HK by done.
      destruct (H4 K l HK HKroot Hp) as (d & Hd & Hk).
      destruct (Hnew _ _ Hd) as (d' & Hd' & E). exists d'. split; [done|]. congruence.
  - intros K l d' HK HKroot Hd'. destruct (decide (K = N)) as [->|HKN].
    + rewrite Hpar in Hd'. rewrite Hleaf.
      apply node_in_Some in Hd' as (lp & Hlp & Hd').
      rewrite lookup_insert_ne in Hlp by done. by eapply HL.
    + rewrite lookup_insert_ne in HK by done.
      destruct (Hold (parent_path K) d') as (d & Hd & _ & _ & Hsub);
        [by eapply Hleafless|done|].
      apply Hsub. by eapply H5.
  - intros Hne. destruct (H6 Hne) as (d & Hd & Hk).
    destruct (Hnew _ _ Hd) as (d' & Hd' & E). exists d'. split; [done|]. congruence.
Qed.

(** The store after [delete] has taken the joined path out of it. *)
Lemma tree_delete nm l item h2 :
  valid_path cp →
  tree_ok m h cp →
  m !! join_path cp nm = Some l →
  h !! l = Some item →
  ¬ (item_type item = DIRECTORY ∧ children item ≠ []) →
  length h2 = length h →
  (∀ l0 it, h !! l0 = Some it →
     ∃ it', h2 !! l0 = Some it' ∧ name it' = name it ∧ item_type it' = item_type it ∧
            Forall valid_name (children it') ∧
            ∀ x, x ∈ children it → x ∈ children it' ∨ (x = nm ∧ m !! cp = Some l0)) →
  tree_ok (base.delete (join_path cp nm) m) h2 cp.
Proof.
  intros Hcp (H1 & H2 & H3 & H4 & H5 & H6) HQ Hitem Hempty Hlen HU.
  set (Q := join_path cp nm) in *.
  assert (node_in m h Q = Some item) as HQnode by (apply node_in_Some; eauto).
  assert (∀ p it', node_in (base.delete Q m) h2 p = Some it' →
            p ≠ Q ∧ ∃ lp it, m !! p = Some lp ∧ h !! lp = Some it ∧ h2 !! lp = Some it' ∧
                   name it' = name it ∧ item_type it' = item_type it) as Hold.
  { intros p it' (lp & [Hp Hlp]%lookup_delete_Some & Hit')%node_in_Some.
    split; [done|].
    destruct (lookup_lt_is_Some_2 h lp) as [it Hit]; [by eapply Hrefs|].
    destruct (HU _ _ Hit) as (it2 & Hit2 & ? & ? & _).
    rewrite Hit' in Hit2. injection Hit2 as <-. eauto 10. }
  assert (∀ p it, p ≠ Q → node_in m h p = Some it →
            ∃ it', node_in (base.delete Q m) h2 p = Some it' ∧
                   item_type it' = item_type it) as Hnew.
  { intros p it Hp (lp & Hlp & Hit)%node_in_Some.
    destruct (HU _ _ Hit) as (it' & Hit' & _ & ? & _).
    exists it'. split; [|done]. apply node_in_Some. exists lp. split; [|done].
    by rewrite lookup_delete_ne. }
  assert (∀ K l', m !! K = Some l' → K ≠ "/" → parent_path K ≠ Q) as Hleafless.
  { intros K l' HK Hne E. apply Hempty. split.
    - destruct (decide (Q = "/")) as [HQroot|HQroot].
      + apply H1. by rewrite <- HQroot.
      + destruct (H4 K l' HK Hne) as (d & Hd & Hk); [by rewrite E|].
        rewrite E, HQnode in Hd. by injection Hd as <-.
    - assert (leaf_name K ∈ children item) as Hin.
      { eapply H5; [exact HK|done|by rewrite E]. }
      intros Hnil. rewrite Hnil in Hin. by apply elem_of_nil in Hin. }
  split; [|split; [|split; [|split; [|split]]]].
  - intros it' (_ & lp & it & Hp & Hit & _ & _ & ->)%Hold.
    apply H1. apply node_in_Some. eauto.
  - intros K it' (_ & lp & it & Hp & Hit & _ & -> & _)%Hold HK.
    eapply H2; [|done]. apply node_in_Some. eauto.
  - intros l0 it' Hit'.
    destruct (lookup_lt_is_Some_2 h l0) as [it Hit].
    { rewrite <- Hlen. by eapply lookup_lt_Some. }
    destruct (HU _ _ Hit) as (it2 & Hit2 & _ & _ & Hvalid & _).
    rewrite Hit' in Hit2. by injection Hit2 as <-.
  - intros K l' [HKQ HK]%lookup_delete_Some HKroot Hp.
    destruct (H4 K l' HK HKroot Hp) as (d & Hd & Hk).
    destruct (Hnew (parent_path K) d) as (d' & Hd' & E); [by eapply Hleafless|done|].
    exists d'. split; [done|]. congruence.
  - intros K l' d' [HKQ HK]%lookup_delete_Some HKroot
      (HPQ & lp & d & Hp & Hd & Hd' & _)%Hold.
    assert (leaf_name K ∈ children d) as Hin.
    { eapply H5; [exact HK|done|]. apply node_in_Some. eauto. }
    destruct (HU _ _ Hd) as (d2 & Hd2 & _ & _ & _ & Hsup).
    rewrite Hd' in Hd2. injection Hd2 as <-.
    destruct (Hsup _ Hin) as [?|[Hnm Hlp]]; [done|]. exfalso. apply HKQ.
    assert (parent_path K = cp) as HP by (by eapply Hinj).
    destruct (path_rebuild K) as (-> & _); [by eapply Hkeys|done|].
    by rewrite HP, Hnm.
  - intros Hne. destruct (H6 Hne) as (d & Hd & Hk).
    destruct (Hnew cp d) as (d' & Hd' & E); [|done|].
    { intros E. symmetry in E. by apply join_path_ne in E. }
    exists d'. split; [done|]. congruence.
Qed.

End tree_changes.

Section sound_steps.

Context (clk : Clock).

Lemma create_tree nm k s :
  sound s →
  let s' := (create clk nm k s).2 in
  tree_ok (filesystem s') (heap s') (current_path s').
Proof.
  intros [(Hrefs & Hinj & Hb & Hd & Hcp & Hk) Ht]. cbv zeta. unfold create.
  destruct (bool_decide (nm = "") || Str.contains_slash nm) eqn:Hname; [done|].
  apply accepted_name in Hname.
  destruct (filesystem s !! child_path s nm) as [l0|] eqn:Hex; [done|].
  unfold_setters. rewrite child_path_join in *.
  destruct (parent_of_join _ nm Hcp Hname) as (_ & _ & _ & Hnecp & _).
  set (item := mkFSItem nm k _ _ _ _ _).
  assert ((heap s ++ [item]) !! length (heap s) = Some item) as Hnew.
  { by rewrite lookup_app_r, Nat.sub_diag. }
  assert (∀ l it, heap s !! l = Some it → Forall valid_name (children it)) as Hvalid.
  { apply Ht. }
  destruct (_ !! current_path s) as [lp|] eqn:Hlp.
  2:{ cbn [fst snd]. unfold_setters.
      rewrite lookup_insert_ne in Hlp by done.
      apply (tree_create _ _ _ Hrefs nm item); try done.
      - apply length_alloc.
      - intros l it Hl. exists it. split; [by apply lookup_app_l_Some|].
        do 3 (split; [done|]). by eapply Hvalid.
      - intros lp d' Hlp'. by rewrite Hlp in Hlp'. }
  rewrite lookup_insert_ne in Hlp by done.
  assert (lp < length (heap s))%nat as Hlt by (by eapply Hrefs).
  destruct (lookup_lt_is_Some_2 _ _ Hlt) as [parent Hparent].
  rewrite (lookup_app_l_Some _ _ _ _ Hparent). cbn [fst snd]. unfold_setters.
  apply (tree_create _ _ _ Hrefs nm item); try done.
  - by rewrite length_insert, length_alloc.
  - rewrite list_lookup_insert_ne by lia. done.
  - intros l it Hl. destruct (decide (l = lp)) as [->|Hne].
    + rewrite Hparent in Hl. injection Hl as <-. eexists. split.
      { apply list_lookup_insert_eq. rewrite length_alloc. lia. }
      do 2 (split; [done|]). split.
      * intros x Hx. apply elem_of_app. by left.
      * apply Forall_app. split; [by eapply Hvalid|]. by constructor.
    + exists it. split.
      { rewrite list_lookup_insert_ne by done. by apply lookup_app_l_Some. }
      do 3 (split; [done|]). by eapply Hvalid.
  - intros lp' d' Hlp'. rewrite Hlp in Hlp'. injection Hlp' as <-.
    rewrite list_lookup_insert_eq by (rewrite length_alloc; lia).
    intros [= <-]. apply elem_of_app. right. by apply list_elem_of_singleton.
Qed.

Lemma delete_tree nm s :
  sound s →
  let s' := (delete clk nm s).2 in
  tree_ok (filesystem s') (heap s') (current_path s').
Proof.
  intros [(Hrefs & Hinj & Hb & Hd & Hcp & Hk) Ht]. cbv zeta. unfold delete.
  destruct (filesystem s !! child_path s nm) as [l|] eqn:Hp; [|done].
  destruct (heap s !! l) as [item|] eqn:Hl; [|done].
  destruct (bool_decide (item_type item = DIRECTORY) && bool_decide (children item ≠ []))
    eqn:Hfull; [done|].
  assert (¬ (item_type item = DIRECTORY ∧ children item ≠ [])) as Hempty.
  { intros [H1 H2]. by rewrite !bool_decide_eq_true_2 in Hfull. }
  assert (∀ l it, heap s !! l = Some it → Forall valid_name (children it)) as Hvalid.
  { apply Ht. }
  rewrite child_path_join in *.
  assert (tree_ok (base.delete (join_path (current_path s) nm) (filesystem s))
            (heap s) (current_path s)) as Hraise.
  { apply (tree_delete _ _ _ Hrefs Hinj Hk nm l item); try done.
    intros l0 it Hit. exists it. split; [done|]. do 2 (split; [done|]).
    split; [by eapply Hvalid|]. intros x Hx. by left. }
  unfold_setters.
  destruct (_ !! current_path s) as [lp|] eqn:Hlp; [|done].
  destruct (heap s !! lp) as [parent|] eqn:Hparent; [|done].
  destruct (Str.list_remove nm (children parent)) as [rest|] eqn:Hrest; [|done].
  destruct (list_remove_spec _ _ _ Hrest) as (_ & Hsub & Hsup & _).
  apply lookup_delete_Some in Hlp as [_ Hlp].
  assert (tree_ok (base.delete (join_path (current_path s) nm) (filesystem s))
            (<[lp := set_children rest parent]> (heap s)) (current_path s)) as Hdone.
  { apply (tree_delete _ _ _ Hrefs Hinj Hk nm l item); try done.
    - apply length_insert.
    - intros l0 it Hit. destruct (decide (l0 = lp)) as [->|Hne].
      + rewrite Hparent in Hit. injection Hit as <-. eexists. split.
        { apply list_lookup_insert_eq. by eapply lookup_lt_Some. }
        do 2 (split; [done|]). split.
        * apply Forall_forall. intros x Hx.
          pose proof (Hvalid _ _ Hparent) as Hall. rewrite Forall_forall in Hall.
          by apply Hall, Hsub.
        * intros x Hx. destruct (Hsup x Hx) as [?|?]; [by left|by right].
      + exists it. split; [by rewrite list_lookup_insert_ne|].
        do 2 (split; [done|]). split; [by eapply Hvalid|]. intros x Hx. by left. }
  cbn [fst snd]. by repeat case_match.
Qed.

Lemma change_directory_tree nm s :
  sound s →
  let s' := (change_directory clk nm s).2 in
  tree_ok (filesystem s') (heap s') (current_path s').
Proof.
  intros [(Hrefs & Hinj & Hb & Hd & Hcp & Hk) Ht]. cbv zeta. unfold change_directory.
  destruct (bool_decide (nm = "..")).
  { destruct (bool_decide (current_path s ≠ "/")) eqn:Hroot; [|done].
    apply bool_decide_eq_true in Hroot. cbn [fst snd]. unfold_setters.
    apply (tree_chdir _ _ _ _ Ht). fold (parent_path (current_path s)).
    intros Hpar. destruct Ht as (_ & _ & _ & H4 & _ & H6).
    destruct (H6 Hroot) as (d & (l & Hl & _)%node_in_Some & _).
    by eapply H4. }
  destruct (filesystem s !! child_path s nm) as [l|] eqn:Hp; [|done].
  destruct (heap s !! l) as [item|] eqn:Hl; [|done].
  destruct (bool_decide (item_type item ≠ DIRECTORY)) eqn:Hk'; [done|].
  apply bool_decide_eq_false in Hk'.
  assert (tree_ok (filesystem s) (heap s) (child_path s nm)) as Hin.
  { apply (tree_chdir _ _ _ _ Ht). intros _. exists item. split.
    - apply node_in_Some. eauto.
    - destruct (item_type item); [by destruct Hk'|done]. }
  by destruct (bool_decide _).
Qed.

Lemma write_file_tree nm c s :
  sound s →
  let s' := (write_file clk nm c s).2 in
  tree_ok (filesystem s') (heap s') (current_path s').
Proof.
  intros [_ Ht]. cbv zeta. unfold write_file.
  destruct (filesystem s !! child_path s nm) as [l|]; [|done].
  destruct (heap s !! l) as [item|] eqn:Hl; [|done].
  destruct (bool_decide (item_type item ≠ FILE)); [done|].
  cbn [fst snd]. unfold_setters. apply (tree_keep _ _ _ _ Ht).
  intros l0. destruct (decide (l0 = l)) as [->|Hne].
  - rewrite list_lookup_insert_eq by (by eapply lookup_lt_Some). by rewrite Hl.
  - by rewrite list_lookup_insert_ne.
Qed.

(** One call keeps the shape of the tree. *)
Lemma exec_sound c s : sound s → sound (exec clk c s).2.
Proof.
  intros Hs. split; [apply exec_consistent, Hs|].
  destruct c as [nm k|nm|nm|nm|nm cnt| |]; cbn [exec]; rewrite lift_snd.
  - by apply create_tree.
  - by apply delete_tree.
  - by apply change_directory_tree.
  - destruct (read_file_frame clk nm s) as (-> & -> & -> & _). apply Hs.
  - by apply write_file_tree.
  - destruct (get_current_items_step clk s) as (-> & -> & -> & _). apply Hs.
  - cbn [clear_cache snd]. unfold_setters. apply Hs.
Qed.

End sound_steps.

Lemma run_sound cmds s : sound s → sound (run cmds s).2.
Proof.
  revert s. induction cmds as [|[clk c] rest IH]; intros s Hs; [done|].
  cbn [run fst snd]. by apply IH, exec_sound.
Qed.

Lemma tree_check_sound s :
  tree_check s = true → tree_ok (filesystem s) (heap s) (current_path s).
Proof.
  unfold tree_check. cbv zeta.
  intros [[Hheap Hstore]%andb_true_iff Hcur]%andb_true_iff.
  pose proof (store_forall _ _ Hstore) as Hentry. cbn [fst snd] in Hentry.
  rewrite forallb_forall in Hheap.
  split; [|split; [|split; [|split; [|split]]]].
  - intros it (l & Hp & Hl)%node_in_Some. specialize (Hentry _ _ Hp).
    rewrite bool_decide_eq_true_2, Hl in Hentry by done.
    by apply bool_decide_eq_true in Hentry.
  - intros K it (l & Hp & Hl)%node_in_Some HK. specialize (Hentry _ _ Hp).
    rewrite bool_decide_eq_false_2, Hl in Hentry by done.
    apply andb_true_iff in Hentry as [Hentry _].
    by apply bool_decide_eq_true in Hentry.
  - intros l it Hl. apply list_elem_of_lookup_2, list_elem_of_In, Hheap in Hl.
    unfold valid_segments in Hl. rewrite forallb_forall in Hl.
    apply Forall_forall. intros x Hx. apply list_elem_of_In, Hl in Hx.
    apply accepted_name. by apply negb_true_iff in Hx.
  - intros K l Hp HK Hpar. specialize (Hentry _ _ Hp).
    rewrite bool_decide_eq_false_2 in Hentry by done.
    apply andb_true_iff in Hentry as [_ Hentry].
    destruct (node_in _ _ (parent_path K)) as [d|].
    + apply andb_true_iff in Hentry as [Hentry _].
      rewrite (bool_decide_eq_false_2 _ Hpar) in Hentry.
      apply bool_decide_eq_true in Hentry. eauto.
    + by apply bool_decide_eq_true in Hentry.
  - intros K l d Hp HK Hd. specialize (Hentry _ _ Hp).
    rewrite bool_decide_eq_false_2, Hd in Hentry by done.
    apply andb_true_iff in Hentry as [_ Hentry].
    apply andb_true_iff in Hentry as [_ Hentry].
    by apply bool_decide_eq_true in Hentry.
  - intros Hne. rewrite (bool_decide_eq_false_2 _ Hne) in Hcur.
    destruct (node_in _ _ (current_path s)) as [d|]; [|done].
    apply bool_decide_eq_true in Hcur. eauto.
Qed.

Lemma init_sound t clk0 : sound (init t clk0).
Proof.
  split; [apply init_consistent|]. apply tree_check_sound. vm_compute. reflexivity.
Qed.

(** Every state of the object is consistent and has the shape of a
    tree. *)
Lemma reachable_sound t clk0 cmds : sound (run cmds (init t clk0)).2.
Proof. apply run_sound, init_sound. Qed.

(** X3. In every state of the object the cursor is an absolute path, and
    it names a directory of the store unless it is "/" (the root, once
    deleted, is not in the store; while it is there it is a directory).
    So [change_directory("..")] never leaves the cursor on a file or on
    a deleted node below the root. *)
Theorem cursor_is_a_directory t clk0 cmds :
  let s := (run cmds (init t clk0)).2 in
  valid_path (current_path s) ∧
  (current_path s ≠ "/" →
     ∃ d, node_at s (current_path s) = Some d ∧ item_type d = DIRECTORY) ∧
  (∀ d, node_at s "/" = Some d → item_type d = DIRECTORY).
Proof.
  cbv zeta. destruct (reachable_sound t clk0 cmds) as [Hc (H1 & _ & _ & _ & _ & H6)].
  split; [apply Hc|]. by split.
Qed.

(** X4. In every state of the object, a node stored under a path other
    than "/" is named by the last segment of that path; the path is the
    join of its parent path and that name; if the parent path is not "/",
    the parent is in the store and is a directory; and whenever the
    parent is in the store, it lists the name among its children. *)
Theorem stored_nodes_hang_on_their_parents t clk0 cmds :
  let s := (run cmds (init t clk0)).2 in
  ∀ K it,
    node_at s K = Some it → K ≠ "/" →
    name it = leaf_name K ∧
    K = join_path (parent_path K) (leaf_name K) ∧
    (parent_path K ≠ "/" →
       ∃ d, node_at s (parent_path K) = Some d ∧ item_type d = DIRECTORY) ∧
    (∀ d, node_at s (parent_path K) = Some d → leaf_name K ∈ children d).
Proof.
  cbv zeta. intros K it Hit HK.
  destruct (reachable_sound t clk0 cmds) as [Hc (_ & H2 & _ & H4 & H5 & _)].
  pose proof Hit as (l & Hl & _)%node_at_Some.
  split; [by eapply H2|]. split.
  - apply path_rebuild; [|done]. destruct Hc as (_ & _ & _ & _ & _ & Hk).
    by eapply Hk.
  - split; [by eapply H4|]. intros d Hd. by eapply H5.
Qed.

Lemma stored_nodes_hang_on_their_parents_witness :
  let s := (run [] (init EXT4 noon)).2 in
  name user_dir = leaf_name "/home/user" ∧
  "/home/user" = join_path (parent_path "/home/user") (leaf_name "/home/user") ∧
  (parent_path "/home/user" ≠ "/" →
     ∃ d, node_at s (parent_path "/home/user") = Some d ∧ item_type d = DIRECTORY) ∧
  (∀ d, node_at s (parent_path "/home/user") = Some d →
     leaf_name "/home/user" ∈ children d).
Proof.
  apply (stored_nodes_hang_on_their_parents EXT4 noon [] "/home/user" user_dir).
  - vm_compute. reflexivity.
  - discriminate.
Defined.

(** * What a returning call does to the store *)

Lemma facet_eq (h h' : list FSItem) l :
  facet <$> h' !! l = facet <$> h !! l →
  name <$> h' !! l = name <$> h !! l ∧
  item_type <$> h' !! l = item_type <$> h !! l ∧
  inode <$> h' !! l = inode <$> h !! l ∧
  children <$> h' !! l = children <$> h !! l.
Proof.
  unfold facet. destruct (h' !! l), (h !! l); cbn; intros [=]; repeat split; congruence.
Qed.

Lemma facet_Some (h h' : list FSItem) l it' :
  facet <$> h' !! l = facet <$> h !! l → h' !! l = Some it' →
  ∃ it, h !! l = Some it ∧ name it = name it' ∧ item_type it = item_type it' ∧
        inode it = inode it' ∧ children it = children it'.
Proof.
  unfold facet. intros H Hl. rewrite Hl in H. destruct (h !! l) as [it|]; [|done].
  cbn in H. injection H as H1 H2 H3 H4. by exists it.
Qed.

Lemma facet_Some_r (h h' : list FSItem) l it :
  facet <$> h' !! l = facet <$> h !! l → h !! l = Some it →
  ∃ it', h' !! l = Some it' ∧ name it' = name it ∧ item_type it' = item_type it ∧
         inode it' = inode it ∧ children it' = children it.
Proof.
  unfold facet. intros H Hl. rewrite Hl in H. destruct (h' !! l) as [it'|]; [|done].
  cbn in H. injection H as H1 H2 H3 H4. by exists it'.
Qed.

Lemma count_kind_facet k s s' :
  filesystem s' = filesystem s →
  (∀ l, facet <$> heap s' !! l = facet <$> heap s !! l) →
  count_kind k s' = count_kind k s.
Proof.
  intros Hfs Hf. unfold count_kind. rewrite Hfs. do 2 f_equal.
  apply list_filter_iff. intros [p l]. cbn [snd].
  destruct (facet_eq _ _ l (Hf l)) as (_ & -> & _). done.
Qed.

Lemma effect_same s s' :
  filesystem s' = filesystem s → heap s' = heap s →
  dentry_cache s' = dentry_cache s → inode_cache s' = inode_cache s →
  total_files (stats s') = total_files (stats s) →
  total_dirs (stats s') = total_dirs (stats s) →
  effect s s'.
Proof.
  intros Hfs Hh Hd Hi Hf Hdr. apply eff_quiet; try done.
  - intros l. by rewrite Hh.
  - intros p l. rewrite Hd. by left.
  - intros i l. rewrite Hi. by left.
Qed.

Section effects.

Context (clk : Clock).

Lemma create_effect nm k s a :
  sound s → (create clk nm k s).1 = Return a → effect s (create clk nm k s).2.
Proof.
  intros [(Hrefs & Hinj & Hb & Hd & Hcp & Hk) Ht]. unfold create.
  destruct (bool_decide (nm = "") || Str.contains_slash nm) eqn:Hname.
  { intros _. by apply effect_same. }
  apply accepted_name in Hname.
  destruct (filesystem s !! child_path s nm) as [l0|] eqn:Hex.
  { intros _. by apply effect_same. }
  unfold_setters. rewrite child_path_join in *.
  destruct (parent_of_join _ nm Hcp Hname) as (_ & _ & _ & Hnecp & _).
  set (item := mkFSItem nm k _ _ _ _ _).
  destruct (_ !! current_path s) as [lp|] eqn:Hlp; [|done].
  rewrite lookup_insert_ne in Hlp by done.
  assert (lp < length (heap s))%nat as Hlt by (by eapply Hrefs).
  destruct (lookup_lt_is_Some_2 _ _ Hlt) as [parent Hparent].
  rewrite (lookup_app_l_Some _ _ _ _ Hparent). cbn [fst snd]. unfold_setters.
  intros _. by apply (eff_create _ _ nm item lp parent).
Qed.

Lemma delete_effect nm s a :
  sound s → (delete clk nm s).1 = Return a → effect s (delete clk nm s).2.
Proof.
  intros [(Hrefs & Hinj & Hb & Hd & Hcp & Hk) Ht]. unfold delete.
  destruct (filesystem s !! child_path s nm) as [l|] eqn:Hp.
  2:{ intros _. by apply effect_same. }
  destruct (heap s !! l) as [item|] eqn:Hl; [|done].
  destruct (bool_decide (item_type item = DIRECTORY) && bool_decide (children item ≠ [])).
  { intros _. by apply effect_same. }
  rewrite child_path_join in *. unfold_setters.
  destruct (_ !! current_path s) as [lp|] eqn:Hlp; [|done].
  destruct (heap s !! lp) as [parent|] eqn:Hparent; [|done].
  destruct (Str.list_remove nm (children parent)) as [rest|] eqn:Hrest; [|done].
  apply lookup_delete_Some in Hlp as [_ Hlp].
  assert (valid_name nm) as Hname.
  { destruct Ht as (_ & _ & H3 & _). pose proof (H3 _ _ Hparent) as Hall.
    rewrite Forall_forall in Hall. apply Hall.
    by destruct (list_remove_spec _ _ _ Hrest) as (? & _). }
  intros _.
  destruct (bool_decide (is_Some (dentry_cache s !! _))) eqn:Hdc;
    unfold_setters;
    (destruct (bool_decide (is_Some (inode_cache s !! _))) eqn:Hic);
    cbn [fst snd]; unfold_setters;
    apply (eff_delete _ _ nm l item lp parent rest); try done; unfold_setters.
  - apply bool_decide_eq_false in Hic. symmetry. apply delete_id.
    by apply eq_None_not_Some.
  - apply bool_decide_eq_false in Hdc. symmetry. apply delete_id.
    by apply eq_None_not_Some.
  - apply bool_decide_eq_false in Hdc. symmetry. apply delete_id.
    by apply eq_None_not_Some.
  - apply bool_decide_eq_false in Hic. symmetry. apply delete_id.
    by apply eq_None_not_Some.
Qed.

Lemma change_directory_effect nm s :
  effect s (change_directory clk nm s).2.
Proof.
  unfold change_directory.
  destruct (bool_decide (nm = "..")).
  { destruct (bool_decide (current_path s ≠ "/")); by apply effect_same. }
  destruct (filesystem s !! child_path s nm) as [l|] eqn:Hp; [|by apply effect_same].
  destruct (heap s !! l) as [item|] eqn:Hl; [|by apply effect_same].
  destruct (bool_decide (item_type item ≠ DIRECTORY)) eqn:Hk; [by apply effect_same|].
  apply bool_decide_eq_false in Hk.
  assert (item_type item = DIRECTORY) as Hdir.
  { destruct (item_type item); [by destruct Hk|done]. }
  destruct (bool_decide _); cbn [fst snd]; unfold_setters; [by apply effect_same|].
  apply eff_quiet; unfold_setters; try done.
  - intros p l0 [[<- <-]|[_ ?]]%lookup_insert_Some; [right|by left].
    split; [done|]. by exists item.
  - intros i l0 ?. by left.
Qed.

Lemma read_file_effect nm s :
  effect s (read_file clk nm s).2.
Proof.
  unfold read_file.
  destruct (filesystem s !! child_path s nm) as [l|] eqn:Hp; [|by apply effect_same].
  destruct (heap s !! l) as [item|] eqn:Hl; [|by apply effect_same].
  destruct (bool_decide (item_type item ≠ FILE)) eqn:Hk; [by apply effect_same|].
  apply bool_decide_eq_false in Hk.
  assert (item_type item = FILE) as Hfile.
  { destruct (item_type item); [done|by destruct Hk]. }
  destruct (bool_decide _); cbn [fst snd]; unfold_setters; [by apply effect_same|].
  apply eff_quiet; unfold_setters; try done.
  - intros p l0 ?. by left.
  - intros i l0 [[<- <-]|[_ ?]]%lookup_insert_Some; [right|by left].
    by exists (child_path s nm), item.
Qed.

Lemma write_file_effect nm c s :
  effect s (write_file clk nm c s).2.
Proof.
  unfold write_file.
  destruct (filesystem s !! child_path s nm) as [l|] eqn:Hp; [|by apply effect_same].
  destruct (heap s !! l) as [item|] eqn:Hl; [|by apply effect_same].
  destruct (bool_decide (item_type item ≠ FILE)); [by apply effect_same|].
  cbn [fst snd]. unfold_setters.
  apply eff_quiet; unfold_setters; try done.
  - intros l0. destruct (decide (l0 = l)) as [->|Hne].
    + rewrite list_lookup_insert_eq by (by eapply lookup_lt_Some). by rewrite Hl.
    + by rewrite list_lookup_insert_ne.
  - intros p l0 ?. by left.
  - intros i l0 ?. by left.
Qed.

Lemma get_current_items_effect s :
  effect s (get_current_items clk s).2.
Proof.
  unfold get_current_items.
  destruct (filesystem s !! current_path s) as [l|]; [|by apply effect_same].
  destruct (heap s !! l) as [item|]; [|by apply effect_same].
  destruct (bool_decide _); by apply effect_same.
Qed.

Lemma clear_cache_effect s :
  effect s (clear_cache clk s).2.
Proof.
  unfold clear_cache. cbn [fst snd]. unfold_setters.
  apply eff_quiet; unfold_setters; try done.
Qed.

(** Every call that returns has one of the three effects. *)
Lemma exec_effect c s rv :
  sound s → (exec clk c s).1 = Return rv → effect s (exec clk c s).2.
Proof.
  intros Hs. destruct c as [nm k|nm|nm|nm|nm cnt| |]; cbn [exec];
    rewrite lift_snd; intros Hr.
  - apply lift_fst in Hr as (a & Ha & _). by eapply create_effect.
  - apply lift_fst in Hr as (a & Ha & _). by eapply delete_effect.
  - apply change_directory_effect.
  - apply read_file_effect.
  - apply write_file_effect.
  - apply get_current_items_effect.
  - apply clear_cache_effect.
Qed.

End effects.

(** * Runs in which no call raised *)

Lemma effect_root s s' :
  sound s → effect s s' →
  is_Some (filesystem s !! "/") → is_Some (filesystem s' !! "/").
Proof.
  intros [(_ & _ & _ & _ & Hcp & _) _] He Hroot.
  destruct He as [Hfs _ _ _ _ _
                 |nm item lp parent Hname _ _ _ _ _ Hfs _ _ _ _
                 |nm l item lp parent rest Hname _ _ _ _ _ Hfs _ _ _ _].
  - by rewrite Hfs.
  - rewrite Hfs. apply lookup_insert_is_Some. destruct (decide (join_path (current_path s) nm = "/"));
      [by left|by right].
  - rewrite Hfs. apply lookup_delete_is_Some. split; [|done].
    by destruct (parent_of_join _ nm Hcp Hname) as (_ & _ & ? & _).
Qed.

Lemma effect_in_sync s s' : effect s s' → in_sync s → in_sync s'.
Proof.
  intros He [Hf Hd].
  destruct He as [Hfs Hfacet Hf' Hd' _ _| |]; [|done|done].
  split.
  - by rewrite Hf', (count_kind_facet _ _ _ Hfs Hfacet).
  - by rewrite Hd', (count_kind_facet _ _ _ Hfs Hfacet).
Qed.

Lemma effect_listed s s' : sound s → effect s s' → listed s → listed s'.
Proof.
  intros [(Hrefs & Hinj & _ & _ & Hcp & Hk) Ht] He Hlisted P d'
    (l' & Hl' & Hd')%node_at_Some.
  destruct He as [Hfs Hfacet _ _ _ _
                 |nm item lp parent Hname Hfree Hlp Hparent Hnm Hch Hfs Hh _ _ _
                 |nm l item lp parent rest Hname Hq Hitem Hlp Hparent Hrest Hfs Hh _ _ _].
  - rewrite Hfs in *.
    destruct (facet_Some _ _ _ _ (Hfacet l') Hd') as (d & Hd & _ & _ & _ & Hsame).
    rewrite <- Hsame. apply Hlisted, node_at_Some. eauto.
  - rewrite Hfs. rewrite Hfs in Hl'. rewrite Hh in Hd'.
    assert (lp < length (heap s))%nat as Hlt by (by eapply lookup_lt_Some).
    apply lookup_insert_Some in Hl' as [[<- <-]|[Hne Hl']].
    + rewrite list_lookup_insert_ne in Hd' by lia.
      rewrite lookup_app_r, Nat.sub_diag in Hd' by done. injection Hd' as <-.
      rewrite Hch. split; [constructor|]. intros x Hx. by apply elem_of_nil in Hx.
    + assert (l' < length (heap s))%nat as Hlt' by (by eapply Hrefs).
      destruct (decide (l' = lp)) as [->|Hnelp].
      * assert (P = current_path s) as -> by (by eapply Hinj).
        rewrite list_lookup_insert_eq in Hd' by (rewrite length_alloc; lia).
        injection Hd' as <-.
        cbn [set_children children].
        destruct (Hlisted (current_path s) parent) as [Hnd Hin].
        { apply node_at_Some. eauto. }
        split.
        -- apply NoDup_app. split; [done|]. split; [|apply NoDup_singleton].
           intros x Hx ->%list_elem_of_singleton. apply Hin in Hx as [? Hx]. congruence.
        -- intros x [Hx| ->%list_elem_of_singleton]%elem_of_app.
           ++ apply lookup_insert_is_Some'. right. by apply Hin.
           ++ apply lookup_insert_is_Some'. by left.
      * rewrite list_lookup_insert_ne in Hd' by done.
        rewrite lookup_app_l in Hd' by done.
        destruct (Hlisted P d') as [Hnd Hin].
        { apply node_at_Some. eauto. }
        split; [done|]. intros x Hx. apply lookup_insert_is_Some'. right. by apply Hin.
  - rewrite Hfs. rewrite Hfs in Hl'. rewrite Hh in Hd'.
    apply lookup_delete_Some in Hl' as [Hne Hl'].
    destruct (parent_of_join _ nm Hcp Hname) as (Hpar & Hleaf & _).
    destruct (decide (l' = lp)) as [->|Hnelp].
    + assert (P = current_path s) as -> by (by eapply Hinj).
      rewrite list_lookup_insert_eq in Hd' by (by eapply lookup_lt_Some).
      injection Hd' as <-. cbn [set_children children].
      destruct (Hlisted (current_path s) parent) as [Hnd Hin].
      { apply node_at_Some. eauto. }
      destruct (list_remove_spec _ _ _ Hrest) as (_ & Hsub & _ & Hperm).
      rewrite Hperm in Hnd. apply NoDup_cons in Hnd as [Hnot Hnd].
      split; [done|]. intros x Hx. apply lookup_delete_is_Some. split; [|by apply Hin, Hsub].
      intros Heq. apply (f_equal leaf_name) in Heq. rewrite Hleaf in Heq.
      assert (valid_name x) as Hvx.
      { destruct Ht as (_ & _ & H3 & _). pose proof (H3 _ _ Hparent) as Hall.
        rewrite Forall_forall in Hall. by apply Hall, Hsub. }
      destruct (parent_of_join _ x Hcp Hvx) as (_ & Hleafx & _). congruence.
    + rewrite list_lookup_insert_ne in Hd' by done.
      destruct (Hlisted P d') as [Hnd Hin].
      { apply node_at_Some. eauto. }
      split; [done|]. intros x Hx. apply lookup_delete_is_Some. split; [|by apply Hin].
      intros Heq. apply (f_equal parent_path) in Heq. rewrite Hpar in Heq.
      assert (valid_name x) as Hvx.
      { destruct Ht as (_ & _ & H3 & _). pose proof (H3 _ _ Hd') as Hall.
        rewrite Forall_forall in Hall. by apply Hall. }
      destruct (parent_of_join P x (Hk _ _ Hl') Hvx) as (Hparx & _).
      apply Hnelp. rewrite Hparx in Heq. rewrite <- Heq in Hl'. congruence.
Qed.

Lemma effect_caches_live s s' :
  consistent s → effect s s' → caches_live s → caches_live s'.
Proof.
  intros (Hrefs & Hinj & _) He [Hdc Hic].
  assert (∀ p l, live_dir s p l ∨ dentry_cache s !! p = Some l → live_dir s p l) as Hdc'.
  { intros p l [?|?]; [done|by apply Hdc]. }
  assert (∀ i l, live_file s i l ∨ inode_cache s !! i = Some l → live_file s i l) as Hic'.
  { intros i l [?|?]; [done|by apply Hic]. }
  destruct He as [Hfs Hfacet _ _ Hd Hi
                 |nm item lp parent Hname Hfree Hlp Hparent Hnm Hch Hfs Hh Hd Hi _
                 |nm l item lp parent rest Hname Hq Hitem Hlp Hparent Hrest Hfs Hh Hd Hi _].
  - split.
    + intros p l Hl. apply Hd in Hl. destruct (Hdc' p l) as (Hp & d & Hl0 & Hdir); [tauto|].
      destruct (facet_Some_r _ _ _ _ (Hfacet l) Hl0) as (d' & Hd' & _ & Hty & _).
      split; [by rewrite Hfs|]. exists d'. split; [done|congruence].
    + intros i l Hl. apply Hi in Hl.
      destruct (Hic' i l) as (p & it & Hp & Hl0 & Hid & Hfile); [tauto|].
      destruct (facet_Some_r _ _ _ _ (Hfacet l) Hl0) as (d' & Hd' & _ & Hty & Hid' & _).
      exists p, d'. rewrite Hfs. split; [done|]. split; [done|]. split; congruence.
  - assert (∀ l0 it, heap s !! l0 = Some it →
              ∃ it', heap s' !! l0 = Some it' ∧ inode it' = inode it ∧
                     item_type it' = item_type it) as Hkeep.
    { intros l0 it Hl0. rewrite Hh. destruct (decide (l0 = lp)) as [->|Hne].
      - rewrite list_lookup_insert_eq
          by (rewrite length_alloc; apply lookup_lt_Some in Hparent; lia).
        rewrite Hparent in Hl0. injection Hl0 as <-. by eexists.
      - rewrite list_lookup_insert_ne by done. exists it. split; [|done].
        by apply lookup_app_l_Some. }
    assert (∀ p l0, filesystem s !! p = Some l0 → filesystem s' !! p = Some l0) as Hstore.
    { intros p l0 Hp. rewrite Hfs. rewrite lookup_insert_ne; [done|]. congruence. }
    split.
    + intros p l0 Hl. rewrite Hd in Hl. destruct (Hdc _ _ Hl) as (Hp & d & Hl0 & Hdir).
      split; [by apply Hstore|]. destruct (Hkeep _ _ Hl0) as (d' & ? & _ & ?).
      exists d'. split; [done|congruence].
    + intros i l0 Hl. rewrite Hi in Hl.
      destruct (Hic _ _ Hl) as (p & it & Hp & Hl0 & Hid & Hfile).
      destruct (Hkeep _ _ Hl0) as (d' & ? & ? & ?).
      exists p, d'. split; [by apply Hstore|]. split; [done|]. split; congruence.
  - assert (∀ l0 it, heap s !! l0 = Some it →
              ∃ it', heap s' !! l0 = Some it' ∧ inode it' = inode it ∧
                     item_type it' = item_type it) as Hkeep.
    { intros l0 it Hl0. rewrite Hh. destruct (decide (l0 = lp)) as [->|Hne].
      - rewrite list_lookup_insert_eq by (by eapply lookup_lt_Some).
        rewrite Hparent in Hl0. injection Hl0 as <-. by eexists.
      - rewrite list_lookup_insert_ne by done. by exists it. }
    split.
    + intros p l0 Hl. rewrite Hd in Hl. apply lookup_delete_Some in Hl as [Hne Hl].
      destruct (Hdc _ _ Hl) as (Hp & d & Hl0 & Hdir).
      split; [by rewrite Hfs, lookup_delete_ne|].
      destruct (Hkeep _ _ Hl0) as (d' & ? & _ & ?). exists d'. split; [done|congruence].
    + intros i l0 Hl. rewrite Hi in Hl. apply lookup_delete_Some in Hl as [Hne Hl].
      destruct (Hic _ _ Hl) as (p & it & Hp & Hl0 & Hid & Hfile).
      destruct (Hkeep _ _ Hl0) as (d' & ? & ? & ?).
      exists p, d'. split.
      { rewrite Hfs, lookup_delete_ne; [done|]. intros <-.
        rewrite Hq in Hp. injection Hp as <-. rewrite Hitem in Hl0. injection Hl0 as <-.
        done. }
      split; [done|]. split; congruence.
Qed.

Lemma effect_tidy s s' : sound s → effect s s' → tidy s → tidy s'.
Proof.
  intros Hs He (Hroot & Hsync & Hlisted & Hlive).
  split; [by eapply effect_root|]. split; [by eapply effect_in_sync|].
  split; [by eapply effect_listed|]. eapply effect_caches_live; [apply Hs|done..].
Qed.

Lemma run_tidy cmds s :
  sound s → tidy s → unraised (run cmds s).1 = true → tidy (run cmds s).2.
Proof.
  revert s. induction cmds as [|[clk c] rest IH]; intros s Hs Ht; [done|].
  cbn [run fst snd unraised forallb]. intros [Hc Hrest]%andb_true_iff.
  apply IH; [by apply exec_sound| |done].
  destruct (exec clk c s).1 as [rv| |] eqn:Hr; [|done..].
  eapply effect_tidy; [done| |done]. by eapply exec_effect.
Qed.

Lemma listed_check_sound s : listed_check s = true → listed s.
Proof.
  unfold listed_check. intros Hall P d (l & Hp & Hl)%node_at_Some.
  pose proof (store_forall _ _ Hall _ _ Hp) as Hentry. cbn [fst snd] in Hentry.
  rewrite Hl in Hentry. apply andb_true_iff in Hentry as [Hnd Hin].
  split; [by apply bool_decide_eq_true in Hnd|].
  rewrite forallb_forall in Hin. intros nm Hnm%list_elem_of_In%Hin.
  by apply bool_decide_eq_true in Hnm.
Qed.

Lemma init_tidy t clk0 : tidy (init t clk0).
Proof.
  split; [|split; [|split]].
  - exists 0%nat. vm_compute. reflexivity.
  - split; vm_compute; reflexivity.
  - apply listed_check_sound. vm_compute. reflexivity.
  - destruct (init_caches t clk0) as [Hd Hi]. split.
    + intros p l. by rewrite Hd.
    + intros i l. by rewrite Hi.
Qed.

Lemma unraised_tidy t clk0 cmds :
  unraised (run cmds (init t clk0)).1 = true → tidy (run cmds (init t clk0)).2.
Proof. apply run_tidy; [apply init_sound|apply init_tidy]. Qed.

Lemma count_partition (h : list FSItem) (l : list (string * loc)) :
  Forall (λ pl, is_Some (h !! pl.2)) l →
  (length (filter (λ pl, item_type <$> h !! pl.2 = Some FILE) l) +
   length (filter (λ pl, item_type <$> h !! pl.2 = Some DIRECTORY) l))%nat = length l.
Proof.
  induction 1 as [|pl l [it Hit] _ IH]; [done|].
  rewrite !filter_cons. rewrite Hit. cbn [fmap option_fmap option_map].
  destruct (item_type it); repeat case_decide; try done; cbn [length]; lia.
Qed.

Lemma count_total s :
  refs_in (filesystem s) (length (heap s)) →
  count_kind FILE s + count_kind DIRECTORY s = entries s.
Proof.
  intros Hrefs. unfold count_kind, entries.
  rewrite <- length_map_to_list, <- Nat2Z.inj_add. f_equal.
  apply count_partition, Forall_forall. intros [p l] Hl%elem_of_map_to_list.
  apply lookup_lt_is_Some_2. by eapply Hrefs.
Qed.

Section returns.

Context (clk : Clock).

Lemma cursor_stored s :
  sound s → is_Some (filesystem s !! "/") → is_Some (filesystem s !! current_path s).
Proof.
  intros [_ (_ & _ & _ & _ & _ & H6)] Hroot.
  destruct (decide (current_path s = "/")) as [->|Hne]; [done|].
  destruct (H6 Hne) as (d & (l & Hl & _)%node_in_Some & _). by exists l.
Qed.

Lemma create_returns nm k s :
  sound s → is_Some (filesystem s !! "/") → ∃ a, (create clk nm k s).1 = Return a.
Proof.
  intros Hs Hroot. destruct (cursor_stored s Hs Hroot) as [lp Hlp].
  destruct Hs as [(Hrefs & _ & _ & _ & Hcp & _) _]. unfold create.
  destruct (bool_decide (nm = "") || Str.contains_slash nm) eqn:Hname; [by eexists|].
  apply accepted_name in Hname.
  destruct (filesystem s !! child_path s nm) as [l0|] eqn:Hex; [by eexists|].
  unfold_setters. rewrite child_path_join in *.
  destruct (parent_of_join _ nm Hcp Hname) as (_ & _ & _ & Hnecp & _).
  rewrite lookup_insert_ne, Hlp by done.
  assert (lp < length (heap s))%nat as Hlt by (by eapply Hrefs).
  destruct (lookup_lt_is_Some_2 _ _ Hlt) as [parent Hparent].
  rewrite (lookup_app_l_Some _ _ _ _ Hparent). by eexists.
Qed.

Lemma delete_returns nm s :
  sound s → is_Some (filesystem s !! "/") → valid_name nm →
  ∃ a, (delete clk nm s).1 = Return a.
Proof.
  intros Hs Hroot Hname. destruct (cursor_stored s Hs Hroot) as [lp Hlp].
  destruct Hs as [(Hrefs & _ & _ & _ & Hcp & _) (_ & _ & _ & _ & H5 & _)].
  unfold delete.
  destruct (filesystem s !! child_path s nm) as [l|] eqn:Hp; [|by eexists].
  assert (l < length (heap s))%nat as Hlt by (by eapply Hrefs).
  destruct (lookup_lt_is_Some_2 _ _ Hlt) as [item Hitem]. rewrite Hitem.
  destruct (bool_decide (item_type item = DIRECTORY) && bool_decide (children item ≠ []));
    [by eexists|].
  rewrite child_path_join in *. unfold_setters.
  destruct (parent_of_join _ nm Hcp Hname) as (Hpar & Hleaf & Hnr & Hnecp & _).
  rewrite lookup_delete_ne, Hlp by done.
  assert (lp < length (heap s))%nat as Hltp by (by eapply Hrefs).
  destruct (lookup_lt_is_Some_2 _ _ Hltp) as [parent Hparent]. rewrite Hparent.
  destruct (Str.list_remove nm (children parent)) as [rest|] eqn:Hrest; [by eexists|].
  apply list_remove_None in Hrest. destruct Hrest.
  rewrite <- Hleaf. eapply H5; [done..|]. rewrite Hpar. apply node_in_Some. eauto.
Qed.

Lemma lift_raise {A} (f : A → retval) (r : outcome A * VFS) e :
  (lift f r).1 = Raise e → r.1 = Raise e.
Proof. unfold lift. destruct r.1; cbn [fst]; congruence. Qed.

(** A call whose name, if it is a [delete], is a name that [create]
    accepts returns, as long as the root is in the store. *)
Lemma exec_polite c s :
  sound s → is_Some (filesystem s !! "/") → polite c →
  ∃ rv, (exec clk c s).1 = Return rv.
Proof.
  intros Hs Hroot Hc.
  destruct (exec clk c s).1 as [rv|e|] eqn:Hr; [by eexists| |].
  2:{ by apply exec_not_stuck in Hr; [|apply Hs]. }
  exfalso. destruct c as [nm k|nm|nm|nm|nm cnt| |]; cbn [exec] in Hr;
    apply lift_raise in Hr.
  - destruct (create_returns nm k s Hs Hroot) as [a Ha]. congruence.
  - destruct (delete_returns nm s Hs Hroot Hc) as [a Ha]. congruence.
  - unfold change_directory in Hr. by repeat case_match.
  - unfold read_file in Hr. by repeat case_match.
  - unfold write_file in Hr. by repeat case_match.
  - unfold get_current_items in Hr. by repeat case_match.
  - done.
Qed.

End returns.

Lemma run_polite cmds s :
  sound s → is_Some (filesystem s !! "/") →
  Forall (λ c, polite c.2) cmds → unraised (run cmds s).1 = true.
Proof.
  revert s. induction cmds as [|[clk c] rest IH]; intros s Hs Hroot Hall; [done|].
  apply Forall_cons in Hall as [Hc Hall]. cbn [snd] in Hc.
  cbn [run fst snd unraised forallb].
  destruct (exec_polite clk c s Hs Hroot Hc) as [rv Hr]. rewrite Hr. cbn [andb].
  apply IH; [by apply exec_sound| |done].
  eapply effect_root; [done| |done]. by eapply exec_effect.
Qed.

(** X5. As long as every [delete] of a run is given a name that [create]
    would accept (not empty, no slash), no call of the run raises: each
    of them returns. *)
Theorem polite_runs_never_raise t clk0 cmds :
  Forall (λ c, polite c.2) cmds →
  unraised (run cmds (init t clk0)).1 = true.
Proof.
  apply run_polite; [apply init_sound|]. exists 0%nat. vm_compute. reflexivity.
Qed.

Lemma polite_runs_never_raise_witness :
  unraised (run (at_noon [Create "a.txt" FILE; Delete "a.txt"; Delete "nothing"])
                (init EXT4 noon)).1 = true.
Proof.
  apply (polite_runs_never_raise EXT4 noon
           (at_noon [Create "a.txt" FILE; Delete "a.txt"; Delete "nothing"])).
  apply Forall_cons. split; [exact I|].
  apply Forall_cons. split; [split; [discriminate|reflexivity]|].
  apply Forall_cons. split; [split; [discriminate|reflexivity]|].
  apply Forall_nil. exact I.
Defined.

(** X6. After a run in which no call raised, the root is in the store
    and is a directory, the two totals of the statistics are the numbers
    of files and of directories in the store, and they add up to the
    number of entries of the store. *)
Theorem unraised_runs_keep_root_and_totals t clk0 cmds :
  let r := run cmds (init t clk0) in
  unraised r.1 = true →
  (∃ d, node_at r.2 "/" = Some d ∧ item_type d = DIRECTORY) ∧
  total_files (stats r.2) = count_kind FILE r.2 ∧
  total_dirs (stats r.2) = count_kind DIRECTORY r.2 ∧
  total_files (stats r.2) + total_dirs (stats r.2) = entries r.2.
Proof.
  cbv zeta. intros Hun.
  destruct (unraised_tidy _ _ _ Hun) as ([l Hl] & [Hf Hd] & _).
  destruct (reachable_sound t clk0 cmds) as [Hc (H1 & _)].
  split.
  - destruct Hc as (Hrefs & _).
    destruct (lookup_lt_is_Some_2 (heap (run cmds (init t clk0)).2) l) as [d Hd'].
    { by eapply Hrefs. }
    exists d. split; [apply node_at_Some; eauto|]. apply H1, node_in_Some. eauto.
  - split; [done|]. split; [done|]. rewrite Hf, Hd. apply count_total, Hc.
Qed.

Lemma unraised_runs_keep_root_and_totals_witness :
  let r := run busy (init EXT4 noon) in
  (∃ d, node_at r.2 "/" = Some d ∧ item_type d = DIRECTORY) ∧
  total_files (stats r.2) = count_kind FILE r.2 ∧
  total_dirs (stats r.2) = count_kind DIRECTORY r.2 ∧
  total_files (stats r.2) + total_dirs (stats r.2) = entries r.2.
Proof.
  apply (unraised_runs_keep_root_and_totals EXT4 noon busy).
  vm_compute. reflexivity.
Defined.

(** X7. After a run in which no call raised, the children list of every
    stored node is exactly the set of names below it: it has no name
    twice, and a name is in it if and only if [create] accepts the name
    and the store has an entry for the node's path joined with it. *)
Theorem unraised_runs_children_are_the_entries t clk0 cmds :
  let r := run cmds (init t clk0) in
  unraised r.1 = true →
  ∀ P d, node_at r.2 P = Some d →
    NoDup (children d) ∧
    ∀ nm, nm ∈ children d ↔
          valid_name nm ∧ is_Some (filesystem r.2 !! join_path P nm).
Proof.
  cbv zeta. intros Hun P d Hd.
  destruct (unraised_tidy _ _ _ Hun) as (_ & _ & Hlisted & _).
  destruct (reachable_sound t clk0 cmds) as [Hc (_ & _ & H3 & _ & H5 & _)].
  destruct (Hlisted P d Hd) as [Hnd Hin]. split; [done|].
  pose proof Hd as (l & Hl & Hd')%node_at_Some.
  intros nm. split.
  - intros Hnm. split; [|by apply Hin].
    pose proof (H3 _ _ Hd') as Hall. rewrite Forall_forall in Hall. by apply Hall.
  - intros [Hname [l' Hl']].
    destruct Hc as (_ & _ & _ & _ & _ & Hk).
    destruct (parent_of_join P nm (Hk _ _ Hl) Hname) as (Hpar & Hleaf & Hnr & _).
    rewrite <- Hleaf. eapply H5; [done..|]. rewrite Hpar.
    by rewrite <- node_at_node_in.
Qed.

Lemma unraised_runs_children_are_the_entries_witness :
  let r := run [] (init EXT4 noon) in
  NoDup (children user_dir) ∧
  ∀ nm, nm ∈ children user_dir ↔
        valid_name nm ∧ is_Some (filesystem r.2 !! join_path "/home/user" nm).
Proof.
  apply (unraised_runs_children_are_the_entries EXT4 noon [] eq_refl "/home/user" user_dir).
  vm_compute. reflexivity.
Defined.

(** X8. After a run in which no call raised, the cache tables hold nodes
    of the store only: an entry of the dentry cache is the store's entry
    for the same path, and that node is a directory; an entry of the
    inode cache is a file of the store, filed under its id. *)
Theorem unraised_runs_cache_stored_nodes_only t clk0 cmds :
  let r := run cmds (init t clk0) in
  unraised r.1 = true →
  (∀ p l, dentry_cache r.2 !! p = Some l →
     filesystem r.2 !! p = Some l ∧
     ∃ d, heap r.2 !! l = Some d ∧ item_type d = DIRECTORY) ∧
  (∀ i l, inode_cache r.2 !! i = Some l →
     ∃ p it, filesystem r.2 !! p = Some l ∧ heap r.2 !! l = Some it ∧
             inode it = i ∧ item_type it = FILE).
Proof.
  cbv zeta. intros Hun.
  by destruct (unraised_tidy _ _ _ Hun) as (_ & _ & _ & Hlive).
Qed.

Lemma unraised_runs_cache_stored_nodes_only_witness :
  let r := run busy (init EXT4 noon) in
  (∀ p l, dentry_cache r.2 !! p = Some l →
     filesystem r.2 !! p = Some l ∧
     ∃ d, heap r.2 !! l = Some d ∧ item_type d = DIRECTORY) ∧
  (∀ i l, inode_cache r.2 !! i = Some l →
     ∃ p it, filesystem r.2 !! p = Some l ∧ heap r.2 !! l = Some it ∧
             inode it = i ∧ item_type it = FILE).
Proof.
  apply (unraised_runs_cache_stored_nodes_only EXT4 noon busy).
  vm_compute. reflexivity.
Defined.

(** * A [create] undone by a [delete] *)

Lemma filter_ext_in {A} (P Q : A → Prop) `{!∀ x, Decision (P x), !∀ x, Decision (Q x)}
    (l : list A) :
  (∀ x, x ∈ l → (P x ↔ Q x)) → filter P l = filter Q l.
Proof.
  induction l as [|x l IH]; intros Hall; [done|].
  rewrite !filter_cons.
  assert (P x ↔ Q x) as Hx by (apply Hall; left).
  rewrite IH by (intros y Hy; apply Hall; by right).
  destruct (decide (P x)), (decide (Q x)); tauto.
Qed.

Lemma count_kind_store k s s' :
  filesystem s' = filesystem s →
  (∀ p l, filesystem s !! p = Some l →
     item_type <$> heap s' !! l = item_type <$> heap s !! l) →
  count_kind k s' = count_kind k s.
Proof.
  intros Hfs Hty. unfold count_kind. rewrite Hfs. do 2 f_equal.
  apply filter_ext_in. intros [p l] Hl%elem_of_map_to_list. cbn [snd].
  by rewrite (Hty _ _ Hl).
Qed.

Lemma list_remove_snoc x l : x ∉ l → Str.list_remove x (l ++ [x]) = Some l.
Proof.
  induction l as [|y l IH]; intros Hx; cbn [app Str.list_remove].
  - by rewrite decide_True.
  - apply not_elem_of_cons in Hx as [Hne Hx].
    rewrite decide_False by done. by rewrite IH.
Qed.

Lemma set_children_back c it :
  set_children (children it) (set_children c it) = it.
Proof. by destruct it. Qed.

Section single_calls.

Context (clk : Clock).

(** [create] on an accepted name that is free, with the cursor in the
    store. *)
Lemma create_run nm k s lp parent :
  valid_name nm →
  filesystem s !! child_path s nm = None →
  child_path s nm ≠ current_path s →
  filesystem s !! current_path s = Some lp →
  heap s !! lp = Some parent →
  ∃ s',
    create clk nm k s = (Return (true, "Created " +:+ item_value k +:+ ": " +:+ nm), s') ∧
    filesystem s' = <[child_path s nm := length (heap s)]> (filesystem s) ∧
    heap s' = <[lp := set_children (children parent ++ [nm]) parent]>
                (heap s ++ [mkFSItem nm k (inode_counter s + 1) (now_isoformat clk) [] "" 0]) ∧
    current_path s' = current_path s ∧
    dentry_cache s' = dentry_cache s ∧
    inode_cache s' = inode_cache s ∧
    inode_counter s' = inode_counter s + 1 ∧
    cache_hits (stats s') = cache_hits (stats s) ∧
    cache_misses (stats s') = cache_misses (stats s) ∧
    in_sync s'.
Proof.
  intros [Hne Hsl] Hfree Hcp Hlp Hparent. unfold create.
  rewrite bool_decide_eq_false_2, Hsl, Hfree by done. cbn [orb]. unfold_setters.
  rewrite lookup_insert_ne, Hlp by done.
  rewrite (lookup_app_l_Some _ _ _ _ Hparent).
  eexists. split; [reflexivity|]. unfold_setters. by do 8 (split; [done|]).
Qed.

(** [delete] of a file or an empty directory that the cursor lists. *)
Lemma delete_run nm s l item lp parent rest :
  filesystem s !! child_path s nm = Some l →
  heap s !! l = Some item →
  ¬ (item_type item = DIRECTORY ∧ children item ≠ []) →
  child_path s nm ≠ current_path s →
  filesystem s !! current_path s = Some lp →
  heap s !! lp = Some parent →
  Str.list_remove nm (children parent) = Some rest →
  ∃ s',
    delete clk nm s = (Return (true, "Deleted: " +:+ nm), s') ∧
    filesystem s' = base.delete (child_path s nm) (filesystem s) ∧
    heap s' = <[lp := set_children rest parent]> (heap s) ∧
    current_path s' = current_path s ∧
    dentry_cache s' = base.delete (child_path s nm) (dentry_cache s) ∧
    inode_cache s' = base.delete (inode item) (inode_cache s) ∧
    inode_counter s' = inode_counter s ∧
    cache_hits (stats s') = cache_hits (stats s) ∧
    cache_misses (stats s') = cache_misses (stats s) ∧
    in_sync s'.
Proof.
  intros Hq Hitem Hempty Hcp Hlp Hparent Hrest. unfold delete.
  rewrite Hq, Hitem.
  assert (bool_decide (item_type item = DIRECTORY) && bool_decide (children item ≠ [])
          = false) as ->.
  { apply andb_false_iff.
    destruct (decide (item_type item = DIRECTORY)) as [Hd|Hd].
    - right. apply bool_decide_eq_false. intros Hc. by apply Hempty.
    - left. by apply bool_decide_eq_false. }
  unfold_setters. rewrite lookup_delete_ne, Hlp, Hparent, Hrest by done.
  destruct (bool_decide (is_Some (dentry_cache s !! _))) eqn:Hdc;
    unfold_setters;
    (destruct (bool_decide (is_Some (inode_cache s !! _))) eqn:Hic);
    (eexists; split; [reflexivity|]); unfold_setters;
    do 3 (split; [done|]);
    (split; [|split; [|by do 3 (split; [done|])]]);
    try done; symmetry; apply delete_id, eq_None_not_Some;
    by eapply bool_decide_eq_false.
Qed.

End single_calls.

(** X9. In a state reached without a raise, creating a node under a free
    accepted name and deleting it again succeeds twice and restores the
    store, the cursor, both cache tables and the two totals; every
    object is as it was.  What remains is the new object, out of the
    store, and its id: the counter has moved on by one. *)
Theorem create_then_delete_restores t clk0 cmds clk1 clk2 nm k :
  let r := run cmds (init t clk0) in
  unraised r.1 = true →
  valid_name nm →
  filesystem r.2 !! child_path r.2 nm = None →
  ∃ msg1 s1 msg2 s2 item,
    create clk1 nm k r.2 = (Return (true, msg1), s1) ∧
    delete clk2 nm s1 = (Return (true, msg2), s2) ∧
    filesystem s2 = filesystem r.2 ∧
    heap s2 = heap r.2 ++ [item] ∧
    current_path s2 = current_path r.2 ∧
    dentry_cache s2 = dentry_cache r.2 ∧
    inode_cache s2 = inode_cache r.2 ∧
    total_files (stats s2) = total_files (stats r.2) ∧
    total_dirs (stats s2) = total_dirs (stats r.2) ∧
    inode_counter s2 = inode_counter r.2 + 1.
Proof.
  cbv zeta. intros Hun Hname Hfree.
  pose proof (reachable_sound t clk0 cmds) as Hs.
  destruct (unraised_tidy _ _ _ Hun) as (Hroot & [Hsf Hsd] & Hlisted & [Hdc Hic]).
  set (s := (run cmds (init t clk0)).2) in *.
  destruct (cursor_stored s Hs Hroot) as [lp Hlp].
  destruct Hs as [(Hrefs & Hinj & Hb & Hd & Hcp & Hk) Ht].
  assert (lp < length (heap s))%nat as Hlt by (by eapply Hrefs).
  destruct (lookup_lt_is_Some_2 _ _ Hlt) as [parent Hparent].
  assert (child_path s nm ≠ current_path s) as Hne.
  { rewrite child_path_join. by destruct (parent_of_join _ nm Hcp Hname) as (_ & _ & _ & ? & _). }
  destruct (create_run clk1 nm k s lp parent Hname Hfree Hne Hlp Hparent)
    as (s1 & Hc & Hfs1 & Hh1 & Hcp1 & Hdc1 & Hic1 & Hn1 & _ & _ & _).
  set (item := mkFSItem nm k _ _ _ _ _) in Hh1.
  assert (nm ∉ children parent) as Hnew.
  { intros Hin. destruct (Hlisted (current_path s) parent) as [_ Hall].
    { apply node_at_Some. eauto. }
    apply Hall in Hin as [l0 Hl0]. rewrite <- child_path_join in Hl0. congruence. }
  assert (child_path s1 nm = child_path s nm) as Hq1 by (by apply child_path_frame).
  destruct (delete_run clk2 nm s1 (length (heap s)) item lp
              (set_children (children parent ++ [nm]) parent) (children parent))
    as (s2 & Hdel & Hfs2 & Hh2 & Hcp2 & Hdc2 & Hic2 & Hn2 & _ & _ & [Hf2 Hd2]).
  { by rewrite Hq1, Hfs1, lookup_insert_eq. }
  { rewrite Hh1, list_lookup_insert_ne by lia.
    by rewrite lookup_app_r, Nat.sub_diag. }
  { intros [_ Hch]. by apply Hch. }
  { by rewrite Hq1, Hcp1. }
  { by rewrite Hcp1, Hfs1, lookup_insert_ne. }
  { rewrite Hh1. apply list_lookup_insert_eq. rewrite length_alloc. lia. }
  { by apply list_remove_snoc. }
  assert (heap s2 = heap s ++ [item]) as Hheap.
  { rewrite Hh2, Hh1, list_insert_insert_eq, set_children_back.
    apply list_insert_id. by apply lookup_app_l_Some. }
  assert (filesystem s2 = filesystem s) as Hstore.
  { rewrite Hfs2, Hq1, Hfs1. by apply delete_insert_id. }
  assert (∀ j, count_kind j s2 = count_kind j s) as Hcount.
  { intros j. apply count_kind_store; [done|]. intros p l Hl. rewrite Hheap.
    rewrite lookup_app_l; [done|]. by eapply Hrefs. }
  exists ("Created " +:+ item_value k +:+ ": " +:+ nm), s1, ("Deleted: " +:+ nm), s2, item.
  do 4 (split; [done|]). split; [congruence|]. split; [|split; [|split; [|split]]].
  - rewrite Hdc2, Hdc1, Hq1. apply delete_id.
    destruct (dentry_cache s !! child_path s nm) as [l0|] eqn:Hl0; [|done].
    apply Hdc in Hl0 as [Hl0 _]. congruence.
  - rewrite Hic2, Hic1. apply delete_id.
    destruct (inode_cache s !! inode item) as [l0|] eqn:Hl0; [|done].
    apply Hic in Hl0 as (p & it & _ & Hit & Hid & _).
    apply Hb in Hit. cbn [inode item] in Hid. lia.
  - by rewrite Hf2, Hcount.
  - by rewrite Hd2, Hcount.
  - by rewrite Hn2.
Qed.

Lemma create_then_delete_restores_witness :
  let r := run [] (init EXT4 noon) in
  ∃ msg1 s1 msg2 s2 item,
    create noon "a.txt" FILE r.2 = (Return (true, msg1), s1) ∧
    delete noon "a.txt" s1 = (Return (true, msg2), s2) ∧
    filesystem s2 = filesystem r.2 ∧
    heap s2 = heap r.2 ++ [item] ∧
    current_path s2 = current_path r.2 ∧
    dentry_cache s2 = dentry_cache r.2 ∧
    inode_cache s2 = inode_cache r.2 ∧
    total_files (stats s2) = total_files (stats r.2) ∧
    total_dirs (stats s2) = total_dirs (stats r.2) ∧
    inode_counter s2 = inode_counter r.2 + 1.
Proof.
  apply (create_then_delete_restores EXT4 noon [] noon noon "a.txt" FILE).
  - reflexivity.
  - split; [discriminate|reflexivity].
  - vm_compute. reflexivity.
Defined.

(** * Listing the current directory *)

Lemma compare_not_Gt_trans (a b c : string) :
  String.compare a b ≠ Gt → String.compare b c ≠ Gt → String.compare a c ≠ Gt.
Proof.
  revert b c. induction a as [|x a IH]; intros [|y b] [|z c];
    cbn [String.compare]; try done.
  unfold Ascii.compare.
  destruct (N.compare_spec (N_of_ascii x) (N_of_ascii y)),
           (N.compare_spec (N_of_ascii y) (N_of_ascii z)),
           (N.compare_spec (N_of_ascii x) (N_of_ascii z));
    try done; try lia.
  apply IH.
Qed.

Lemma leb_transitive : Transitive (λ a b, Is_true (String.leb a b)).
Proof.
  intros a b c. unfold String.leb. intros Hab Hbc.
  pose proof (compare_not_Gt_trans a b c) as Htr.
  destruct (String.compare a b), (String.compare b c), (String.compare a c);
    try done; by destruct Htr.
Qed.

Lemma leb_is_total : Total (λ a b, Is_true (String.leb a b)).
Proof.
  intros a b. destruct (String.leb_total a b) as [H|H]; rewrite H; [by left|by right].
Qed.

Lemma sorted_is_sorted l :
  StronglySorted (λ a b, Is_true (String.leb a b)) (Str.sorted l) ∧ Str.sorted l ≡ₚ l.
Proof.
  split.
  - apply (@StronglySorted_merge_sort _ _ _ leb_transitive leb_is_total).
  - apply merge_sort_Permutation.
Qed.

Lemma StronglySorted_filter {A} (R : relation A) (P : A → Prop)
    `{!∀ x, Decision (P x)} (l : list A) :
  StronglySorted R l → StronglySorted R (filter P l).
Proof.
  induction 1 as [|x l Hs IH Hall]; [constructor|].
  rewrite filter_cons. destruct (decide (P x)); [|done].
  constructor; [done|]. rewrite Forall_forall in Hall. apply Forall_forall.
  intros y [_ Hy]%list_elem_of_filter. by apply Hall.
Qed.

Lemma filter_all {A} (P : A → Prop) `{!∀ x, Decision (P x)} (l : list A) :
  Forall P l → filter P l = l.
Proof.
  induction 1 as [|x l Hx _ IH]; [done|].
  by rewrite filter_cons, decide_True, IH.
Qed.

(** The loop of [get_current_items] returns, in the order of the names
    it is given, the entries the store has for them. *)
Lemma collect_children_found s (Q : string → Prop) names :
  Forall Q names →
  Forall2 (λ l nm, Q nm ∧ filesystem s !! child_path s nm = Some l)
          (collect_children s names)
          (filter (λ nm, is_Some (filesystem s !! child_path s nm)) names).
Proof.
  induction 1 as [|nm names Hnm _ IH]; [constructor|].
  cbn [collect_children]. rewrite filter_cons.
  destruct (filesystem s !! child_path s nm) as [l|] eqn:Hl.
  - rewrite decide_True by done. by constructor.
  - rewrite decide_False; [done|]. by intros [? ?].
Qed.

(** X10. In every state of the object whose cursor is in the store,
    [get_current_items] returns the objects the store holds for the
    names in the children list of the current directory, each of them
    named by its entry, in ascending order of the names; a listed name
    without an entry is skipped.  After a run in which no call raised,
    no name is skipped.  When the cursor is not in the store, the call
    returns the empty list and changes nothing. *)
Theorem listing_is_sorted_children t clk0 cmds clk :
  let r := run cmds (init t clk0) in
  let s := r.2 in
  (∀ cur, node_at s (current_path s) = Some cur →
     ∃ ls names s',
       get_current_items clk s = (Return ls, s') ∧
       Forall2 (λ l nm, filesystem s !! join_path (current_path s) nm = Some l ∧
                        ∃ it, heap s !! l = Some it ∧ name it = nm) ls names ∧
       StronglySorted (λ a b, Is_true (String.leb a b)) names ∧
       names ≡ₚ filter (λ nm, is_Some (filesystem s !! join_path (current_path s) nm))
                       (children cur) ∧
       (unraised r.1 = true → names ≡ₚ children cur)) ∧
  (node_at s (current_path s) = None → get_current_items clk s = (Return [], s)).
Proof.
  cbv zeta. set (s := (run cmds (init t clk0)).2).
  destruct (reachable_sound t clk0 cmds) as [Hc Ht]. fold s in Hc, Ht.
  destruct Hc as (Hrefs & Hinj & Hb & Hd & Hcp & Hk).
  split.
  - intros cur Hcur. pose proof Hcur as (lc & Hlc & Hhc)%node_at_Some.
    assert (item_type cur = DIRECTORY) as Hdir.
    { destruct Ht as (H1 & _ & _ & _ & _ & H6).
      destruct (decide (current_path s = "/")) as [Hroot|Hnr].
      - apply H1. rewrite <- Hroot. by rewrite <- node_at_node_in.
      - destruct (H6 Hnr) as (d & Hd' & Hty). rewrite <- node_at_node_in in Hd'. congruence. }
    set (found := λ nm, is_Some (filesystem s !! join_path (current_path s) nm)).
    assert (∀ names : list string,
              filter (λ nm, is_Some (filesystem s !! child_path s nm)) names
                     = filter found names) as Hfound.
    { intros names. apply list_filter_iff. intros nm. unfold found.
      by rewrite child_path_join. }
    exists (collect_children s (Str.sorted (children cur))),
           (filter found (Str.sorted (children cur))),
           (_log_operation clk "READDIR" (current_path s) true s).
    destruct (sorted_is_sorted (children cur)) as [Hsorted Hperm].
    split; [|split; [|split; [|split]]].
    + unfold get_current_items. rewrite Hlc, Hhc.
      by rewrite bool_decide_eq_false_2 by (by intros ?).
    + rewrite <- Hfound.
      eapply Forall2_impl; [apply (collect_children_found s valid_name)|].
      { rewrite Hperm. destruct Ht as (_ & _ & H3 & _). by eapply H3. }
      intros l nm [Hnm Hl]. rewrite child_path_join in Hl. split; [done|].
      assert (l < length (heap s))%nat as Hlt by (by eapply Hrefs).
      destruct (lookup_lt_is_Some_2 _ _ Hlt) as [it Hit]. exists it. split; [done|].
      destruct (parent_of_join _ nm Hcp Hnm) as (_ & Hleaf & Hnr & _).
      destruct Ht as (_ & H2 & _). rewrite <- Hleaf. apply H2; [|done].
      apply node_in_Some. eauto.
    + by apply StronglySorted_filter.
    + by rewrite Hperm.
    + intros Hun. rewrite Hperm. rewrite filter_all; [done|].
      destruct (unraised_tidy _ _ _ Hun) as (_ & _ & Hlisted & _).
      apply Forall_forall. intros nm Hnm. by apply (Hlisted _ _ Hcur).
  - intros Hnone. unfold get_current_items.
    destruct (filesystem s !! current_path s) as [l|] eqn:Hl; [|done].
    assert (l < length (heap s))%nat as Hlt by (by eapply Hrefs).
    destruct (lookup_lt_is_Some_2 _ _ Hlt) as [it Hit].
    unfold node_at in Hnone. rewrite Hl in Hnone. cbn in Hnone. congruence.
Qed.

(** * The records of the journal and the cache counters *)

Section records.

Context (clk : Clock).

Ltac record_cases :=
  repeat case_match; cbn [fst snd]; unfold_setters;
  (split; [reflexivity|]);
  first [ left; reflexivity
        | right; eexists; split; [reflexivity|];
          split; [reflexivity|]; split; [reflexivity|]; split; [reflexivity|];
          cbn [success snd]; first [ intros _; exact I | discriminate ] ].

(** A call keeps the file system type and writes no record, or one: its
    own. *)
Lemma exec_record c s :
  let s' := (exec clk c s).2 in
  fs_type s' = fs_type s ∧
  (operation_log s' = operation_log s ∨
   ∃ rec, operation_log s' = operation_log s ++ [rec] ∧
          record_of (fs_type s) rec (clk, c)).
Proof.
  cbv zeta. unfold record_of.
  destruct c as [nm k|nm|nm|nm|nm cnt| |]; cbn [exec op_name fst snd];
    rewrite lift_snd.
  - unfold create. unfold_setters. record_cases.
  - unfold delete. unfold_setters. record_cases.
  - unfold change_directory. unfold_setters. record_cases.
  - unfold read_file. unfold_setters. record_cases.
  - unfold write_file. unfold_setters. record_cases.
  - unfold get_current_items. unfold_setters. record_cases.
  - unfold clear_cache. unfold_setters. record_cases.
Qed.

Ltac counter_cases :=
  repeat case_match; cbn [fst snd] in *; simplify_eq;
  cbn [fst snd lookup_call] in *; unfold_setters;
  repeat case_match; cbn [fst snd] in *; simplify_eq;
  first [ congruence | lia ].

(** A call moves one of the two cache counters, by one, exactly when it
    has consulted a cache table. *)
Lemma exec_lookup c s :
  let r := exec clk c s in
  cache_hits (stats r.2) + cache_misses (stats r.2)
    = cache_hits (stats s) + cache_misses (stats s) + lookup_call (c, r.1) ∧
  cache_hits (stats s) ≤ cache_hits (stats r.2) ∧
  cache_misses (stats s) ≤ cache_misses (stats r.2).
Proof.
  cbv zeta.
  destruct c as [nm k|nm|nm|nm|nm cnt| |]; cbn [exec]; unfold lift.
  - unfold create. unfold_setters. counter_cases.
  - unfold delete. unfold_setters. counter_cases.
  - unfold change_directory. unfold_setters. counter_cases.
  - unfold read_file. unfold_setters. counter_cases.
  - unfold write_file. unfold_setters. counter_cases.
  - unfold get_current_items. unfold_setters. counter_cases.
  - unfold clear_cache. unfold_setters. counter_cases.
Qed.

End records.

Lemma run_records cmds s :
  fs_type (run cmds s).2 = fs_type s ∧
  ∃ recs sub,
    operation_log (run cmds s).2 = operation_log s ++ recs ∧
    sub `sublist_of` cmds ∧
    Forall2 (record_of (fs_type s)) recs sub.
Proof.
  revert s. induction cmds as [|[clk c] rest IH]; intros s.
  { split; [done|]. exists [], []. cbn [run snd]. rewrite app_nil_r.
    split; [done|]. split; constructor. }
  cbn [run fst snd].
  destruct (IH (exec clk c s).2) as (Ht & recs & sub & Hl & Hsub & Hall).
  destruct (exec_record clk c s) as [Ht1 Hrec]. rewrite Ht1 in Ht, Hall.
  split; [done|].
  destruct Hrec as [Hl1|(rec & Hl1 & Hrec)].
  - exists recs, sub. rewrite Hl, Hl1. split; [done|]. split; [|done].
    by apply sublist_cons.
  - exists (rec :: recs), ((clk, c) :: sub). rewrite Hl, Hl1.
    split; [by rewrite <- app_assoc|]. split; [by apply sublist_skip|].
    by constructor.
Qed.

Lemma run_lookups cmds s :
  let r := run cmds s in
  cache_hits (stats r.2) + cache_misses (stats r.2)
    = cache_hits (stats s) + cache_misses (stats s) + lookups r.1 ∧
  cache_hits (stats s) ≤ cache_hits (stats r.2) ∧
  cache_misses (stats s) ≤ cache_misses (stats r.2).
Proof.
  cbv zeta. revert s. induction cmds as [|[clk c] rest IH]; intros s.
  { cbn [run fst snd lookups]. lia. }
  cbn [run fst snd lookups].
  destruct (IH (exec clk c s).2) as (Hsum & Hh & Hm).
  destruct (exec_lookup clk c s) as (Hsum1 & Hh1 & Hm1). lia.
Qed.

(** X11. The journal of an object is made of records of its calls, in
    the order of the calls, at most one for each: a record carries the
    clock reading of its call, the operation name of the method called
    and the file system type the object was constructed with, which no
    call changes; a record of failure comes from [create], [delete] or
    [write_file]. *)
Theorem journal_records_follow_the_calls t clk0 cmds :
  let s := (run cmds (init t clk0)).2 in
  fs_type s = t ∧
  ∃ sub, sub `sublist_of` cmds ∧ Forall2 (record_of t) (operation_log s) sub.
Proof.
  cbv zeta.
  destruct (run_records cmds (init t clk0)) as (Ht & recs & sub & Hl & Hsub & Hall).
  assert (fs_type (init t clk0) = t) as Hinit by (vm_compute; reflexivity).
  rewrite Hinit in Ht, Hall. split; [done|]. exists sub. split; [done|].
  rewrite Hl, (proj2 (init_statistics t clk0)). done.
Qed.

(** X12. The two cache counters together count the calls that consulted
    a cache table: the successful [read_file] calls and the successful
    [change_directory] calls into a directory.  Neither counter ever goes
    down; [clear_cache] does not reset them. *)
Theorem cache_counters_count_the_lookups t clk0 cmds :
  let r := run cmds (init t clk0) in
  cache_hits (stats r.2) + cache_misses (stats r.2) = lookups r.1 ∧
  ∀ pre post,
    cmds = pre ++ post →
    cache_hits (stats (run pre (init t clk0)).2) ≤ cache_hits (stats r.2) ∧
    cache_misses (stats (run pre (init t clk0)).2) ≤ cache_misses (stats r.2).
Proof.
  cbv zeta. split.
  - destruct (run_lookups cmds (init t clk0)) as (Hsum & _).
    rewrite Hsum, (proj1 (init_statistics t clk0)). cbn [cache_hits cache_misses]. lia.
  - intros pre post ->. rewrite run_app.
    by destruct (run_lookups post (run pre (init t clk0)).2) as (_ & Hh & Hm).
Qed.

(** * The objects *)

Lemma heap_evolves_refl h : heap_evolves h h.
Proof.
  split.
  - intros l it Hl. exists it. split; [done|]. split; [by repeat split|done].
  - intros l it' Hl Hn. congruence.
Qed.

Lemma heap_evolves_trans h1 h2 h3 :
  heap_evolves h1 h2 → heap_evolves h2 h3 → heap_evolves h1 h3.
Proof.
  intros [Ha1 Ha2] [Hb1 Hb2]. split.
  - intros l it Hl.
    destruct (Ha1 _ _ Hl) as (it2 & Hl2 & (? & ? & ? & ?) & Hw2).
    destruct (Hb1 _ _ Hl2) as (it3 & Hl3 & (? & ? & ? & ?) & Hw3).
    exists it3. split; [done|]. split; [|by auto].
    repeat split; congruence.
  - intros l it3 Hl3 Hn. destruct (h2 !! l) as [it2|] eqn:Hl2.
    + destruct (Hb1 _ _ Hl2) as (it3' & Hl3' & _ & Hw3).
      assert (it3' = it3) as -> by congruence. by eapply Hw3, Ha2.
    + by eapply Hb2.
Qed.

Lemma heap_evolves_alloc h item : well_kept item → heap_evolves h (h ++ [item]).
Proof.
  intros Hw. split.
  - intros l it Hl. exists it. split; [by apply lookup_app_l_Some|].
    split; [by repeat split|done].
  - intros l it' [Hl|[_ Hl]]%lookup_app_Some Hn; [congruence|].
    by apply list_lookup_singleton_Some in Hl as [_ <-].
Qed.

Lemma heap_evolves_update h l it it' :
  h !! l = Some it → same_identity it it' → (well_kept it → well_kept it') →
  heap_evolves h (<[l := it']> h).
Proof.
  intros Hl Hid Hw. split.
  - intros l0 it0 Hl0. destruct (decide (l0 = l)) as [->|Hne].
    + assert (it0 = it) as -> by congruence. exists it'.
      split; [|done]. apply list_lookup_insert_eq. by eapply lookup_lt_Some.
    + exists it0. split; [by rewrite list_lookup_insert_ne|].
      split; [by repeat split|done].
  - intros l0 it0 Hl0%lookup_lt_Some Hn%lookup_ge_None.
    rewrite length_insert in Hl0. lia.
Qed.

Lemma cursor_is_directory s lp parent :
  sound s → filesystem s !! current_path s = Some lp → heap s !! lp = Some parent →
  item_type parent = DIRECTORY.
Proof.
  intros [_ (H1 & _ & _ & _ & _ & H6)] Hlp Hparent.
  destruct (decide (current_path s = "/")) as [Hroot|Hnr].
  - apply H1. rewrite <- Hroot. apply node_in_Some. eauto.
  - destruct (H6 Hnr) as (d & (l & Hl & Hd)%node_in_Some & Hty). congruence.
Qed.

Lemma set_children_evolves h lp parent c :
  h !! lp = Some parent → item_type parent = DIRECTORY →
  heap_evolves h (<[lp := set_children c parent]> h).
Proof.
  intros Hlp Hdir. apply (heap_evolves_update _ _ parent); [done|by repeat split|].
  intros (Hsz & _ & Hc). split; [done|]. split; [|done].
  cbn [set_children item_type]. congruence.
Qed.

Section object_steps.

Context (clk : Clock).

Lemma create_evolves nm k s :
  sound s → heap_evolves (heap s) (heap (create clk nm k s).2).
Proof.
  intros Hs. pose proof Hs as [(Hrefs & _ & _ & _ & Hcp & _) _]. unfold create.
  destruct (bool_decide (nm = "") || Str.contains_slash nm) eqn:Hname;
    [apply heap_evolves_refl|].
  apply accepted_name in Hname.
  destruct (filesystem s !! child_path s nm) as [l0|] eqn:Hex;
    [apply heap_evolves_refl|].
  unfold_setters. rewrite child_path_join in *.
  destruct (parent_of_join _ nm Hcp Hname) as (_ & _ & _ & Hnecp & _).
  set (item := mkFSItem nm k _ _ _ _ _).
  assert (heap_evolves (heap s) (heap s ++ [item])) as Halloc.
  { apply heap_evolves_alloc. by repeat split. }
  destruct (_ !! current_path s) as [lp|] eqn:Hlp; [|done].
  rewrite lookup_insert_ne in Hlp by done.
  assert (lp < length (heap s))%nat as Hlt by (by eapply Hrefs).
  destruct (lookup_lt_is_Some_2 _ _ Hlt) as [parent Hparent].
  rewrite (lookup_app_l_Some _ _ _ _ Hparent). cbn [fst snd]. unfold_setters.
  eapply heap_evolves_trans; [exact Halloc|].
  apply set_children_evolves; [by apply lookup_app_l_Some|].
  by eapply cursor_is_directory.
Qed.

Lemma delete_evolves nm s :
  sound s → heap_evolves (heap s) (heap (delete clk nm s).2).
Proof.
  intros Hs. unfold delete.
  destruct (filesystem s !! child_path s nm) as [l|] eqn:Hp; [|apply heap_evolves_refl].
  destruct (heap s !! l) as [item|] eqn:Hl; [|apply heap_evolves_refl].
  destruct (bool_decide (item_type item = DIRECTORY) && bool_decide (children item ≠ []));
    [apply heap_evolves_refl|].
  unfold_setters.
  destruct (_ !! current_path s) as [lp|] eqn:Hlp; [|apply heap_evolves_refl].
  destruct (heap s !! lp) as [parent|] eqn:Hparent; [|apply heap_evolves_refl].
  destruct (Str.list_remove nm (children parent)) as [rest|] eqn:Hrest;
    [|apply heap_evolves_refl].
  apply lookup_delete_Some in Hlp as [_ Hlp].
  assert (heap_evolves (heap s) (<[lp := set_children rest parent]> (heap s))) as Hdone.
  { apply set_children_evolves; [done|]. by eapply cursor_is_directory. }
  cbn [fst snd]. by repeat case_match.
Qed.

Lemma change_directory_heap nm s : heap (change_directory clk nm s).2 = heap s.
Proof. unfold change_directory. by repeat case_match. Qed.

Lemma write_file_evolves nm c s :
  heap_evolves (heap s) (heap (write_file clk nm c s).2).
Proof.
  unfold write_file.
  destruct (filesystem s !! child_path s nm) as [l|]; [|apply heap_evolves_refl].
  destruct (heap s !! l) as [item|] eqn:Hl; [|apply heap_evolves_refl].
  destruct (bool_decide (item_type item ≠ FILE)) eqn:Hk; [apply heap_evolves_refl|].
  apply bool_decide_eq_false in Hk.
  assert (item_type item = FILE) as Hfile.
  { destruct (item_type item); [done|by destruct Hk]. }
  cbn [fst snd]. unfold_setters.
  apply (heap_evolves_update _ _ item); [done|by repeat split|].
  intros (_ & Hc & _). split; [done|]. split; [by apply Hc|].
  cbn [set_size set_content item_type]. congruence.
Qed.

Lemma exec_evolves c s :
  sound s → heap_evolves (heap s) (heap (exec clk c s).2).
Proof.
  intros Hs. destruct c as [nm k|nm|nm|nm|nm cnt| |]; cbn [exec]; rewrite lift_snd.
  - by apply create_evolves.
  - by apply delete_evolves.
  - rewrite change_directory_heap. apply heap_evolves_refl.
  - destruct (read_file_frame clk nm s) as (_ & -> & _). apply heap_evolves_refl.
  - apply write_file_evolves.
  - destruct (get_current_items_step clk s) as (_ & -> & _). apply heap_evolves_refl.
  - cbn [clear_cache snd]. unfold_setters. apply heap_evolves_refl.
Qed.

End object_steps.

Lemma run_evolves cmds s :
  sound s → heap_evolves (heap s) (heap (run cmds s).2).
Proof.
  revert s. induction cmds as [|[clk c] rest IH]; intros s Hs;
    [apply heap_evolves_refl|].
  cbn [run fst snd]. eapply heap_evolves_trans; [by apply exec_evolves|].
  by apply IH, exec_sound.
Qed.

Lemma init_well_kept t clk0 : Forall well_kept (heap (init t clk0)).
Proof.
  apply Forall_lookup. intros i it Hi.
  assert (i < 11)%nat as Hlt.
  { apply lookup_lt_Some in Hi. rewrite <- (length_fmap inode), init_ids in Hi.
    exact Hi. }
  do 11 (destruct i as [|i];
         [vm_compute in Hi; injection Hi as <-;
          split; [reflexivity|split; intros; done]|]).
  lia.
Qed.

(** X13. Every object the engine has constructed, whether it is still in
    the store or has been deleted, has the length of its content as its
    size; a file has no children; a directory has no content, and size
    0. *)
Theorem objects_are_well_kept t clk0 cmds :
  let s := (run cmds (init t clk0)).2 in
  Forall (λ it, size it = Str.len (content it) ∧
                (item_type it = FILE → children it = []) ∧
                (item_type it = DIRECTORY → content it = "" ∧ size it = 0))
         (heap s).
Proof.
  cbv zeta. apply Forall_lookup. intros l it Hl.
  destruct (run_evolves cmds (init t clk0) (init_sound t clk0)) as [Hold Hnew].
  assert (well_kept it) as (Hsz & Hf & Hd).
  { destruct (heap (init t clk0) !! l) as [it0|] eqn:Hl0.
    - destruct (Hold _ _ Hl0) as (it' & Hl' & _ & Hw).
      assert (it' = it) as -> by congruence.
      apply Hw. by eapply (proj1 (Forall_lookup _ _) (init_well_kept t clk0)).
    - by eapply Hnew. }
  split; [done|]. split; [done|]. intros Hdir. split; [by apply Hd|].
  by rewrite Hsz, (Hd Hdir).
Qed.

(** X14. An object keeps its name, its kind, its id and its creation
    time for ever: whatever calls follow, the object is still there
    (in the store or not) with these four fields unchanged. *)
Theorem objects_keep_their_identity t clk0 pre post l it :
  heap (run pre (init t clk0)).2 !! l = Some it →
  ∃ it', heap (run (pre ++ post) (init t clk0)).2 !! l = Some it' ∧
         name it' = name it ∧ item_type it' = item_type it ∧
         inode it' = inode it ∧ created it' = created it.
Proof.
  intros Hl. rewrite run_app.
  destruct (run_evolves post (run pre (init t clk0)).2 (reachable_sound t clk0 pre))
    as [Hold _].
  destruct (Hold _ _ Hl) as (it' & Hl' & Hid & _). by exists it'.
Qed.

Lemma objects_keep_their_identity_witness :
  ∃ it', heap (run ([] ++ busy) (init EXT4 noon)).2 !! 2%nat = Some it' ∧
         name it' = name user_dir ∧ item_type it' = item_type user_dir ∧
         inode it' = inode user_dir ∧ created it' = created user_dir.
Proof.
  apply (objects_keep_their_identity EXT4 noon [] busy 2%nat user_dir).
  vm_compute. reflexivity.
Defined.

(** * Failures, raises and calls in a row *)

Section calls.

Context (clk : Clock).

Ltac untouched_cases :=
  repeat case_match; cbn [fst snd] in *; simplify_eq;
  unfold untouched; unfold_setters;
  do 10 (split; [reflexivity|]); reflexivity.

(** X15. A call that returns a failure ([False] with a message, or
    [None] from [read_file]) leaves the store, every object, the cursor,
    the id counter, both cache tables and the statistics other than the
    operation counter as they were: a failure can only be journaled. *)
Theorem failed_calls_change_nothing c s :
  let r := exec clk c s in
  (∀ msg, r.1 = Return (RStatus false msg) → untouched s r.2) ∧
  (r.1 = Return (RItem None) → untouched s r.2).
Proof.
  cbv zeta.
  destruct c as [nm k|nm|nm|nm|nm cnt| |]; cbn [exec]; unfold lift;
    (split; [intros msg Hr|intros Hr]).
  - unfold create in *. unfold_setters. untouched_cases.
  - unfold create in *. unfold_setters. untouched_cases.
  - unfold delete in *. unfold_setters. untouched_cases.
  - unfold delete in *. unfold_setters. untouched_cases.
  - unfold change_directory in *. unfold_setters. untouched_cases.
  - unfold change_directory in *. unfold_setters. untouched_cases.
  - unfold read_file in *. unfold_setters. untouched_cases.
  - unfold read_file in *. unfold_setters. untouched_cases.
  - unfold write_file in *. unfold_setters. untouched_cases.
  - unfold write_file in *. unfold_setters. untouched_cases.
  - unfold get_current_items in *. unfold_setters. untouched_cases.
  - unfold get_current_items in *. unfold_setters. untouched_cases.
  - done.
  - done.
Qed.

(** [change_directory] into a directory below the cursor. *)
Lemma change_directory_enter nm s l item :
  nm ≠ ".." →
  filesystem s !! child_path s nm = Some l →
  heap s !! l = Some item →
  item_type item = DIRECTORY →
  ∃ s',
    change_directory clk nm s = (Return (true, "Changed to " +:+ child_path s nm), s') ∧
    current_path s' = child_path s nm ∧
    filesystem s' = filesystem s ∧
    heap s' = heap s ∧
    inode_cache s' = inode_cache s ∧
    is_Some (dentry_cache s' !! child_path s nm) ∧
    (is_Some (dentry_cache s !! child_path s nm) →
       dentry_cache s' = dentry_cache s ∧
       cache_hits (stats s') = cache_hits (stats s) + 1 ∧
       cache_misses (stats s') = cache_misses (stats s)) ∧
    (dentry_cache s !! child_path s nm = None →
       cache_misses (stats s') = cache_misses (stats s) + 1 ∧
       cache_hits (stats s') = cache_hits (stats s)).
Proof.
  intros Hnm Hp Hl Hdir. unfold change_directory.
  rewrite (bool_decide_eq_false_2 _ Hnm), Hp, Hl.
  rewrite bool_decide_eq_false_2 by (intros Hne; by apply Hne).
  destruct (dentry_cache s !! child_path s nm) as [lc|] eqn:Hc.
  - rewrite bool_decide_eq_true_2 by done.
    eexists. split; [reflexivity|]. unfold_setters.
    do 4 (split; [reflexivity|]). split; [by rewrite Hc|]. split; [done|].
    intros ?. congruence.
  - rewrite bool_decide_eq_false_2 by (by intros [? ?]).
    eexists. split; [reflexivity|]. unfold_setters.
    do 4 (split; [reflexivity|]). split; [by rewrite lookup_insert_eq|].
    split; [by intros [? ?]|done].
Qed.

(** What [read_file] leaves in the inode cache under the id of the file
    it returns: the file, or the entry that was there. *)
Lemma read_file_entry nm s l s1 :
  read_file clk nm s = (Return (Some l), s1) →
  ∃ item,
    filesystem s !! child_path s nm = Some l ∧
    heap s !! l = Some item ∧
    item_type item = FILE ∧
    filesystem s1 = filesystem s ∧ heap s1 = heap s ∧
    current_path s1 = current_path s ∧
    (inode_cache s1 !! inode item = Some l ∨
     inode_cache s1 !! inode item = inode_cache s !! inode item ∧
     is_Some (inode_cache s !! inode item)).
Proof.
  unfold read_file. intros Hr.
  destruct (filesystem s !! child_path s nm) as [l0|] eqn:Hp; [|discriminate].
  destruct (heap s !! l0) as [item|] eqn:Hl; [|discriminate].
  destruct (bool_decide (item_type item ≠ FILE)) eqn:Hk; [discriminate|].
  apply bool_decide_eq_false in Hk.
  assert (item_type item = FILE) as Hfile.
  { destruct (item_type item); [done|by destruct Hk]. }
  exists item.
  destruct (bool_decide (is_Some (inode_cache s !! inode item))) eqn:Hc;
    injection Hr as <- <-; unfold_setters; do 6 (split; [done|]).
  - right. split; [done|]. by apply bool_decide_eq_true in Hc.
  - left. by rewrite lookup_insert_eq.
Qed.

End calls.

(** X16. In every state of the object, entering a directory of the
    current directory by its name (a name [create] accepts, other than
    "..") and going up again leads back to the cursor; entering it once
    more is a hit of the dentry cache.  The first entering is a miss if
    the dentry cache had no entry for the path. *)
Theorem change_directory_down_then_up t clk0 cmds clk1 clk2 clk3 nm d :
  let s := (run cmds (init t clk0)).2 in
  valid_name nm → nm ≠ ".." →
  node_at s (child_path s nm) = Some d →
  item_type d = DIRECTORY →
  ∃ msg1 s1 msg2 s2 msg3 s3,
    change_directory clk1 nm s = (Return (true, msg1), s1) ∧
    current_path s1 = child_path s nm ∧
    change_directory clk2 ".." s1 = (Return (true, msg2), s2) ∧
    current_path s2 = current_path s ∧
    change_directory clk3 nm s2 = (Return (true, msg3), s3) ∧
    current_path s3 = child_path s nm ∧
    cache_hits (stats s3) = cache_hits (stats s2) + 1 ∧
    cache_misses (stats s3) = cache_misses (stats s2) ∧
    (dentry_cache s !! child_path s nm = None →
       cache_misses (stats s1) = cache_misses (stats s) + 1 ∧
       cache_hits (stats s1) = cache_hits (stats s)).
Proof.
  cbv zeta. intros Hname Hnm (l & Hp & Hl)%node_at_Some Hdir.
  destruct (reachable_sound t clk0 cmds) as [(_ & _ & _ & _ & Hcp & _) _].
  set (s := (run cmds (init t clk0)).2) in *.
  destruct (parent_of_join _ nm Hcp Hname) as (Hpar & _ & Hnr & _).
  rewrite <- child_path_join in Hpar, Hnr.
  destruct (change_directory_enter clk1 nm s l d Hnm Hp Hl Hdir)
    as (s1 & Hc1 & Hcp1 & Hfs1 & Hh1 & _ & Hin1 & _ & Hmiss).
  assert (current_path s1 ≠ "/") as Hnr1 by congruence.
  pose proof (change_directory_up clk2 s1 Hnr1) as Hup. cbv zeta in Hup.
  fold (parent_path (current_path s1)) in Hup. rewrite Hcp1, Hpar in Hup.
  set (s2 := _log_operation clk2 "CHDIR" (current_path s) true
               (set_current_path (current_path s) s1)) in Hup.
  assert (current_path s2 = current_path s) as Hcp2 by reflexivity.
  assert (child_path s2 nm = child_path s nm) as Hq2 by (by apply child_path_frame).
  destruct (change_directory_enter clk3 nm s2 l d Hnm)
    as (s3 & Hc3 & Hcp3 & _ & _ & _ & _ & Hhit & _).
  { rewrite Hq2. change (filesystem s1 !! child_path s nm = Some l). by rewrite Hfs1. }
  { change (heap s1 !! l = Some d). by rewrite Hh1. }
  { done. }
  rewrite Hq2 in Hc3, Hcp3, Hhit.
  destruct (Hhit Hin1) as (_ & Hh & Hm).
  eexists _, s1, _, s2, _, s3. by do 8 (split; [done|]).
Qed.

Lemma change_directory_down_then_up_witness :
  let s := (run [] (init EXT4 noon)).2 in
  ∃ msg1 s1 msg2 s2 msg3 s3,
    change_directory noon "home" s = (Return (true, msg1), s1) ∧
    current_path s1 = child_path s "home" ∧
    change_directory noon ".." s1 = (Return (true, msg2), s2) ∧
    current_path s2 = current_path s ∧
    change_directory noon "home" s2 = (Return (true, msg3), s3) ∧
    current_path s3 = child_path s "home" ∧
    cache_hits (stats s3) = cache_hits (stats s2) + 1 ∧
    cache_misses (stats s3) = cache_misses (stats s2) ∧
    (dentry_cache s !! child_path s "home" = None →
       cache_misses (stats s1) = cache_misses (stats s) + 1 ∧
       cache_hits (stats s1) = cache_hits (stats s)).
Proof.
  apply (change_directory_down_then_up EXT4 noon [] noon noon noon "home" home_dir).
  - split; [discriminate|reflexivity].
  - discriminate.
  - vm_compute. reflexivity.
  - reflexivity.
Defined.

(** X17. The object that [read_file] has handed out is the file itself,
    not a copy: after a [write_file] to the same name, which succeeds,
    that object holds the new content and its length, and it is the
    object the inode cache holds under the id of the file. *)
Theorem handed_out_file_sees_later_writes t clk0 cmds clk1 clk2 f c l s1 :
  let s := (run cmds (init t clk0)).2 in
  read_file clk1 f s = (Return (Some l), s1) →
  ∃ msg s2 it',
    write_file clk2 f c s1 = (Return (true, msg), s2) ∧
    heap s2 !! l = Some it' ∧
    content it' = c ∧
    size it' = Str.len c ∧
    inode_cache s2 !! inode it' = Some l.
Proof.
  cbv zeta. intros Hr.
  destruct (reachable_consistent t clk0 cmds) as [(_ & _ & _ & Hd & _) Hfrom].
  cbv zeta in Hfrom. set (s := (run cmds (init t clk0)).2) in *.
  destruct (read_file_entry clk1 f s l s1 Hr)
    as (item & Hp & Hl & Hfile & Hfs1 & Hh1 & Hcp1 & Hentry).
  assert (inode_cache s1 !! inode item = Some l) as Hcached.
  { destruct Hentry as [?|[Heq [lc Hlc]]]; [done|]. rewrite Heq, Hlc.
    destruct (Hfrom _ _ Hlc) as (_ & it0 & Hit0 & Hid). f_equal. by eapply Hd. }
  assert (child_path s1 f = child_path s f) as Hq1 by (by apply child_path_frame).
  pose proof (write_file_ok clk2 f c s1 l item) as Hw.
  rewrite Hq1, Hfs1, Hh1 in Hw. specialize (Hw Hp Hl Hfile).
  eexists _, _, _. split; [exact Hw|]. unfold_setters.
  split; [apply list_lookup_insert_eq; by eapply lookup_lt_Some|].
  by do 2 (split; [reflexivity|]).
Qed.

Lemma handed_out_file_sees_later_writes_witness :
  let s := (run (at_noon [ChangeDirectory "etc"]) (init EXT4 noon)).2 in
  ∃ msg s2 it',
    write_file noon "config.txt" "version=3.0" (read_file noon "config.txt" s).2
      = (Return (true, msg), s2) ∧
    heap s2 !! 7%nat = Some it' ∧
    content it' = "version=3.0" ∧
    size it' = Str.len "version=3.0" ∧
    inode_cache s2 !! inode it' = Some 7%nat.
Proof.
  apply (handed_out_file_sees_later_writes EXT4 noon (at_noon [ChangeDirectory "etc"])
           noon noon "config.txt" "version=3.0" 7%nat).
  vm_compute. reflexivity.
Defined.

(** X18. The constructor builds the same tree for every file system type
    and clock: eleven nodes with the ids 1 to 11 in the order of their
    construction, the root not listed among its own children; the
    totals are 3 files and 8 directories; the cursor is "/", the journal
    and both cache tables are empty and the other counters are 0; the
    configuration file names the file system type. *)
Theorem constructor_seeds_the_tree t clk0 :
  let s := init t clk0 in
  Forall (λ e, facet <$> node_at s e.1 = Some e.2) seeded ∧
  entries s = 11 ∧
  fs_type s = t ∧
  current_path s = "/" ∧
  inode_counter s = 11 ∧
  stats s = mkStatistics 3 8 0 0 0 ∧
  operation_log s = [] ∧
  dentry_cache s = ∅ ∧
  inode_cache s = ∅ ∧
  content <$> node_at s "/home/user/readme.txt" = Some readme_text ∧
  content <$> node_at s "/etc/config.txt" = Some (config_text t).
Proof.
  cbv zeta. split.
  { unfold seeded. repeat (apply Forall_cons; split; [vm_compute; reflexivity|]).
    apply Forall_nil. exact I. }
  split; [vm_compute; reflexivity|]. split; [vm_compute; reflexivity|].
  split; [apply init_cursor|]. split; [apply init_counter|].
  split; [apply init_statistics|]. split; [apply init_statistics|].
  split; [apply init_caches|]. split; [apply init_caches|].
  split; vm_compute; reflexivity.
Qed.

(** X19. A call that raises has stopped half way.  Only [create] and
    [delete] raise.  A [create] raises [KeyError] when the cursor is not
    in the store: by then the new node is in the store and its id is
    used up.  A [delete] raises [KeyError] when the cursor is not in the
    store and [ValueError] when the current directory does not list the
    name: by then the entry is out of the store.  In both cases the
    objects that were there, the cursor, the cache tables, the
    statistics and the journal are as before. *)
Theorem raising_calls_stop_half_way clk c s e :
  let r := exec clk c s in
  r.1 = Raise e →
  current_path r.2 = current_path s ∧
  stats r.2 = stats s ∧
  operation_log r.2 = operation_log s ∧
  dentry_cache r.2 = dentry_cache s ∧
  inode_cache r.2 = inode_cache s ∧
  ((∃ nm k item,
      c = Create nm k ∧ e = KeyError ∧
      filesystem s !! current_path s = None ∧
      filesystem s !! child_path s nm = None ∧
      filesystem r.2 = <[child_path s nm := length (heap s)]> (filesystem s) ∧
      heap r.2 = heap s ++ [item] ∧
      inode_counter r.2 = inode_counter s + 1)
   ∨ (∃ nm l,
      c = Delete nm ∧
      filesystem s !! child_path s nm = Some l ∧
      filesystem r.2 = base.delete (child_path s nm) (filesystem s) ∧
      heap r.2 = heap s ∧
      inode_counter r.2 = inode_counter s ∧
      (e = KeyError ∧ filesystem r.2 !! current_path s = None
       ∨ e = ValueError ∧
         ∃ parent, node_at s (current_path s) = Some parent ∧ nm ∉ children parent))).
Proof.
  cbv zeta.
  destruct c as [nm k|nm|nm|nm|nm cnt| |]; cbn [exec]; rewrite lift_snd;
    intros Hr%lift_raise.
  - revert Hr. unfold create.
    destruct (bool_decide (nm = "") || Str.contains_slash nm); [discriminate|].
    destruct (filesystem s !! child_path s nm) as [l0|] eqn:Hex; [discriminate|].
    unfold_setters.
    destruct (_ !! current_path s) as [lp|] eqn:Hlp.
    { destruct (_ !! lp); discriminate. }
    intros [= <-]. cbn [fst snd]. unfold_setters.
    apply lookup_insert_None in Hlp as [Hlp _].
    do 5 (split; [reflexivity|]). left. eexists nm, k, _.
    by do 6 (split; [reflexivity || done|]).
  - revert Hr. unfold delete.
    destruct (filesystem s !! child_path s nm) as [l|] eqn:Hp; [|discriminate].
    destruct (heap s !! l) as [item|] eqn:Hl; [|discriminate].
    destruct (bool_decide (item_type item = DIRECTORY) && bool_decide (children item ≠ []));
      [discriminate|].
    unfold_setters.
    destruct (_ !! current_path s) as [lp|] eqn:Hlp.
    2:{ intros [= <-]. cbn [fst snd]. unfold_setters.
        do 5 (split; [reflexivity|]). right. exists nm, l.
        do 5 (split; [reflexivity || done|]). by left. }
    destruct (heap s !! lp) as [parent|] eqn:Hparent; [|discriminate].
    destruct (Str.list_remove nm (children parent)) as [rest|] eqn:Hrest; [discriminate|].
    intros [= <-]. cbn [fst snd]. unfold_setters.
    do 5 (split; [reflexivity|]). right. exists nm, l.
    do 5 (split; [reflexivity || done|]). right. split; [done|].
    exists parent. apply lookup_delete_Some in Hlp as [_ Hlp].
    split; [apply node_at_Some; eauto|]. by apply list_remove_None.
  - unfold change_directory in Hr. by repeat case_match.
  - unfold read_file in Hr. by repeat case_match.
  - unfold write_file in Hr. by repeat case_match.
  - unfold get_current_items in Hr. by repeat case_match.
  - done.
Qed.

Lemma raising_calls_stop_half_way_witness :
  let r := exec noon (Delete "home/user/documents") fresh in
  current_path r.2 = current_path fresh ∧
  stats r.2 = stats fresh ∧
  operation_log r.2 = operation_log fresh ∧
  dentry_cache r.2 = dentry_cache fresh ∧
  inode_cache r.2 = inode_cache fresh ∧
  ((∃ nm k item,
      Delete "home/user/documents" = Create nm k ∧ ValueError = KeyError ∧
      filesystem fresh !! current_path fresh = None ∧
      filesystem fresh !! child_path fresh nm = None ∧
      filesystem r.2 = <[child_path fresh nm := length (heap fresh)]> (filesystem fresh) ∧
      heap r.2 = heap fresh ++ [item] ∧
      inode_counter r.2 = inode_counter fresh + 1)
   ∨ (∃ nm l,
      Delete "home/user/documents" = Delete nm ∧
      filesystem fresh !! child_path fresh nm = Some l ∧
      filesystem r.2 = base.delete (child_path fresh nm) (filesystem fresh) ∧
      heap r.2 = heap fresh ∧
      inode_counter r.2 = inode_counter fresh ∧
      (ValueError = KeyError ∧ filesystem r.2 !! current_path fresh = None
       ∨ ValueError = ValueError ∧
         ∃ parent, node_at fresh (current_path fresh) = Some parent ∧
                   nm ∉ children parent))).
Proof.
  apply (raising_calls_stop_half_way noon (Delete "home/user/documents") fresh ValueError).
  vm_compute. reflexivity.
Defined.

(** * The window's shortcuts *)

Lemma untouched_trans s1 s2 s3 : untouched s1 s2 → untouched s2 s3 → untouched s1 s3.
Proof. unfold untouched. intuition congruence. Qed.

(** X20. The window's Home button assigns the cursor directly, but it
    reaches nothing new: from a cursor with n segments, n calls of
    [change_directory("..")] (the Back button) all succeed, end at "/",
    and leave the engine in the state that [go_home] leaves, but for the
    journal and the operation counter. *)
Theorem going_back_reaches_home clk clks segs s :
  Forall valid_name segs →
  current_path s = abs_path segs →
  length clks = length segs →
  let r := run (go_back clks) s in
  Forall (λ e, succeeded e.2 = true) r.1 ∧
  current_path r.2 = "/" ∧
  untouched (go_home clk s) r.2.
Proof.
  cbv zeta. revert clks s.
  induction segs as [|x ps IH] using rev_ind; intros clks s Hall Hcp Hlen.
  - destruct clks; [|discriminate]. cbn [go_back fmap list_fmap run fst snd].
    split; [constructor|]. split; [done|].
    unfold untouched, go_home. unfold_setters. rewrite Hcp.
    by do 10 (split; [reflexivity|]).
  - rewrite length_app in Hlen. cbn [length] in Hlen.
    destruct clks as [|c clks]; [cbn [length] in Hlen; lia|].
    apply Forall_app in Hall as [Hps [Hx _]%Forall_cons].
    assert (current_path s ≠ "/") as Hnr.
    { rewrite Hcp. apply abs_path_ne_root.
      - apply Forall_app. split; [done|]. by constructor.
      - by destruct ps. }
    pose proof (change_directory_up c s Hnr) as Hup. cbv zeta in Hup.
    fold (parent_path (current_path s)) in Hup.
    rewrite Hcp, (parent_path_snoc _ _ Hps Hx) in Hup.
    set (s1 := _log_operation c "CHDIR" (abs_path ps) true
                 (set_current_path (abs_path ps) s)) in Hup.
    cbn [go_back fmap list_fmap run fst snd exec]. fold (go_back clks).
    rewrite lift_snd. unfold lift at 1. rewrite Hup. cbn [fst snd].
    destruct (IH clks s1 Hps) as (Hok & Hroot & Hsame).
    { reflexivity. }
    { cbn [length] in Hlen. lia. }
    split; [by constructor|]. split; [done|].
    eapply untouched_trans; [|exact Hsame].
    unfold untouched, go_home, s1. unfold_setters.
    by do 10 (split; [reflexivity|]).
Qed.

Lemma going_back_reaches_home_witness :
  let r := run (go_back [noon; noon])
               (run (at_noon [ChangeDirectory "home"; ChangeDirectory "user"]) fresh).2 in
  Forall (λ e, succeeded e.2 = true) r.1 ∧
  current_path r.2 = "/" ∧
  untouched (go_home noon
               (run (at_noon [ChangeDirectory "home"; ChangeDirectory "user"]) fresh).2)
            r.2.
Proof.
  apply (going_back_reaches_home noon [noon; noon] ["home"; "user"]).
  - apply Forall_cons. split; [split; [discriminate|reflexivity]|].
    apply Forall_cons. split; [split; [discriminate|reflexivity]|].
    apply Forall_nil. exact I.
  - vm_compute. reflexivity.
  - reflexivity.
Defined.
